(** * jas: resource router and error model

    A shallow embedding of the router of package [jas] (route table
    construction in [NewRouter], request resolution in [resolvePath],
    dispatch in [ServeHTTP] with [AllowCORS], the listing of
    [HandledPaths]) and of its error model ([RequestError],
    [InternalError] with the stack trace of its [Log], [doLog]).

    Conventions of the embedding.
    - A Go [string] is a [string] of bytes.  [strings.Split], [strings.Join],
      slicing and [strconv.ParseInt] work on bytes in Go as they do here.
      [convertName] ranges over runes and calls [strings.ToLower]; both
      coincide with the byte-wise reading below on ASCII text, which is what
      Go identifiers of the resources are taken to be.
    - A Go [int] or [int64] is a [Z]; the one place where the source can meet
      the bounds of a machine integer ([strconv.ParseInt]) writes them out.
    - A run-time panic (slice or index out of range) is [None] in the
      [option] monad.
    - Package variables ([WordSeparator], the status codes) stand at the
      values their declarations give them. *)

From Stdlib Require Import ZArith Ascii.
From stdpp Require Import base option list strings pretty gmap sorting.

Local Open Scope Z_scope.

(** ** Package [strings] and string slicing *)

Definition byte_of (c : ascii) : Z := Z.of_N (N_of_ascii c).
Definition of_byte (b : Z) : ascii := ascii_of_N (Z.to_N b).

(** [len(s)] *)
Definition len (s : string) : Z := Z.of_nat (String.length s).

Definition isUpper (c : ascii) : bool :=
  (byte_of "A" <=? byte_of c) && (byte_of c <=? byte_of "Z").
Definition isLower (c : ascii) : bool :=
  (byte_of "a" <=? byte_of c) && (byte_of c <=? byte_of "z").
Definition isLetter (c : ascii) : bool := isUpper c || isLower c.

Definition toLower (c : ascii) : ascii :=
  if isUpper c then of_byte (byte_of c + 32) else c.
Definition toUpper (c : ascii) : ascii :=
  if isLower c then of_byte (byte_of c - 32) else c.

Fixpoint mapString (f : ascii -> ascii) (s : string) : string :=
  match s with
  | EmptyString => EmptyString
  | String c s' => String (f c) (mapString f s')
  end.

(** [strings.ToLower] and [strings.ToUpper] *)
Definition ToLower : string -> string := mapString toLower.
Definition ToUpper : string -> string := mapString toUpper.

(** [strings.HasPrefix] *)
Fixpoint HasPrefix (s prefix : string) : bool :=
  match prefix, s with
  | EmptyString, _ => true
  | String p prefix', String c s' =>
      if decide (c = p) then HasPrefix s' prefix' else false
  | String _ _, EmptyString => false
  end.

Definition consHead (c : ascii) (l : list string) : list string :=
  match l with
  | w :: ws => String c w :: ws
  | [] => [String c EmptyString]
  end.

(** The scan of [strings.Split] for a separator that is not empty: the text
    is cut at each occurrence of [sep] found from the left, and the scan
    resumes behind the occurrence ([skip] counts the bytes of it that are
    still to be passed). *)
Fixpoint splitScan (sep : string) (skip : nat) (s : string) : list string :=
  match s with
  | EmptyString => [EmptyString]
  | String c s' =>
      match skip with
      | S k => splitScan sep k s'
      | O =>
          if HasPrefix s sep
          then EmptyString :: splitScan sep (String.length sep - 1) s'
          else consHead c (splitScan sep 0 s')
      end
  end.

Fixpoint explode (s : string) : list string :=
  match s with
  | EmptyString => []
  | String c s' => String c EmptyString :: explode s'
  end.

(** [strings.Split(s, sep)]; an empty [sep] splits after each character. *)
Definition Split (s sep : string) : list string :=
  match sep with
  | EmptyString => explode s
  | String _ _ => splitScan sep 0 s
  end.

(** [strings.Join(a, sep)] *)
Fixpoint Join (a : list string) (sep : string) : string :=
  match a with
  | [] => EmptyString
  | [x] => x
  | x :: rest => x +:+ sep +:+ Join rest sep
  end.

Fixpoint dropBytes (n : nat) (s : string) : option string :=
  match n, s with
  | O, _ => Some s
  | S n', String _ s' => dropBytes n' s'
  | S _, EmptyString => None
  end.

Fixpoint takeBytes (n : nat) (s : string) : option string :=
  match n, s with
  | O, _ => Some EmptyString
  | S n', String c s' => String c <$> takeBytes n' s'
  | S _, EmptyString => None
  end.

(** [s[i:]]: panics unless [0 <= i <= len(s)]. *)
Definition sliceFrom (s : string) (i : Z) : option string :=
  if i <? 0 then None else dropBytes (Z.to_nat i) s.

(** [s[:j]]: panics unless [0 <= j <= len(s)]. *)
Definition sliceTo (s : string) (j : Z) : option string :=
  if j <? 0 then None else takeBytes (Z.to_nat j) s.

(** [s[i]] *)
Definition byteAt (s : string) (i : nat) : option ascii := String.get i s.

(** ** Name conversion *)

Definition WordSeparator : string := "_".

(** The loop of [convertName]: [i] is the index of the character [v] at the
    head of what is left of [name], [buf] the buffer written so far. *)
Fixpoint convertNameLoop (i : Z) (name : string) (buf : string) : string :=
  match name with
  | EmptyString => buf
  | String v rest =>
      let buf := if (0 <? i) && isUpper v then buf +:+ WordSeparator else buf in
      convertNameLoop (i + 1) rest (buf +:+ String v EmptyString)
  end.

Definition convertName (name : string) : string :=
  ToLower (convertNameLoop 0 name "").

(** ** [strconv.ParseInt(s, 10, 64)] *)

Inductive NumError := ErrSyntax | ErrRange.

Definition maxUint64 : Z := 2 ^ 64 - 1.
Definition maxInt64 : Z := 2 ^ 63 - 1.
Definition minInt64 : Z := - 2 ^ 63.

Definition isDigit (c : ascii) : bool :=
  (byte_of "0" <=? byte_of c) && (byte_of c <=? byte_of "9").

(** The digit loop of [strconv.ParseUint] in base 10 on 64 bits: [n] is the
    [uint64] read so far.  The loop leaves at the first byte that is not a
    digit (syntax) or at the first digit that overflows (range), whichever
    comes first. *)
Fixpoint parseUintLoop (s : string) (n : Z) : Z * option NumError :=
  match s with
  | EmptyString => (n, None)
  | String d s' =>
      if negb (isDigit d) then (0, Some ErrSyntax)
      else
        let v := byte_of d - byte_of "0" in
        if maxUint64 `div` 10 + 1 <=? n then (maxUint64, Some ErrRange)
        else
          let n := n * 10 in
          let n1 := (n + v) `mod` 2 ^ 64 in
          if (n1 <? n) || (maxUint64 <? n1) then (maxUint64, Some ErrRange)
          else parseUintLoop s' n1
  end.

Definition ParseUint (s : string) : Z * option NumError :=
  match s with
  | EmptyString => (0, Some ErrSyntax)
  | String _ _ => parseUintLoop s 0
  end.

Definition ParseInt (s : string) : Z * option NumError :=
  match s with
  | EmptyString => (0, Some ErrSyntax)
  | String c s' =>
      let '(neg, s1) :=
        if decide (c = "+"%char) then (false, s')
        else if decide (c = "-"%char) then (true, s')
        else (false, s) in
      let '(un, err) := ParseUint s1 in
      match err with
      | Some ErrSyntax => (0, Some ErrSyntax)
      | _ =>
          let cutoff := 2 ^ 63 in
          if negb neg && (cutoff <=? un) then (cutoff - 1, Some ErrRange)
          else if neg && (cutoff <? un) then (- cutoff, Some ErrRange)
          else (if neg then - un else un, None)
      end
  end.

(** ** Resources, as [reflect] shows them to [NewRouter] *)

Inductive GoType :=
  | ContextPtr                 (* *jas.Context *)
  | NamedType (name : string). (* any other type *)

Global Instance GoType_eq_dec : EqDecision GoType.
Proof. solve_decision. Defined.

(** [reflect.TypeOf(new(Context))] *)
Definition contextType : GoType := ContextPtr.

(** A function type: its parameters (the receiver first) and results. *)
Record FuncType := { ins : list GoType; outs : list GoType }.

Definition NumIn (t : FuncType) : nat := length (ins t).
Definition NumOut (t : FuncType) : nat := length (outs t).
Definition In_ (t : FuncType) (i : nat) : option GoType := ins t !! i.

(** [reflect.Method] *)
Record Method := { Name : string; Type_ : FuncType }.

(** A resource: a pointer to a struct.  [addr] tells apart two pointers,
    [typeName] is [reflect.TypeOf(v).Elem().Name()], [methodSet] lists
    [reflect.TypeOf(v).Method(i)] for [i] below [NumMethod()], and [Gap] is
    the result of [v.Gap()] when [v] implements [ResourceWithGap]. *)
Record Resource := {
  addr : positive;
  typeName : string;
  methodSet : list Method;
  Gap : option string;
}.

Global Instance FuncType_eq_dec : EqDecision FuncType.
Proof. solve_decision. Defined.
Global Instance Method_eq_dec : EqDecision Method.
Proof. solve_decision. Defined.
Global Instance Resource_eq_dec : EqDecision Resource.
Proof. solve_decision. Defined.

(** [reflect.ValueOf(v).Method(i)]: the method of index [i] bound to [v]. *)
Definition MethodValue : Type := Resource * nat.

(** [*log.Logger], as [log.New(out, prefix, flag)] builds it. *)
Record Logger := { logOut : string; logPrefix : string; logFlag : Z }.

(** The fields of [Config] that hold data; its function fields are left out. *)
Record Config := {
  BasePath : string;
  EnableGzip : bool;
  RequestErrorLogger : option Logger;
  InternalErrorLogger : option Logger;
}.

Record Router := {
  methodMap : gmap string MethodValue;
  gapsMap : gmap string (list string);
  config : Config;
}.

Definition oneOf (s : string) (l : list string) : bool := bool_decide (s ∈ l).

(** ** Route table construction *)

Definition validateMethod (method : Method) : option bool :=
  firstLetter ← byteAt (Name method) 0;
  if (byte_of firstLetter <? byte_of "A") || (byte_of "Z" <? byte_of firstLetter)
  then Some false
  else if negb (bool_decide (NumIn (Type_ method) = 2%nat)) then Some false
  else if negb (bool_decide (NumOut (Type_ method) = 0%nat)) then Some false
  else
    inType ← In_ (Type_ method) 1;
    if negb (bool_decide (inType = contextType)) then Some false else Some true.

(** Lines 202 to 214 of [NewRouter]: the path of the resource, whether it is
    an id resource, and the gaps map after the resource has been seen. *)
Definition resourcePath (v : Resource) (gaps : gmap string (list string))
  : option (string * bool * gmap string (list string)) :=
  let resName := typeName v in
  let resNameSnake := convertName resName in
  let resNameSnakeLen := len resNameSnake in
  if bool_decide (3 < resNameSnakeLen) then
    suffix ← sliceFrom resNameSnake (resNameSnakeLen - 3);
    if bool_decide (suffix = "_id") then
      stem ← sliceTo resNameSnake (resNameSnakeLen - 3);
      Some (stem +:+ "/:id", true, gaps)
    else
      match Gap v with
      | Some gap =>
          Some (resNameSnake +:+ "/" +:+ gap, false,
                <[resNameSnake := Split gap "/"]> gaps)
      | None => Some (resNameSnake, false, gaps)
      end
  else
    match Gap v with
    | Some gap =>
        Some (resNameSnake +:+ "/" +:+ gap, false,
              <[resNameSnake := Split gap "/"]> gaps)
    | None => Some (resNameSnake, false, gaps)
    end.

(** Lines 220 to 252 of [NewRouter]: the key a valid method is stored under. *)
Definition methodRoute (resNameSnake : string) (isIdResource : bool)
    (methodType : Method) : option string :=
  let methodName := convertName (Name methodType) in
  let methodWords := Split methodName WordSeparator in
  word0 ← methodWords !! 0%nat;
  let hasHttpMethod := oneOf word0 ["post"; "get"; "put"; "delete"] in
  let minIdMethodLen := if hasHttpMethod then 3%nat else 2%nat in
  let isIdMethod :=
    negb isIdResource
    && bool_decide (minIdMethodLen ≤ length methodWords)%nat
    && bool_decide (methodWords !! (length methodWords - 1)%nat = Some "id") in
  methodName ← (if isIdMethod then sliceTo methodName (len methodName - 3)
                else Some methodName);
  '(httpMethod, methodName) ←
    (if hasHttpMethod then
       methodName ← (if bool_decide (1 < length methodWords)%nat
                     then rest ← sliceFrom methodName (len word0 + 1);
                          Some ("/" +:+ rest)
                     else Some "");
       Some (ToUpper word0, methodName)
     else Some ("GET", "/" +:+ methodName));
  let methodName := if isIdMethod then methodName +:+ "/:id" else methodName in
  methodName ← (if bool_decide (resNameSnake = "") && bool_decide (0 < len methodName)
                then sliceFrom methodName 1 else Some methodName);
  Some (httpMethod +:+ " /" +:+ resNameSnake +:+ methodName).

(** The loop over the methods of one resource, from index [i] on. *)
Fixpoint registerMethods (v : Resource) (resNameSnake : string)
    (isIdResource : bool) (i : nat) (methods : list Method)
    (table : gmap string MethodValue) : option (gmap string MethodValue) :=
  match methods with
  | [] => Some table
  | methodType :: methods' =>
      ok ← validateMethod methodType;
      if negb ok then
        registerMethods v resNameSnake isIdResource (S i) methods' table
      else
        path ← methodRoute resNameSnake isIdResource methodType;
        registerMethods v resNameSnake isIdResource (S i) methods'
          (<[path := (v, i)]> table)
  end.

(** The body of the loop over the resources. *)
Definition registerResource (router : Router) (v : Resource) : option Router :=
  '(resNameSnake, isIdResource, gaps) ← resourcePath v (gapsMap router);
  table ← registerMethods v resNameSnake isIdResource 0 (methodSet v)
             (methodMap router);
  Some {| methodMap := table; gapsMap := gaps; config := config router |}.

Fixpoint registerResources (router : Router) (resources : list Resource)
  : option Router :=
  match resources with
  | [] => Some router
  | v :: resources' =>
      router' ← registerResource router v;
      registerResources router' resources'
  end.

Definition newConfig : Config :=
  {| BasePath := "/";
     EnableGzip := false;
     RequestErrorLogger := None;
     InternalErrorLogger := Some {| logOut := "os.Stderr"; logPrefix := ""; logFlag := 0 |} |}.

(** The router before the loop over the resources. *)
Definition emptyRouter : Router :=
  {| methodMap := ∅; gapsMap := ∅; config := newConfig |}.

Definition NewRouter (resources : list Resource) : option Router :=
  registerResources emptyRouter resources.

(** ** Request resolution *)

Definition resolvePath (r : Router) (method rawPath : string)
  : string * Z * list string * option (list string) :=
  let segments := Split rawPath "/" in
  let httpMethod := if oneOf method ["POST"; "DETETE"; "PUT"] then method else "GET" in
  let path := httpMethod +:+ " /" +:+ segments !!! 0%nat in
  let seg1 := if bool_decide (2 ≤ length segments)%nat then segments !!! 1%nat else "" in
  let '(id, err) := ParseInt seg1 in
  match err with
  | None =>
      let path := path +:+ "/:id" in
      let path :=
        if bool_decide (2 < length segments)%nat
           && negb (bool_decide (segments !!! 2%nat = ""))
        then path +:+ "/" +:+ segments !!! 2%nat else path in
      (path, id, segments, None)
  | Some _ =>
      let gaps := gapsMap r !! (segments !!! 0%nat) in
      let path :=
        match gaps with
        | Some g => path +:+ "/" +:+ Join g "/"
        | None => path
        end in
      let methodIndex := (length (default [] gaps) + 1)%nat in
      let path :=
        if bool_decide (methodIndex < length segments)%nat
           && negb (bool_decide (segments !!! methodIndex = ""))
        then path +:+ "/" +:+ segments !!! methodIndex else path in
      let nextIndex := (methodIndex + 1)%nat in
      if bool_decide (nextIndex < length segments)%nat
         && negb (bool_decide (segments !!! nextIndex = ""))
      then
        let '(id, err) := ParseInt (segments !!! nextIndex) in
        match err with
        | None => (path +:+ "/:id", id, segments, gaps)
        | Some _ => (path, id, segments, gaps)
        end
      else (path, id, segments, gaps)
  end.

Definition routeKey (res : string * Z * list string * option (list string)) : string :=
  res.1.1.1.
Definition routeId (res : string * Z * list string * option (list string)) : Z :=
  res.1.1.2.

(** ** Error model *)

Definition RequestErrorStatusCode : Z := 400.
Definition InternalErrorStatusCode : Z := 500.
Definition UnauthorizedStatusCode : Z := 401.
Definition NotFoundStatusCode : Z := 404.

Definition quote : string := String "034"%char EmptyString.
Definition newline : string := String "010"%char EmptyString.

Definition timeFormat : string := "02/Jan/2006:15:04:05 -0700".
Definition logFormat : string :=
  "%v - %d [%v] " +:+ quote +:+ "%v %v %v" +:+ quote +:+ " 200 %d "
  +:+ quote +:+ "%v" +:+ quote +:+ " " +:+ quote +:+ "%v" +:+ quote +:+ newline.

(** The operands [doLog] hands to [Printf]: strings and integers. *)
Inductive Arg := ArgString (s : string) | ArgInt (n : Z).

(** One operand under one verb of package [fmt]: [%v] and [%d]. *)
Definition formatArg (verb : ascii) (a : Arg) : option string :=
  if decide (verb = "v"%char) then
    Some match a with ArgString s => s | ArgInt n => pretty n end
  else if decide (verb = "d"%char) then
    Some match a with
         | ArgInt n => pretty n
         | ArgString s => "%!d(string=" +:+ s +:+ ")"
         end
  else None.

(** [fmt.Sprintf] for formats made of text, [%v] and [%d], with one operand
    per verb; [None] for any other use. *)
Fixpoint Sprintf (format : string) (args : list Arg) : option string :=
  match format with
  | EmptyString => match args with [] => Some EmptyString | _ :: _ => None end
  | String c rest =>
      if decide (c = "%"%char) then
        match rest, args with
        | String verb rest', a :: args' =>
            s ← formatArg verb a;
            t ← Sprintf rest' args';
            Some (s +:+ t)
        | _, _ => None
        end
      else String c <$> Sprintf rest args
  end.

(** [strings.Replace(s, old, new, -1)] for an [old] of one byte. *)
Fixpoint ReplaceAll (s : string) (old : ascii) (new : string) : string :=
  match s with
  | EmptyString => EmptyString
  | String c s' =>
      if decide (c = old) then new +:+ ReplaceAll s' old new
      else String c (ReplaceAll s' old new)
  end.

(** The interface [error]. *)
Class error (T : Type) := Error : T -> string.

(** The interface [AppError], without [Log]. *)
Class AppError (T : Type) `{error T} := {
  Status : T -> Z;
  Message : T -> string;
}.

(** A value of type [error] held in an interface, observed through its
    [Error] method alone; [errors.New(s)] builds one. *)
Record errorValue := { errorString : string }.

Global Instance errorValue_error : error errorValue := errorString.

Module errors.
Definition New (text : string) : errorValue := {| errorString := text |}.
End errors.

Module Context.
(** Modelled from the spec: the request context, whose declaration is not
    among the sources.  The fields are those [doLog] and [Log] read, the
    ones of the embedded [*http.Request] included, and the [Id] that
    [ServeHTTP] writes. *)
Record t := {
  Id : Z;
  UserId : Z;
  RemoteAddr : string;
  Method : string;
  RequestURI : string;
  Proto : string;
  written : Z;
  config : Config;
}.
End Context.

(** [doLog]: the message [logger.Printf] is called to print.  [now] is
    [time.Now().Format(timeFormat)]. *)
Definition doLog {T} `{error T} (logger : Logger) (context : Context.t)
    (now : string) (err : T) (stack : string) : option string :=
  let errStr := Error err in
  let errStr := ReplaceAll errStr "010"%char ";" in
  Sprintf logFormat
    [ ArgString (Context.RemoteAddr context);
      ArgInt (Context.UserId context);
      ArgString now;
      ArgString (Context.Method context);
      ArgString (Context.RequestURI context);
      ArgString (Context.Proto context);
      ArgInt (Context.written context);
      ArgString errStr;
      ArgString stack ].

Module RequestError.
Record t := { Msg : string; StatusCode : Z }.

Global Instance t_error : error t := Msg.
Global Instance t_AppError : AppError t :=
  {| Status := StatusCode; Message := Msg |}.

(** [Log]: the messages printed, each with the logger that prints it. *)
Definition Log (re : t) (context : Context.t) (now : string)
  : option (list (Logger * string)) :=
  match RequestErrorLogger (Context.config context) with
  | Some logger =>
      line ← doLog logger context now re "-";
      Some [(logger, line)]
  | None => Some []
  end.
End RequestError.

Module InternalError.
Record t := { Err : errorValue; StatusCode : Z }.

Global Instance t_error : error t := fun ie => Error (Err ie).
Global Instance t_AppError : AppError t :=
  {| Status := StatusCode; Message := fun _ => "InternalError" |}.
End InternalError.

Definition NewRequestError (message : string) : RequestError.t :=
  {| RequestError.Msg := message;
     RequestError.StatusCode := RequestErrorStatusCode |}.

(** A value of type [interface{}] as [NewInternalError] may receive it. *)
Inductive Value :=
  | VNil
  | VBool (b : bool)
  | VInt (n : Z)
  | VString (s : string)
  | VError (e : errorValue).

(** [fmt.Sprint] of one operand. *)
Definition Sprint (v : Value) : string :=
  match v with
  | VNil => "<nil>"
  | VBool b => if b then "true" else "false"
  | VInt n => pretty n
  | VString s => s
  | VError e => Error e
  end.

Definition NewInternalError (err : Value) : InternalError.t :=
  let e :=
    match err with
    | VError e => e
    | _ => errors.New (Sprint err)
    end in
  {| InternalError.Err := e;
     InternalError.StatusCode := InternalErrorStatusCode |}.

(** The last field of a log line: the text between the last two quotes of a
    line that ends with a quote and a newline. *)
Fixpoint beforeQuote (s : string) : option string :=
  match s with
  | EmptyString => None
  | String c s' =>
      if decide (c = "034"%char) then Some EmptyString
      else String c <$> beforeQuote s'
  end.

Definition stackField (line : string) : option string :=
  match String.rev line with
  | String nl (String q rest) =>
      if decide (nl = "010"%char) then
        if decide (q = "034"%char) then String.rev <$> beforeQuote rest
        else None
      else None
  | _ => None
  end.

(** ** Definitions used to state the properties *)

Fixpoint allBytes (p : ascii -> bool) (s : string) : bool :=
  match s with
  | EmptyString => true
  | String c s' => p c && allBytes p s'
  end.

(** An identifier composed of upper-case and lower-case letters. *)
Definition lettersOnly (s : string) : Prop := allBytes isLetter s = true.

(** The conversion in the words of the specification: every character is
    written in lower case, and the separator is written in front of it when
    it is an upper-case letter other than the first character. *)
Fixpoint snakeFrom (first : bool) (name : string) : string :=
  match name with
  | EmptyString => EmptyString
  | String c rest =>
      (if negb first && isUpper c then WordSeparator else "")
      +:+ String (toLower c) (snakeFrom false rest)
  end.

Definition snakeCase (name : string) : string := snakeFrom true name.

(** [s] without its bytes [c]. *)
Fixpoint removeByte (c : ascii) (s : string) : string :=
  match s with
  | EmptyString => EmptyString
  | String x s' => if decide (x = c) then removeByte c s' else String x (removeByte c s')
  end.

(** The log line [doLog] prints, field by field. *)
Definition logLine (context : Context.t) (now errStr stack : string) : string :=
  Context.RemoteAddr context +:+ " - " +:+ pretty (Context.UserId context)
  +:+ " [" +:+ now +:+ "] "
  +:+ quote +:+ Context.Method context +:+ " " +:+ Context.RequestURI context
  +:+ " " +:+ Context.Proto context +:+ quote
  +:+ " 200 " +:+ pretty (Context.written context) +:+ " "
  +:+ quote +:+ errStr +:+ quote +:+ " " +:+ quote +:+ stack +:+ quote +:+ newline.

(** Sample resources.  [contextMethod name] is a method
    [func (r *T) name(ctx *jas.Context)], [gapMethod] is
    [func (r *T) Gap() string]. *)
Definition contextMethod (name : string) : Method :=
  {| Name := name;
     Type_ := {| ins := [NamedType "receiver"; ContextPtr]; outs := [] |} |}.

Definition gapMethod : Method :=
  {| Name := "Gap";
     Type_ := {| ins := [NamedType "receiver"]; outs := [NamedType "string"] |} |}.

Definition sampleLogger : Logger :=
  {| logOut := "requests.log"; logPrefix := ""; logFlag := 0 |}.

Definition sampleContext : Context.t :=
  {| Context.Id := 0;
     Context.UserId := 7;
     Context.RemoteAddr := "10.0.0.1:4711";
     Context.Method := "GET";
     Context.RequestURI := "/users/x";
     Context.Proto := "HTTP/1.1";
     Context.written := 33;
     Context.config :=
       {| BasePath := "/"; EnableGzip := false;
          RequestErrorLogger := Some sampleLogger;
          InternalErrorLogger := None |} |}.

(** Whether the byte [c] occurs in [s]. *)
Fixpoint hasByte (c : ascii) (s : string) : bool :=
  match s with
  | EmptyString => false
  | String x s' => if decide (x = c) then true else hasByte c s'
  end.

(** ** The route key in the words of the specification *)

Definition httpVerbs : list string := ["post"; "get"; "put"; "delete"].

(** [s] without its first byte. *)
Definition dropFirst (s : string) : string :=
  match s with
  | EmptyString => EmptyString
  | String _ s' => s'
  end.

(** The path of a key: the path of the resource, the path portion (the
    words that are left of the method name, joined again) behind a slash
    when there is a word, and the id placeholder when [idSuffix] holds.  A
    resource path that is empty takes no slash behind it. *)
Definition routePath (resPath : string) (pathWords : list string)
    (idSuffix : bool) : string :=
  let portion :=
    match pathWords with
    | [] => ""
    | _ :: _ => "/" +:+ Join pathWords WordSeparator
    end in
  let rest := portion +:+ (if idSuffix then "/:id" else "") in
  resPath +:+ (if bool_decide (resPath = "") then dropFirst rest else rest).

(** Id-method detection: the resource is not an id resource, the name has at
    least two words (three when the first is a verb) and its last word is
    [id]. *)
Definition isIdMethodName (isIdResource hasVerb : bool) (words : list string)
  : bool :=
  negb isIdResource
  && bool_decide ((if hasVerb then 3 else 2) <= length words)%nat
  && bool_decide (last words = Some "id").

(** Verb detection followed, when [idMethods] holds, by id-method detection:
    a first word among [post], [get], [put], [delete] is the verb, in upper
    case, and leaves the path portion; otherwise the verb is [GET] and all
    words stay. *)
Definition specRouteKey (idMethods : bool) (resPath : string)
    (isIdResource : bool) (name : string) : string :=
  let words := Split (convertName name) WordSeparator in
  let word0 := hd "" words in
  let hasVerb := oneOf word0 httpVerbs in
  let isId := idMethods && isIdMethodName isIdResource hasVerb words in
  let words := if isId then removelast words else words in
  if hasVerb
  then ToUpper word0 +:+ " /" +:+ routePath resPath (tail words) isId
  else "GET /" +:+ routePath resPath words isId.

(** ** Registrations *)

(** The key [NewRouter] stores a method of the resource [v] under; [None]
    for a method that is skipped. *)
Definition routeOf (v : Resource) (methodType : Method) : option string :=
  match resourcePath v ∅, validateMethod methodType with
  | Some (resNameSnake, isIdResource, _), Some true =>
      methodRoute resNameSnake isIdResource methodType
  | _, _ => None
  end.

(** The registrations of the methods [methods] of [v], whose indices start
    at [i], in the order of the loop. *)
Fixpoint registrationsFrom (v : Resource) (i : nat) (methods : list Method)
  : list (string * MethodValue) :=
  match methods with
  | [] => []
  | methodType :: methods' =>
      match routeOf v methodType with
      | Some key => [(key, (v, i))]
      | None => []
      end ++ registrationsFrom v (S i) methods'
  end.

(** All registrations of a list of resources, in the order [NewRouter] makes
    them. *)
Definition registrations (resources : list Resource)
  : list (string * MethodValue) :=
  resources ≫= fun v => registrationsFrom v 0 (methodSet v).

(** The handler of the last registration under [key]. *)
Definition lastRegistration (key : string) (regs : list (string * MethodValue))
  : option MethodValue :=
  snd <$> last (filter (fun kv => kv.1 = key) regs).

(** Methods as [reflect] lists them have a name. *)
Definition namedMethods (v : Resource) : Prop :=
  Forall (fun methodType => Name methodType <> "") (methodSet v).

(** Sample resources. *)
Definition Baz : Resource :=
  {| addr := 1; typeName := "Baz";
     methodSet := [contextMethod "PostBar"]; Gap := None |}.

Definition Users : Resource :=
  {| addr := 2; typeName := "Users";
     methodSet := [contextMethod "ImageUrl"]; Gap := None |}.

Definition UsersId : Resource :=
  {| addr := 3; typeName := "UsersId";
     methodSet := [contextMethod "ImageUrl"]; Gap := None |}.

Definition UsersProfile : Resource :=
  {| addr := 4; typeName := "Users";
     methodSet := [gapMethod; contextMethod "Get_Name"];
     Gap := Some "profile" |}.

Definition UsersProfile' : Resource :=
  {| addr := 5; typeName := "Users";
     methodSet := [gapMethod; contextMethod "GetName"];
     Gap := Some "profile" |}.

Definition Id_ : Resource :=
  {| addr := 6; typeName := "Id";
     methodSet := [contextMethod "Foo"]; Gap := None |}.

(** The table after the registrations [regs] have been stored in [table],
    one after the other. *)
Definition storeAll (table : gmap string MethodValue)
    (regs : list (string * MethodValue)) : gmap string MethodValue :=
  foldl (fun t kv => <[kv.1 := kv.2]> t) table regs.

Definition Users2 : Resource :=
  {| addr := 7; typeName := "Users";
     methodSet := [contextMethod "GetImageUrl"]; Gap := None |}.

(** The number of segments [:id] of a key. *)
Definition idSegments (key : string) : nat :=
  length (filter (fun s => s = ":id") (Split key "/")).

(** A word of a converted name: lower-case letters, at least one. *)
Definition lowerWord (w : string) : Prop :=
  w <> "" /\ allBytes isLower w = true.

(** The bytes of a converted name: lower-case letters and the separator. *)
Definition tokenByte (c : ascii) : bool :=
  isLower c || bool_decide (c = "_"%char).

(** A resource as the specification assumes it: a type name that is not
    empty and methods that have a name, all made of letters. *)
Definition wellNamed (v : Resource) : Prop :=
  typeName v <> ""
  /\ lettersOnly (typeName v)
  /\ Forall (fun methodType =>
               Name methodType <> "" /\ lettersOnly (Name methodType))
       (methodSet v).

(** The verb the resolver gives a key. *)
Definition resolvedVerb (method : string) : string :=
  if oneOf method ["POST"; "DETETE"; "PUT"] then method else "GET".

(** What the resolver appends for the segments that follow the gaps: the
    method segment when it is not empty, and the id placeholder when the
    segment behind it is an integer. *)
Definition tailKey (tail : list string) : string :=
  match tail with
  | [] => ""
  | m :: tl =>
      (if bool_decide (m = "") then "" else "/" +:+ m)
      +:+ match tl with
          | [] => ""
          | i :: _ =>
              if bool_decide (i = "") then ""
              else match ParseInt i with
                   | (_, None) => "/:id"
                   | (_, Some _) => ""
                   end
          end
  end.

(** ** Resources and routers that differ in one field *)

(** The resource [v] with its [Gap] method taken away. *)
Definition withoutGap (v : Resource) : Resource :=
  {| addr := addr v; typeName := typeName v; methodSet := methodSet v;
     Gap := None |}.

(** ** The listing of the handled paths *)

(** [strings.HasSuffix] and [strings.TrimSuffix] *)
Definition HasSuffix (s suffix : string) : bool :=
  bool_decide (len suffix <= len s)
  && bool_decide (sliceFrom s (len s - len suffix) = Some suffix).

Definition TrimSuffix (s suffix : string) : option string :=
  if HasSuffix s suffix then sliceTo s (len s - len suffix) else Some s.

(** [a < b] on strings: the order of the bytes, a proper prefix first. *)
Fixpoint stringLess (a b : string) : bool :=
  match a, b with
  | _, EmptyString => false
  | EmptyString, String _ _ => true
  | String x a', String y b' =>
      (byte_of x <? byte_of y)
      || ((byte_of x =? byte_of y) && stringLess a' b')
  end.

(** [a] may stand in front of [b] in a sorted list. *)
Definition notAfter (a b : string) : Prop := stringLess b a = false.

Global Instance notAfter_dec (a b : string) : Decision (notAfter a b).
Proof. unfold notAfter. apply _. Defined.

(** [sort.Strings]: the strings in increasing order.  The algorithm of the
    library is not part of the sources; a merge sort stands for it. *)
Definition sortStrings (l : list string) : list string := merge_sort notAfter l.

(** The body of the loop of [HandledPaths] for the key [k]. *)
Definition handledPath (basePath k : string) : option string :=
  let methodPath := Split k " " in
  method ← methodPath !! 0%nat;
  path ← methodPath !! 1%nat;
  Some (method +:+ " " +:+ basePath +:+ path).

(** [HandledPaths], with the keys of the table in the order [keys] in which
    the [range] over the map meets them. *)
Definition HandledPathsIn (keys : list string) (r : Router)
    (withBasePath : bool) : option string :=
  basePath ← (if withBasePath then TrimSuffix (BasePath (config r)) "/"
              else Some "");
  handledPaths ← mapM (handledPath basePath) keys;
  Some (Join (sortStrings handledPaths) newline).

Definition HandledPaths (r : Router) (withBasePath : bool) : option string :=
  HandledPathsIn (map_to_list (methodMap r)).*1 r withBasePath.

(** The router [r] after its field [BasePath] has been set. *)
Definition setBasePath (r : Router) (basePath : string) : Router :=
  {| methodMap := methodMap r; gapsMap := gapsMap r;
     config := {| BasePath := basePath;
                  EnableGzip := EnableGzip (config r);
                  RequestErrorLogger := RequestErrorLogger (config r);
                  InternalErrorLogger := InternalErrorLogger (config r) |} |}.

(** ** The stack trace of an internal error *)

(** One frame of the call stack, as [runtime.Caller] reports it. *)
Record Frame := { pc : Z; file : string; line : Z }.

Definition StackFormat : string := "%s:%d(0x%x);".

Definition hexDigit (d : Z) : ascii :=
  if d <? 10 then of_byte (byte_of "0" + d) else of_byte (byte_of "a" + (d - 10)).

Fixpoint hexDigits (fuel : nat) (n : Z) (acc : string) : string :=
  match fuel with
  | O => acc
  | S fuel' =>
      let acc := String (hexDigit (n `mod` 16)) acc in
      if n `div` 16 =? 0 then acc else hexDigits fuel' (n `div` 16) acc
  end.

(** An integer under the verb [%x]. *)
Definition formatHex (n : Z) : string :=
  if n <? 0 then "-" +:+ hexDigits (Z.to_nat (Z.log2 (- n)) + 1) (- n) ""
  else hexDigits (Z.to_nat (Z.log2 n) + 1) n "".

(** One operand under one verb of the stack format: [%s], [%d] and [%x]. *)
Definition formatStackArg (verb : ascii) (a : Arg) : option string :=
  if decide (verb = "s"%char) then
    Some match a with
         | ArgString s => s
         | ArgInt n => "%!s(int=" +:+ pretty n +:+ ")"
         end
  else if decide (verb = "x"%char) then
    match a with
    | ArgInt n => Some (formatHex n)
    | ArgString _ => None
    end
  else formatArg verb a.

(** [fmt.Fprintf(buf, format, args...)] for formats made of text, [%s],
    [%v], [%d] and [%x] of an integer, with one operand per verb: the buffer
    after the call; [None] for any other use. *)
Fixpoint Fprintf (buf : string) (format : string) (args : list Arg)
  : option string :=
  match format with
  | EmptyString => match args with [] => Some buf | _ :: _ => None end
  | String c rest =>
      if decide (c = "%"%char) then
        match rest, args with
        | String verb rest', a :: args' =>
            s ← formatStackArg verb a;
            Fprintf (buf +:+ s) rest' args'
        | _, _ => None
        end
      else Fprintf (buf +:+ String c EmptyString) rest args
  end.

(** The loop of [InternalError.Log] over the frames that [runtime.Caller]
    reports from the current index on; the loop ends when there is no
    frame left. *)
Fixpoint stackLoop (frames : list Frame) (buf : string) : option string :=
  match frames with
  | [] => Some buf
  | f :: frames' =>
      suffix ← sliceFrom (file f) (len (file f) - 10);
      if bool_decide (suffix = "me/panic.c") then stackLoop frames' buf
      else if bool_decide (suffix = "t/value.go") then Some buf
      else
        buf ← Fprintf buf StackFormat
                 [ArgString (file f); ArgInt (line f); ArgInt (pc f)];
        stackLoop frames' buf
  end.

(** [InternalError.Log]: the messages printed, each with the logger that
    prints it.  [callers] lists the frames [runtime.Caller(i)] reports for
    [i] from 0 on. *)
Definition InternalError_Log (ie : InternalError.t) (context : Context.t)
    (now : string) (callers : list Frame) : option (list (Logger * string)) :=
  match InternalErrorLogger (Context.config context) with
  | Some logger =>
      stack ← stackLoop (drop 3 callers) "";
      line ← doLog logger context now ie stack;
      Some [(logger, line)]
  | None => Some []
  end.

(** The last ten bytes of a file name. *)
Definition suffix10 (f : Frame) : option string :=
  sliceFrom (file f) (len (file f) - 10).

(** The frames of the trace: those in front of the first frame of
    [reflect/value.go], without the frames of [runtime/panic.c]. *)
Fixpoint tracedFrames (frames : list Frame) : list Frame :=
  match frames with
  | [] => []
  | f :: frames' =>
      if bool_decide (suffix10 f = Some "t/value.go") then []
      else if bool_decide (suffix10 f = Some "me/panic.c")
           then tracedFrames frames'
           else f :: tracedFrames frames'
  end.

(** The frames the loop reads: up to the first frame of [reflect/value.go]. *)
Fixpoint readFrames (frames : list Frame) : list Frame :=
  match frames with
  | [] => []
  | f :: frames' =>
      f :: (if bool_decide (suffix10 f = Some "t/value.go") then []
            else readFrames frames')
  end.

(** The text of one frame in the trace. *)
Definition frameText (f : Frame) : string :=
  file f +:+ ":" +:+ pretty (line f) +:+ "(0x" +:+ formatHex (pc f) +:+ ");".

(** The text of the trace. *)
Definition traceText (frames : list Frame) : string :=
  foldr (fun f s => frameText f +:+ s) "" (tracedFrames frames).

(** The logger [NewRouter] sets for internal errors. *)
Definition stderrLogger : Logger :=
  {| logOut := "os.Stderr"; logPrefix := ""; logFlag := 0 |}.

(** ** Serving a request *)

(** [http.Header]: the values of each key, in the order they were added.
    The keys the router uses are written in canonical form. *)
Definition Header : Type := gmap string (list string).

Definition Header_Get (h : Header) (key : string) : string :=
  match h !! key with
  | Some (value :: _) => value
  | _ => ""
  end.

Definition Header_Set (h : Header) (key value : string) : Header :=
  <[key := [value]]> h.

Definition Header_Add (h : Header) (key value : string) : Header :=
  <[key := default [] (h !! key) ++ [value]]> h.

(** [strings.Contains] *)
Fixpoint Contains (s substr : string) : bool :=
  HasPrefix s substr
  || match s with
     | EmptyString => false
     | String _ s' => Contains s' substr
     end.

Module Request.
(** The fields of [*http.Request] the router reads; [Path] is [URL.Path]. *)
Record t := { Path : string; Method : string; Header : Header }.
End Request.

(** The function fields of [Config] that [ServeHTTP] asks for a value.
    [HandleCORS] gets the response header, a map it may write to, and gives
    it back as it leaves it. *)
Record Hooks := {
  HandleCORS : option (Request.t -> Header -> Header * bool);
  ParseIdFunc : option (Request.t -> Z);
}.

(** The fields of the context that [ServeHTTP] sets before it calls the
    method; [ctxGzip] tells whether the writer is the gzip writer.  The
    request header read through the context is the one of the request
    embedded in it. *)
Record ServeContext := {
  ctxId : Z;
  ctxPathSegments : list string;
  ctxGaps : option (list string);
  ctxUserId : Z;
  ctxStatus : Z;
  ctxResponseHeader : Header;
  ctxGzip : bool;
}.

(** How [ServeHTTP] ends: with a call of [OnNotFound]; with the header
    alone, after [HandleCORS] has answered [false]; or with the calls of
    [BeforeServe], when it is set, and of the method, on the context, and
    the deferred calls behind them. *)
Inductive Served :=
  | NotFoundCalled
  | HeaderOnly (responseHeader : Header)
  | MethodCalled (methodValue : MethodValue) (ctx : ServeContext).

(** [ServeHTTP], for a response writer whose header is [w]. *)
Definition ServeHTTP (router : Router) (hooks : Hooks) (w : Header)
    (r : Request.t) : option Served :=
  if negb (HasPrefix (Request.Path r) (BasePath (config router)))
  then Some NotFoundCalled
  else
    rawPath ← sliceFrom (Request.Path r) (len (BasePath (config router)));
    let '(path, id, segments, gaps) :=
      resolvePath router (Request.Method r) rawPath in
    match methodMap router !! path with
    | None => Some NotFoundCalled
    | Some methodValue =>
        let '(responseHeader, goOn) :=
          match HandleCORS hooks with
          | Some handle => handle r w
          | None => (w, true)
          end in
        if negb goOn then Some (HeaderOnly responseHeader)
        else
          let gzip :=
            EnableGzip (config router)
            && Contains (Header_Get (Request.Header r) "Accept-Encoding") "gzip" in
          let responseHeader :=
            if gzip then Header_Set responseHeader "Content-Encoding" "gzip"
            else responseHeader in
          let userId :=
            match ParseIdFunc hooks with
            | Some parse => parse r
            | None => 0
            end in
          let responseHeader :=
            Header_Set responseHeader "Cache-Control" "no-cache" in
          let responseHeader :=
            Header_Set responseHeader "Content-Type"
              "application/json; charset=utf-8" in
          Some (MethodCalled methodValue
                  {| ctxId := id;
                     ctxPathSegments := segments;
                     ctxGaps := gaps;
                     ctxUserId := userId;
                     ctxStatus := 200;
                     ctxResponseHeader := responseHeader;
                     ctxGzip := gzip |})
    end.

(** [AllowCORS] *)
Definition AllowCORS (r : Request.t) (responseHeader : Header)
  : Header * bool :=
  let responseHeader :=
    Header_Add responseHeader "Access-Control-Allow-Origin" "*" in
  if bool_decide (Request.Method r = "OPTIONS") then (responseHeader, false)
  else (responseHeader, true).



(** ** The parts of a key, read off the name of the method *)

(** The verb: the first word of the converted name when it is one of the
    four verbs, [GET] otherwise. *)
Definition methodVerb (name : string) : string :=
  let word0 := hd "" (Split (convertName name) WordSeparator) in
  if oneOf word0 httpVerbs then ToUpper word0 else "GET".

(** Whether the method is an id method. *)
Definition methodIsId (isIdResource : bool) (name : string) : bool :=
  let words := Split (convertName name) WordSeparator in
  isIdMethodName isIdResource (oneOf (hd "" words) httpVerbs) words.

(** The words of the path portion: the words of the converted name without
    the verb and without the last word [id] of an id method. *)
Definition methodPathWords (isIdResource : bool) (name : string)
  : list string :=
  let words := Split (convertName name) WordSeparator in
  let words' :=
    if methodIsId isIdResource name then removelast words else words in
  if oneOf (hd "" words) httpVerbs then tail words' else words'.

(** The path portion: the segment of a request that names the method. *)
Definition methodPortion (isIdResource : bool) (name : string) : string :=
  Join (methodPathWords isIdResource name) WordSeparator.

(** * Properties *)

#[local] Arguments String.append !s1 s2 / : simpl nomatch.
#[local] Arguments Split : simpl never.

(** ** Sample evaluations *)

Example convertName_ImageUrl : convertName "ImageUrl" = "image_url".
Proof. reflexivity. Qed.

Example Split_example : Split "users/5/image_url" "/" = ["users"; "5"; "image_url"].
Proof. reflexivity. Qed.

Example Split_empty : Split "" "/" = [""].
Proof. reflexivity. Qed.

Example Split_long_sep : Split "a--b---c--" "--" = ["a"; "b"; "-c"; ""].
Proof. reflexivity. Qed.

Example ParseInt_5 : ParseInt "5" = (5, None).
Proof. reflexivity. Qed.

Example ParseInt_neg : ParseInt "-12" = (-12, None).
Proof. reflexivity. Qed.

Example ParseInt_word : ParseInt "profile" = (0, Some ErrSyntax).
Proof. reflexivity. Qed.

Example ParseInt_max : ParseInt "9223372036854775807" = (maxInt64, None).
Proof. reflexivity. Qed.

Example ParseInt_min : ParseInt "-9223372036854775808" = (minInt64, None).
Proof. reflexivity. Qed.

Example ParseInt_over : ParseInt "9223372036854775808" = (maxInt64, Some ErrRange).
Proof. reflexivity. Qed.

Example ParseInt_over_then_letter :
  ParseInt "99999999999999999999999x" = (maxInt64, Some ErrRange).
Proof. reflexivity. Qed.


(** ** Strings *)

Section strings_facts.
Implicit Types (s a b c : string) (x y : ascii).

Lemma str_app_nil_r s : s +:+ "" = s.
Proof. induction s as [|x s IH]; simpl; [done|]. by rewrite IH. Qed.

Lemma str_app_assoc a b c : (a +:+ b) +:+ c = a +:+ b +:+ c.
Proof. induction a as [|x a IH]; simpl; [done|]. by rewrite IH. Qed.

Lemma str_length_app a b :
  String.length (a +:+ b) = (String.length a + String.length b)%nat.
Proof. induction a as [|x a IH]; simpl; [done|]. by rewrite IH. Qed.

Lemma len_app a b : len (a +:+ b) = len a + len b.
Proof. unfold len. rewrite str_length_app. lia. Qed.

Lemma len_nonneg s : 0 <= len s.
Proof. unfold len. lia. Qed.


Lemma mapString_app f a b :
  mapString f (a +:+ b) = mapString f a +:+ mapString f b.
Proof. induction a as [|x a IH]; simpl; [done|]. by rewrite IH. Qed.

Lemma dropBytes_app a b : dropBytes (String.length a) (a +:+ b) = Some b.
Proof. induction a as [|x a IH]; simpl; [by destruct b|done]. Qed.

Lemma takeBytes_app a b : takeBytes (String.length a) (a +:+ b) = Some a.
Proof. induction a as [|x a IH]; simpl; [done|]. by rewrite IH. Qed.

Lemma sliceFrom_app a b i : i = len a -> sliceFrom (a +:+ b) i = Some b.
Proof.
  intros ->. unfold sliceFrom, len.
  destruct (Z.ltb_spec (Z.of_nat (String.length a)) 0); [lia|].
  rewrite Nat2Z.id. apply dropBytes_app.
Qed.

Lemma sliceTo_app a b j : j = len a -> sliceTo (a +:+ b) j = Some a.
Proof.
  intros ->. unfold sliceTo, len.
  destruct (Z.ltb_spec (Z.of_nat (String.length a)) 0); [lia|].
  rewrite Nat2Z.id. apply takeBytes_app.
Qed.

Lemma rev_app_app a b c :
  String.rev_app (a +:+ b) c = String.rev_app b (String.rev_app a c).
Proof. revert c. induction a as [|x a IH]; intros c; simpl; [done|]. apply IH. Qed.
End strings_facts.

(** ** Name conversion *)

Lemma convertNameLoop_snakeFrom name i buf :
  0 <= i ->
  ToLower (convertNameLoop i name buf)
  = ToLower buf +:+ snakeFrom (negb (0 <? i)) name.
Proof.
  revert i buf. induction name as [|v rest IH]; intros i buf Hi; simpl.
  - by rewrite str_app_nil_r.
  - rewrite IH by lia.
    replace (0 <? i + 1) with true by (symmetry; apply Z.ltb_lt; lia).
    unfold ToLower. rewrite mapString_app. simpl.
    rewrite negb_involutive.
    destruct (0 <? i), (isUpper v); simpl;
      rewrite ?mapString_app, ?str_app_assoc; done.
Qed.

Lemma convertName_snakeCase name : convertName name = snakeCase name.
Proof.
  unfold convertName, snakeCase.
  by rewrite convertNameLoop_snakeFrom by lia.
Qed.

Lemma isUpper_toLower c : isUpper c = true -> isLower (toLower c) = true.
Proof.
  unfold toLower. intros H. rewrite H. revert H.
  destruct c as [[] [] [] [] [] [] [] []]; vm_compute; congruence.
Qed.

Lemma isLetter_toLower c : isLetter c = true -> isLower (toLower c) = true.
Proof.
  unfold isLetter. intros [H|H]%orb_true_iff; [by apply isUpper_toLower|].
  destruct (isUpper c) eqn:E; [by apply isUpper_toLower|].
  unfold toLower. by rewrite E.
Qed.

Lemma isLetter_not_sep c : isLetter c = true -> c <> "_"%char.
Proof. intros H ->. vm_compute in H. congruence. Qed.

Lemma isLower_not_sep c : isLower c = true -> c <> "_"%char.
Proof. intros H ->. vm_compute in H. congruence. Qed.

Lemma removeByte_snakeFrom first name :
  lettersOnly name -> removeByte "_" (snakeFrom first name) = ToLower name.
Proof.
  unfold lettersOnly. revert first.
  induction name as [|c rest IH]; intros first H; simpl in *; [done|].
  apply andb_true_iff in H as [Hc Hrest].
  assert (toLower c <> "_"%char)
    by (apply isLower_not_sep, isLetter_toLower, Hc).
  destruct (negb first && isUpper c); simpl;
    (destruct (decide (toLower c = "_"%char)); [done|]);
    by rewrite IH.
Qed.

(** C6. For an identifier made of letters, [convertName] returns what the
    specification words: all characters in lower case, the separator in front
    of every upper-case letter but the first character and nowhere else
    (deleting the separators leaves the identifier in lower case).  Each
    upper-case letter of a run gets its own separator: [UsersID] becomes
    [users_i_d], not [users_id]. *)
Theorem convertName_letters name :
  lettersOnly name ->
  convertName name = snakeCase name
  /\ removeByte "_" (convertName name) = ToLower name
  /\ convertName "UsersID" = "users_i_d"
  /\ convertName "UsersID" <> "users_id".
Proof.
  intros H. rewrite convertName_snakeCase. repeat split.
  - by apply removeByte_snakeFrom.
  - discriminate.
Qed.

Lemma convertName_letters_witness :
  lettersOnly "ImageUrl"
  /\ convertName "ImageUrl" = snakeCase "ImageUrl"
  /\ removeByte "_" (convertName "ImageUrl") = ToLower "ImageUrl"
  /\ convertName "UsersID" = "users_i_d"
  /\ convertName "UsersID" <> "users_id".
Proof.
  split; [reflexivity|].
  apply (convertName_letters "ImageUrl"). reflexivity.
Defined.

(** ** Error model *)

Lemma doLog_line {T} `{error T} logger context now (err : T) stack :
  doLog logger context now err stack
  = Some (logLine context now (ReplaceAll (Error err) "010"%char ";") stack).
Proof. reflexivity. Qed.

Lemma stackField_logLine context now errStr :
  stackField (logLine context now errStr "-") = Some "-".
Proof.
  unfold logLine, stackField, String.rev.
  repeat (rewrite rev_app_app; simpl).
  reflexivity.
Qed.

(** C4, as the code has it.  A [RequestError] logged with a request error
    logger configured prints one line, whose fields are those of [logLine]
    and whose stack field is a dash, not the empty string. *)
Theorem RequestError_Log_stack context re now logger :
  RequestErrorLogger (Context.config context) = Some logger ->
  exists line,
    RequestError.Log re context now = Some [(logger, line)]
    /\ line = logLine context now
                (ReplaceAll (RequestError.Msg re) "010"%char ";") "-"
    /\ stackField line = Some "-".
Proof.
  intros Hlogger. eexists. unfold RequestError.Log.
  rewrite Hlogger, doLog_line. simpl.
  split; [reflexivity|]. split; [reflexivity|].
  apply stackField_logLine.
Qed.

Lemma RequestError_Log_stack_witness :
  exists line,
    RequestError.Log (NewRequestError "bad id") sampleContext
      "01/Nov/2026:10:00:00 +0000" = Some [(sampleLogger, line)]
    /\ line = logLine sampleContext "01/Nov/2026:10:00:00 +0000"
                (ReplaceAll "bad id" "010"%char ";") "-"
    /\ stackField line = Some "-".
Proof.
  apply (RequestError_Log_stack sampleContext (NewRequestError "bad id")
           "01/Nov/2026:10:00:00 +0000" sampleLogger).
  reflexivity.
Defined.

(** C4, as the claim words it, fails: the line logged for a sample request
    error has the stack field [-], so the field is not empty. *)
Lemma RequestError_Log_stack_not_empty :
  exists line,
    RequestError.Log (NewRequestError "bad id") sampleContext
      "01/Nov/2026:10:00:00 +0000" = Some [(sampleLogger, line)]
    /\ stackField line = Some "-"
    /\ stackField line <> Some "".
Proof.
  eexists. split; [reflexivity|]. split; [reflexivity|]. discriminate.
Qed.

(** C9. [NewInternalError] yields an error whose message is [InternalError]
    and whose status is the internal error status code, 500; a value that is
    not an error is wrapped as its printed form, an error value is kept. *)
Theorem NewInternalError_spec (v : Value) :
  Message (NewInternalError v) = "InternalError"
  /\ Status (NewInternalError v) = InternalErrorStatusCode
  /\ InternalErrorStatusCode = 500
  /\ match v with
     | VError e => InternalError.Err (NewInternalError v) = e
     | _ => InternalError.Err (NewInternalError v) = errors.New (Sprint v)
            /\ Error (NewInternalError v) = Sprint v
     end.
Proof. by destruct v. Qed.

Example NewInternalError_string :
  Error (NewInternalError (VString "boom")) = "boom"
  /\ Error (NewInternalError (VInt 42)) = "42"
  /\ Error (NewInternalError VNil) = "<nil>".
Proof. by vm_compute. Qed.

(** ** [strings.Split] and [strings.Join] for a separator of one byte *)

Section split_join.
Variable c : ascii.
Let sep : string := String c EmptyString.
Implicit Types (s a b : string) (l : list string).

Lemma Split_nil : Split "" sep = [""].
Proof. reflexivity. Qed.

Lemma Split_cons x s :
  Split (String x s) sep
  = if decide (x = c) then "" :: Split s sep else consHead x (Split s sep).
Proof.
  unfold Split, sep. simpl. destruct (decide (x = c)); [by destruct s|done].
Qed.

Lemma Split_not_nil s : Split s sep <> [].
Proof.
  induction s as [|x s IH]; [done|]. rewrite Split_cons.
  destruct (decide (x = c)); [done|]. by destruct (Split s sep).
Qed.

Lemma Split_length s : (1 <= length (Split s sep))%nat.
Proof. pose proof (Split_not_nil s). destruct (Split s sep); simpl; [done|lia]. Qed.

Lemma consHead_app x l1 l2 :
  l1 <> [] -> consHead x (l1 ++ l2) = consHead x l1 ++ l2.
Proof. by destruct l1. Qed.

Lemma Split_app_sep a b :
  Split (a +:+ String c b) sep = Split a sep ++ Split b sep.
Proof.
  induction a as [|x a IH].
  - simpl String.append. rewrite Split_cons. by destruct (decide (c = c)).
  - simpl String.append. rewrite !Split_cons, IH.
    destruct (decide (x = c)); [done|].
    apply consHead_app, Split_not_nil.
Qed.

Lemma Split_app_sep' a b :
  Split (a +:+ sep +:+ b) sep = Split a sep ++ Split b sep.
Proof. apply Split_app_sep. Qed.

Lemma Split_no_sep s : hasByte c s = false -> Split s sep = [s].
Proof.
  induction s as [|x s IH]; [done|]. simpl hasByte. rewrite Split_cons.
  destruct (decide (x = c)); [done|]. intros H. by rewrite IH.
Qed.

Lemma Split_elements s : Forall (fun w => hasByte c w = false) (Split s sep).
Proof.
  induction s as [|x s IH]; [by repeat constructor|]. rewrite Split_cons.
  destruct (decide (x = c)); [by constructor|].
  destruct IH as [|w ws Hw Hws]; simpl; constructor; try done.
  - simpl. by destruct (decide (x = c)).
  - simpl. by destruct (decide (x = c)).
Qed.

Lemma Join_cons x l : l <> [] -> Join (x :: l) sep = x +:+ sep +:+ Join l sep.
Proof. by destruct l. Qed.

Lemma Join_consHead x l : l <> [] -> Join (consHead x l) sep = String x (Join l sep).
Proof. destruct l as [|w [|w' l]]; done. Qed.

Lemma Join_Split s : Join (Split s sep) sep = s.
Proof.
  induction s as [|x s IH]; [done|]. rewrite Split_cons.
  destruct (decide (x = c)) as [->|].
  - rewrite Join_cons by apply Split_not_nil. by rewrite IH.
  - rewrite Join_consHead by apply Split_not_nil. by rewrite IH.
Qed.

Lemma Split_Join l :
  l <> [] -> Split (Join l sep) sep = concat ((fun w => Split w sep) <$> l).
Proof.
  induction l as [|w l IH]; [done|]. intros _.
  destruct l as [|w' l]; [simpl; by rewrite app_nil_r|].
  rewrite Join_cons by done. rewrite Split_app_sep', IH by done. done.
Qed.

Lemma Split_Join_words l :
  l <> [] -> Forall (fun w => hasByte c w = false) l ->
  Split (Join l sep) sep = l.
Proof.
  intros Hl Hws. rewrite Split_Join by done. clear Hl.
  induction Hws as [|w l Hw Hws IH]; [done|].
  rewrite fmap_cons. cbn [concat]. rewrite Split_no_sep by done.
  by rewrite IH.
Qed.

Lemma Join_snoc l x : l <> [] -> Join (l ++ [x]) sep = Join l sep +:+ sep +:+ x.
Proof.
  induction l as [|w l IH]; [done|]. intros _.
  destruct l as [|w' l]; [done|].
  change ((w :: w' :: l) ++ [x]) with (w :: ((w' :: l) ++ [x])).
  rewrite !Join_cons, IH by done. by rewrite ?str_app_assoc, ?str_app_nil_r.
Qed.

Lemma hasByte_app a b : hasByte c (a +:+ b) = hasByte c a || hasByte c b.
Proof.
  induction a as [|x a IH]; [done|]. simpl. by destruct (decide (x = c)).
Qed.
End split_join.

(** ** The key of a method *)

#[local] Arguments len : simpl never.
#[local] Arguments sliceFrom : simpl never.
#[local] Arguments sliceTo : simpl never.
#[local] Arguments oneOf : simpl never.
#[local] Arguments Join : simpl never.
#[local] Arguments ToUpper : simpl never.
#[local] Arguments convertName : simpl never.

Section method_key.
Let sep : string := WordSeparator.
Implicit Types (w : string) (ws words : list string).

Lemma Split_words s : exists w ws, Split s sep = w :: ws /\ s = Join (w :: ws) sep.
Proof.
  pose proof (Split_not_nil "_" s) as Hne.
  pose proof (Join_Split "_" s) as Hjoin.
  change (String "_" "") with sep in *.
  destruct (Split s sep) as [|w ws]; [done|]. by exists w, ws.
Qed.

Lemma Join_strip_id ws :
  ws <> [] ->
  sliceTo (Join (ws ++ ["id"]) sep) (len (Join (ws ++ ["id"]) sep) - 3)
  = Some (Join ws sep).
Proof.
  intros Hws. unfold sep, WordSeparator. rewrite Join_snoc by done.
  apply sliceTo_app. rewrite len_app. change (len ("_" +:+ "id")) with 3. lia.
Qed.

Lemma Join_strip_word w ws :
  ws <> [] ->
  sliceFrom (Join (w :: ws) sep) (len w + 1) = Some (Join ws sep).
Proof.
  intros Hws. unfold sep, WordSeparator. rewrite Join_cons by done.
  rewrite <- str_app_assoc. apply sliceFrom_app.
  rewrite len_app. by change (len "_") with 1.
Qed.

Lemma dropSlash (resPath methodName : string) :
  (if bool_decide (resPath = "") && bool_decide (0 < len methodName)
   then sliceFrom methodName 1 else Some methodName)
  = Some (if bool_decide (resPath = "") then dropFirst methodName else methodName).
Proof.
  destruct (bool_decide (resPath = "")); [|done]. simpl.
  destruct methodName as [|x t]; [done|].
  rewrite bool_decide_true by (unfold len; simpl; lia).
  by destruct t.
Qed.

Lemma last_snoc_id words :
  (2 <= length words)%nat ->
  words !! (length words - 1)%nat = Some "id" ->
  exists w ws, words = (w :: ws) ++ ["id"] /\ removelast words = w :: ws.
Proof.
  intros Hlen Hlast.
  destruct (exists_last (l := words)) as (init & x & ->).
  { intros ->. simpl in Hlen. lia. }
  rewrite length_app in Hlen, Hlast. simpl in Hlen, Hlast.
  replace (length init + 1 - 1)%nat with (length init + 0)%nat in Hlast by lia.
  rewrite lookup_app_r in Hlast by lia.
  replace (length init + 0 - length init)%nat with 0%nat in Hlast by lia.
  simpl in Hlast. injection Hlast as ->.
  destruct init as [|w ws]; [simpl in Hlen; lia|].
  exists w, ws. split; [done|]. by rewrite removelast_last.
Qed.

(** The key [NewRouter] computes for a method is the key of the
    specification with id-method detection; the computation never panics. *)
Lemma methodRoute_specRouteKey resPath isIdResource methodType :
  methodRoute resPath isIdResource methodType
  = Some (specRouteKey true resPath isIdResource (Name methodType)).
Proof.
  unfold methodRoute, specRouteKey, isIdMethodName.
  fold sep. fold httpVerbs.
  destruct (Split_words (convertName (Name methodType))) as (w0 & ws & Hsplit & Hjoin).
  rewrite Hsplit. cbn [lookup list_lookup mbind option_bind hd].
  rewrite last_lookup. cbn [Nat.pred length].
  replace (S (length ws) - 1)%nat with (length ws) by lia.
  set (hasVerb := oneOf w0 httpVerbs).
  set (minLen := if hasVerb then 3%nat else 2%nat).
  assert (2 <= minLen)%nat as HminLen by (unfold minLen; destruct hasVerb; lia).
  rewrite andb_true_l.
  destruct (negb isIdResource
            && bool_decide (minLen <= S (length ws))%nat
            && bool_decide ((w0 :: ws) !! length ws = Some "id")) eqn:HisId.
  - apply andb_true_iff in HisId as [[_ Hlen]%andb_true_iff Hlast].
    apply bool_decide_eq_true in Hlen, Hlast.
    destruct (last_snoc_id (w0 :: ws)) as (w & init & Hwords & Hinit).
    { simpl. lia. }
    { simpl. by replace (length ws - 0)%nat with (length ws) by lia. }
    rewrite Hinit. injection Hwords as <- Hws.
    rewrite Hjoin. change (w0 :: ws) with ([w0] ++ ws). rewrite Hws.
    change ([w0] ++ init ++ ["id"]) with ((w0 :: init) ++ ["id"]).
    rewrite Join_strip_id by done. cbn [mbind option_bind].
    destruct hasVerb eqn:Hverb; cbn [mbind option_bind tail].
    + assert (init <> []) as Hinit'.
      { intros ->. subst ws. simpl in Hlen. unfold minLen in Hlen. lia. }
      rewrite (bool_decide_true (1 < S (length (init ++ ["id"])))%nat)
        by (rewrite length_app; simpl; lia).
      rewrite Join_strip_word by done. cbn [mbind option_bind].
      rewrite dropSlash. cbn [mbind option_bind].
      unfold routePath. destruct init as [|w1 init]; [done|].
      by rewrite ?str_app_assoc, ?str_app_nil_r.
    + rewrite dropSlash. cbn [mbind option_bind].
      unfold routePath. by rewrite ?str_app_assoc, ?str_app_nil_r.
  - clear HisId. cbn [mbind option_bind].
    destruct hasVerb eqn:Hverb; cbn [mbind option_bind tail].
    + destruct ws as [|w1 ws].
      * rewrite (bool_decide_false (1 < S (length (@nil string)))%nat)
          by (simpl; lia).
        cbn [mbind option_bind].
        rewrite dropSlash. cbn [mbind option_bind].
        unfold routePath. by rewrite ?str_app_assoc, ?str_app_nil_r.
      * rewrite (bool_decide_true (1 < S (length (w1 :: ws)))%nat)
          by (simpl; lia).
        rewrite Hjoin, Join_strip_word by done. cbn [mbind option_bind].
        rewrite dropSlash. cbn [mbind option_bind].
        unfold routePath. by rewrite ?str_app_assoc, ?str_app_nil_r.
    + rewrite dropSlash. cbn [mbind option_bind].
      unfold routePath. rewrite Hjoin. by rewrite ?str_app_assoc, ?str_app_nil_r.
Qed.
End method_key.

(** C7, as the code has it.  The key of a method is: the first word of the
    converted name in upper case when it is one of [post], [get], [put],
    [delete], and then that word is not part of the path portion (which is
    empty when it was the only word); [GET] and all words otherwise.  Before
    that, id-method detection takes a last word [id] off the name and puts
    the id placeholder behind the path portion; for a method that is not an
    id method the key is the one of verb detection alone.  Method [PostBar]
    of resource [Baz] is stored under [POST /baz/bar]. *)
Theorem verb_detection resPath isIdResource methodType :
  validateMethod methodType = Some true ->
  let words := Split (convertName (Name methodType)) WordSeparator in
  let hasVerb := oneOf (hd "" words) httpVerbs in
  methodRoute resPath isIdResource methodType
  = Some (specRouteKey true resPath isIdResource (Name methodType))
  /\ (isIdMethodName isIdResource hasVerb words = false ->
      methodRoute resPath isIdResource methodType
      = Some (specRouteKey false resPath isIdResource (Name methodType)))
  /\ (hasVerb = true ->
      ToUpper (hd "" words) ∈ ["POST"; "GET"; "PUT"; "DELETE"])
  /\ routeOf Baz (contextMethod "PostBar") = Some "POST /baz/bar".
Proof.
  intros _ words hasVerb. rewrite methodRoute_specRouteKey.
  split; [done|]. split; [|split; [|reflexivity]].
  - intros HnoId. unfold specRouteKey. fold words. fold hasVerb.
    by rewrite HnoId.
  - unfold hasVerb, oneOf, httpVerbs. intros Hverb%bool_decide_eq_true.
    set_unfold. destruct Hverb as [->|[->|[->|[->|[]]]]]; vm_compute; tauto.
Qed.

Lemma verb_detection_witness :
  validateMethod (contextMethod "PostBar") = Some true
  /\ methodRoute "baz" false (contextMethod "PostBar")
     = Some (specRouteKey true "baz" false "PostBar")
  /\ specRouteKey true "baz" false "PostBar" = "POST /baz/bar".
Proof.
  split; [reflexivity|]. split; [|reflexivity].
  apply (verb_detection "baz" false (contextMethod "PostBar")). reflexivity.
Defined.

(** C7, as the claim words it, fails on an id method: [FooId] of [Baz] has a
    first word that is no verb, and its key is [GET /baz/foo/:id], not the
    [GET /baz/foo_id] that the whole converted name would give. *)
Lemma verb_detection_id_method :
  validateMethod (contextMethod "FooId") = Some true
  /\ oneOf (hd "" (Split (convertName "FooId") WordSeparator)) httpVerbs = false
  /\ methodRoute "baz" false (contextMethod "FooId") = Some "GET /baz/foo/:id"
  /\ "GET /" +:+ "baz" +:+ "/" +:+ convertName "FooId" = "GET /baz/foo_id"
  /\ methodRoute "baz" false (contextMethod "FooId")
     <> Some (specRouteKey false "baz" false "FooId").
Proof. repeat split; try reflexivity. discriminate. Qed.

(** ** The path of a resource *)

Lemma split_bytes (n : nat) (s : string) :
  (n <= String.length s)%nat ->
  exists a b, s = a +:+ b /\ String.length a = n
              /\ takeBytes n s = Some a /\ dropBytes n s = Some b.
Proof.
  revert s. induction n as [|n IH]; intros s Hn.
  - exists "", s. by destruct s.
  - destruct s as [|x s]; [simpl in Hn; lia|].
    destruct (IH s) as (a & b & -> & Hlen & Htake & Hdrop); [simpl in Hn; lia|].
    exists (String x a), b. simpl. rewrite Htake, Hdrop, Hlen. done.
Qed.

Lemma slice_at (s : string) (i : Z) :
  0 <= i <= len s ->
  exists a b, s = a +:+ b /\ len a = i
              /\ sliceTo s i = Some a /\ sliceFrom s i = Some b.
Proof.
  intros Hi. destruct (split_bytes (Z.to_nat i) s) as (a & b & ? & ? & ? & ?).
  { unfold len in Hi. lia. }
  exists a, b. unfold sliceTo, sliceFrom, len.
  destruct (Z.ltb_spec i 0); [lia|]. repeat split; try done. lia.
Qed.

Lemma len_3_id : len "_id" = 3.
Proof. reflexivity. Qed.

Lemma str_app_inv_len (a b a' b' : string) :
  a +:+ b = a' +:+ b' -> len b = len b' -> a = a' /\ b = b'.
Proof.
  revert a'. induction a as [|x a IH]; intros [|x' a'] Heq Hlen; simpl in Heq.
  - done.
  - subst b. unfold len in Hlen. simpl in Hlen.
    rewrite str_length_app in Hlen. lia.
  - subst b'. unfold len in Hlen. simpl in Hlen.
    rewrite str_length_app in Hlen. lia.
  - injection Heq as -> Heq. destruct (IH _ Heq Hlen) as [-> ->]. done.
Qed.

(** The two cases of [resourcePath]: an id resource, whose converted name is
    a stem that is not empty followed by [_id], and any other resource. *)
Lemma resourcePath_cases (v : Resource) :
  let t := convertName (typeName v) in
  (exists stem, t = stem +:+ "_id" /\ stem <> ""
     /\ forall gaps, resourcePath v gaps = Some (stem +:+ "/:id", true, gaps))
  \/ ((forall stem, stem <> "" -> t <> stem +:+ "_id")
      /\ forall gaps,
          resourcePath v gaps
          = Some (match Gap v with Some gap => t +:+ "/" +:+ gap | None => t end,
                  false,
                  match Gap v with
                  | Some gap => <[t := Split gap "/"]> gaps
                  | None => gaps
                  end)).
Proof.
  intros t. unfold resourcePath. fold t.
  destruct (bool_decide (3 < len t)) eqn:Hlen.
  - apply bool_decide_eq_true in Hlen.
    destruct (slice_at t (len t - 3)) as (a & b & Ht & Ha & Hto & Hfrom).
    { pose proof (len_nonneg t). lia. }
    rewrite Hfrom, Hto. cbn [mbind option_bind].
    destruct (bool_decide (b = "_id")) eqn:Hb.
    + apply bool_decide_eq_true in Hb. subst b. left. exists a.
      repeat split; try done. intros ->. rewrite Ht in Hlen.
      rewrite len_app, len_3_id in Hlen. change (len "") with 0 in Hlen. lia.
    + apply bool_decide_eq_false in Hb. right.
      split; [|intros gaps; by destruct (Gap v)].
      intros stem _ Hstem. apply Hb.
      rewrite Ht in Hstem. apply str_app_inv_len in Hstem; [by destruct Hstem|].
      rewrite len_3_id. rewrite Ht, len_app in Ha. lia.
  - apply bool_decide_eq_false in Hlen. right.
    split; [|intros gaps; by destruct (Gap v)].
    intros stem Hne Hstem. apply Hlen. rewrite Hstem, len_app, len_3_id.
    destruct stem; [done|]. unfold len. simpl. lia.
Qed.

(** The path and the kind of a resource do not depend on the gaps map. *)
Lemma resourcePath_total (v : Resource) :
  exists resPath isIdResource,
    forall gaps, exists gaps',
      resourcePath v gaps = Some (resPath, isIdResource, gaps').
Proof.
  destruct (resourcePath_cases v) as [(stem & _ & _ & H)|[_ H]];
    do 2 eexists; intros gaps; eexists; apply H.
Qed.

Lemma snakeFrom_app first a b :
  a <> "" -> snakeFrom first (a +:+ b) = snakeFrom first a +:+ snakeFrom false b.
Proof.
  revert first. induction a as [|x a IH]; intros first Ha; [done|].
  simpl. destruct a as [|y a].
  - simpl. by rewrite !str_app_assoc.
  - rewrite IH by done. by rewrite !str_app_assoc.
Qed.

Lemma snakeFrom_not_empty first a : a <> "" -> snakeFrom first a <> "".
Proof.
  destruct a as [|x a]; [done|]. intros _. simpl.
  by destruct (negb first && isUpper x).
Qed.

Lemma convertName_Id (X : string) :
  X <> "" -> convertName (X +:+ "Id") = convertName X +:+ "_id".
Proof.
  intros HX. rewrite !convertName_snakeCase. unfold snakeCase.
  by rewrite snakeFrom_app.
Qed.

(** A type name made of a prefix that is not empty and [Id] names an id
    resource, whose path is the converted prefix and the id placeholder. *)
Lemma resourcePath_Id (v : Resource) (X : string) gaps :
  typeName v = X +:+ "Id" -> X <> "" ->
  resourcePath v gaps = Some (convertName X +:+ "/:id", true, gaps).
Proof.
  intros Hname HX.
  destruct (resourcePath_cases v) as [(stem & Hstem & _ & ->)|[Hno _]].
  - rewrite Hname, convertName_Id in Hstem by done.
    apply str_app_inv_len in Hstem as [-> _]; done.
  - exfalso. apply (Hno (convertName X)).
    + rewrite convertName_snakeCase. by apply snakeFrom_not_empty.
    + rewrite Hname. by apply convertName_Id.
Qed.

Lemma str_app_not_empty_r (a b : string) : b <> "" -> a +:+ b <> "".
Proof. destruct a; [done|]. simpl. done. Qed.

(** C5, as the code has it.  A resource whose type name is a prefix that is
    not empty followed by [Id] stores its method [Foo] under
    [GET /<converted prefix>/:id/foo]; [UsersId] stores [ImageUrl] under
    [GET /users/:id/image_url], and the request [GET users/5/image_url]
    resolves to that key with id 5. *)
Theorem id_resource_route (v : Resource) (X : string) (methodType : Method) :
  typeName v = X +:+ "Id" ->
  X <> "" ->
  Name methodType = "Foo" ->
  validateMethod methodType = Some true ->
  routeOf v methodType = Some ("GET /" +:+ convertName X +:+ "/:id" +:+ "/foo")
  /\ exists r,
       NewRouter [UsersId] = Some r
       /\ methodMap r !! "GET /users/:id/image_url" = Some (UsersId, 0%nat)
       /\ resolvePath r "GET" "users/5/image_url"
          = ("GET /users/:id/image_url", 5, ["users"; "5"; "image_url"], None).
Proof.
  intros Hname HX Hfoo Hvalid. split.
  - unfold routeOf. rewrite (resourcePath_Id v X) by done. rewrite Hvalid.
    rewrite methodRoute_specRouteKey, Hfoo. f_equal.
    unfold specRouteKey.
    change (Split (convertName "Foo") WordSeparator) with ["foo"].
    cbn [hd]. change (oneOf "foo" httpVerbs) with false.
    cbn [andb negb removelast]. unfold routePath.
    rewrite bool_decide_false by by apply str_app_not_empty_r.
    by rewrite ?str_app_assoc.
  - eexists. split; [reflexivity|]. split; reflexivity.
Qed.

Lemma id_resource_route_witness :
  routeOf UsersId (contextMethod "Foo")
  = Some ("GET /" +:+ convertName "Users" +:+ "/:id" +:+ "/foo")
  /\ "GET /" +:+ convertName "Users" +:+ "/:id" +:+ "/foo" = "GET /users/:id/foo".
Proof.
  split; [|reflexivity].
  apply (id_resource_route UsersId "Users" (contextMethod "Foo"));
    (reflexivity || discriminate).
Defined.

(** C5, as the claim words it, fails for the type name [Id]: it ends in
    [Id], but its converted name [id] is too short for an id resource, and
    [Foo] is stored under [GET /id/foo]. *)
Lemma id_resource_route_Id :
  typeName Id_ = "" +:+ "Id"
  /\ validateMethod (contextMethod "Foo") = Some true
  /\ routeOf Id_ (contextMethod "Foo") = Some "GET /id/foo"
  /\ routeOf Id_ (contextMethod "Foo")
     <> Some ("GET /" +:+ convertName "" +:+ "/:id" +:+ "/foo").
Proof. repeat split; try reflexivity. discriminate. Qed.

(** ** Scenarios *)

(** C3, as the code has it.  Resource [Users] with gap [profile] stores its
    method [Get_Name] under [GET /users/profile/_name]: the underscore of the
    name stays in the word behind the verb.  The request
    [GET users/profile/_name] resolves to that key with id 0.  The request
    [GET users/profile/name] resolves with id 0 to [GET /users/profile/name],
    which is the key of a method named [GetName]. *)
Theorem gap_scenario :
  exists r r',
    NewRouter [UsersProfile] = Some r
    /\ map_to_list (methodMap r)
       = [("GET /users/profile/_name", (UsersProfile, 1%nat))]
    /\ gapsMap r !! "users" = Some ["profile"]
    /\ resolvePath r "GET" "users/profile/_name"
       = ("GET /users/profile/_name", 0,
          ["users"; "profile"; "_name"], Some ["profile"])
    /\ resolvePath r "GET" "users/profile/name"
       = ("GET /users/profile/name", 0,
          ["users"; "profile"; "name"], Some ["profile"])
    /\ NewRouter [UsersProfile'] = Some r'
    /\ map_to_list (methodMap r')
       = [("GET /users/profile/name", (UsersProfile', 1%nat))]
    /\ resolvePath r' "GET" "users/profile/name"
       = ("GET /users/profile/name", 0,
          ["users"; "profile"; "name"], Some ["profile"]).
Proof.
  do 2 eexists. split; [reflexivity|]. repeat split; by vm_compute.
Qed.

(** C3, as the claim words it, fails: with the method [Get_Name] no handler
    is stored under [GET /users/profile/name]. *)
Lemma gap_scenario_Get_Name :
  exists r,
    NewRouter [UsersProfile] = Some r
    /\ routeOf UsersProfile (contextMethod "Get_Name")
       = Some "GET /users/profile/_name"
    /\ methodMap r !! "GET /users/profile/name" = None
    /\ routeKey (resolvePath r "GET" "users/profile/name")
       = "GET /users/profile/name".
Proof. eexists. split; [reflexivity|]. repeat split; by vm_compute. Qed.

(** ** The verb of a resolved key *)

Ltac case_resolvePath :=
  repeat match goal with
    | |- context [ParseInt ?s] =>
        let id := fresh "id" in
        let err := fresh "err" in
        let H := fresh "Hparse" in
        destruct (ParseInt s) as [id [err|]] eqn:H
    | |- context [gapsMap ?r !! ?k] =>
        let g := fresh "gaps" in
        let H := fresh "Hgaps" in
        destruct (gapsMap r !! k) as [g|] eqn:H; cbn [default from_option]
    | |- context [if ?b && ?c then _ else _] =>
        let H := fresh "Hcond" in
        destruct (b && c) eqn:H
    end.

(** The key starts with the verb the resolver chose: the method itself when
    it is one of [POST], [DETETE], [PUT], and [GET] otherwise. *)
Lemma resolvePath_verb (r : Router) (method rawPath : string) :
  exists rest,
    routeKey (resolvePath r method rawPath)
    = (if oneOf method ["POST"; "DETETE"; "PUT"] then method else "GET")
      +:+ " /" +:+ rest.
Proof.
  unfold resolvePath.
  set (httpMethod := if oneOf method _ then method else "GET").
  case_resolvePath; unfold routeKey; cbn [fst];
    eexists; rewrite ?str_app_assoc; reflexivity.
Qed.

(** C2 fails on the code: the resolver compares the method with [DETETE],
    so the key of every [DELETE] request has the verb [GET]; [POST] and
    [PUT] keep their verb. *)
Theorem resolvePath_DELETE (r : Router) (rawPath : string) :
  (exists rest, routeKey (resolvePath r "DELETE" rawPath) = "GET /" +:+ rest)
  /\ (exists rest, routeKey (resolvePath r "POST" rawPath) = "POST /" +:+ rest)
  /\ (exists rest, routeKey (resolvePath r "PUT" rawPath) = "PUT /" +:+ rest)
  /\ resolvePath emptyRouter "DELETE" "users/image_url"
     = ("GET /users/image_url", 0, ["users"; "image_url"], None).
Proof.
  split; [|split; [|split; [|reflexivity]]].
  - destruct (resolvePath_verb r "DELETE" rawPath) as [rest Hrest].
    exists rest. by rewrite Hrest.
  - destruct (resolvePath_verb r "POST" rawPath) as [rest Hrest].
    exists rest. by rewrite Hrest.
  - destruct (resolvePath_verb r "PUT" rawPath) as [rest Hrest].
    exists rest. by rewrite Hrest.
Qed.

(** ** The route table as a sequence of registrations *)

Lemma validateMethod_named (methodType : Method) :
  Name methodType <> "" -> exists ok, validateMethod methodType = Some ok.
Proof.
  intros Hname. unfold validateMethod, byteAt.
  destruct (Name methodType) as [|x name]; [done|]. cbn [String.get mbind option_bind].
  destruct (_ || _); [by eexists|].
  destruct (bool_decide (NumIn _ = 2%nat)) eqn:Hin; [|by eexists].
  destruct (bool_decide (NumOut _ = 0%nat)); [|by eexists].
  apply bool_decide_eq_true in Hin. unfold NumIn, In_ in *.
  destruct (ins (Type_ methodType)) as [|t0 [|t1 ts]]; try done.
  cbn [lookup list_lookup mbind option_bind negb].
  destruct (bool_decide (t1 = contextType)); by eexists.
Qed.

Lemma routeOf_resourcePath v resPath isIdResource gaps gaps' methodType :
  resourcePath v gaps = Some (resPath, isIdResource, gaps') ->
  routeOf v methodType
  = match validateMethod methodType with
    | Some true => methodRoute resPath isIdResource methodType
    | _ => None
    end.
Proof.
  intros Hpath. unfold routeOf.
  destruct (resourcePath_total v) as (p & b & Htotal).
  destruct (Htotal gaps) as [g Hg]. destruct (Htotal ∅) as [g0 Hg0].
  rewrite Hg0. rewrite Hg in Hpath. by injection Hpath as -> -> _.
Qed.

Lemma storeAll_app table regs1 regs2 :
  storeAll table (regs1 ++ regs2) = storeAll (storeAll table regs1) regs2.
Proof. apply foldl_app. Qed.

Lemma registerMethods_storeAll v resPath isIdResource gaps gaps' i methods table :
  resourcePath v gaps = Some (resPath, isIdResource, gaps') ->
  Forall (fun methodType => Name methodType <> "") methods ->
  registerMethods v resPath isIdResource i methods table
  = Some (storeAll table (registrationsFrom v i methods)).
Proof.
  intros Hpath Hnamed. revert i table.
  induction Hnamed as [|methodType methods Hname _ IH]; intros i table; [done|].
  cbn [registerMethods registrationsFrom].
  rewrite (routeOf_resourcePath _ _ _ _ _ _ Hpath).
  destruct (validateMethod_named _ Hname) as [ok ->].
  cbn [mbind option_bind]. destruct ok; cbn [negb]; [|apply IH].
  rewrite methodRoute_specRouteKey. cbn [mbind option_bind].
  rewrite IH. by rewrite storeAll_app.
Qed.

Lemma registerResource_spec router v :
  namedMethods v ->
  exists resPath isIdResource gaps',
    resourcePath v (gapsMap router) = Some (resPath, isIdResource, gaps')
    /\ registerResource router v
       = Some {| methodMap := storeAll (methodMap router)
                                (registrationsFrom v 0 (methodSet v));
                 gapsMap := gaps';
                 config := config router |}.
Proof.
  intros Hnamed. destruct (resourcePath_total v) as (p & b & Htotal).
  destruct (Htotal (gapsMap router)) as [g Hg].
  exists p, b, g. split; [done|].
  unfold registerResource. rewrite Hg. cbn [mbind option_bind].
  by rewrite (registerMethods_storeAll _ _ _ _ _ _ _ _ Hg Hnamed).
Qed.

Lemma registerResources_storeAll router resources :
  Forall namedMethods resources ->
  exists router',
    registerResources router resources = Some router'
    /\ methodMap router' = storeAll (methodMap router) (registrations resources).
Proof.
  intros Hnamed. revert router.
  induction Hnamed as [|v resources Hv _ IH]; intros router.
  - by exists router.
  - destruct (registerResource_spec router v Hv) as (p & b & g & _ & Hreg).
    cbn [registerResources]. rewrite Hreg. cbn [mbind option_bind].
    destruct (IH {| methodMap := storeAll (methodMap router)
                                   (registrationsFrom v 0 (methodSet v));
                    gapsMap := g; config := config router |})
      as (router' & -> & Hmap).
    exists router'. split; [done|]. rewrite Hmap. cbn [methodMap].
    unfold registrations. rewrite bind_cons. by rewrite storeAll_app.
Qed.

Lemma lastRegistration_snoc key regs k h :
  lastRegistration key (regs ++ [(k, h)])
  = if decide (k = key) then Some h else lastRegistration key regs.
Proof.
  unfold lastRegistration. rewrite filter_app, filter_cons, filter_nil.
  cbn [fst]. destruct (decide (k = key)).
  - by rewrite last_snoc.
  - by rewrite app_nil_r.
Qed.

Lemma storeAll_lookup table regs key :
  storeAll table regs !! key
  = match lastRegistration key regs with
    | Some h => Some h
    | None => table !! key
    end.
Proof.
  induction regs as [|[k h] regs IH] using rev_ind; [done|].
  rewrite storeAll_app, lastRegistration_snoc. cbn [storeAll foldl fst snd].
  destruct (decide (k = key)) as [->|Hne].
  - by rewrite lookup_insert_eq.
  - by rewrite lookup_insert_ne.
Qed.

Lemma lastRegistration_last key regs1 h regs2 :
  (forall h', (key, h') ∉ regs2) ->
  lastRegistration key (regs1 ++ (key, h) :: regs2) = Some h.
Proof.
  induction regs2 as [|[k h'] regs2 IH] using rev_ind; intros Hlater.
  - rewrite lastRegistration_snoc. by destruct (decide (key = key)).
  - change (regs1 ++ (key, h) :: regs2 ++ [(k, h')])
      with (regs1 ++ ((key, h) :: regs2) ++ [(k, h')]).
    rewrite app_assoc, lastRegistration_snoc.
    destruct (decide (k = key)) as [->|_].
    + exfalso. apply (Hlater h'). set_solver.
    + apply IH. intros h'' Hin. apply (Hlater h''). set_solver.
Qed.

(** C8.  [NewRouter] raises no error, and its table holds under every key
    the handler of the last registration made under that key and nothing
    else: a later registration replaces an earlier one of the same key, and
    a registration changes the entry of no other key. *)
Theorem duplicate_registration (resources : list Resource) :
  Forall namedMethods resources ->
  exists r,
    NewRouter resources = Some r
    /\ (forall key, methodMap r !! key
                    = lastRegistration key (registrations resources))
    /\ (forall key regs1 h regs2,
          registrations resources = regs1 ++ (key, h) :: regs2 ->
          (forall h', (key, h') ∉ regs2) ->
          methodMap r !! key = Some h).
Proof.
  intros Hnamed.
  destruct (registerResources_storeAll emptyRouter resources Hnamed)
    as (r & Hr & Hmap).
  exists r. split; [done|].
  assert (forall key, methodMap r !! key
                      = lastRegistration key (registrations resources)) as Hkeys.
  { intros key. rewrite Hmap, storeAll_lookup. cbn [methodMap emptyRouter].
    rewrite lookup_empty. by destruct (lastRegistration _ _). }
  split; [done|].
  intros key regs1 h regs2 Hregs Hlater.
  rewrite Hkeys, Hregs. by apply lastRegistration_last.
Qed.

Lemma duplicate_registration_witness :
  Forall namedMethods [Users2; Users]
  /\ registrations [Users2; Users]
     = [("GET /users/image_url", (Users2, 0%nat));
        ("GET /users/image_url", (Users, 0%nat))]
  /\ exists r,
       NewRouter [Users2; Users] = Some r
       /\ methodMap r !! "GET /users/image_url" = Some (Users, 0%nat).
Proof.
  assert (Forall namedMethods [Users2; Users]) as Hnamed.
  { repeat constructor; discriminate. }
  split; [exact Hnamed|]. split; [reflexivity|].
  destruct (duplicate_registration [Users2; Users] Hnamed) as (r & Hr & Hkeys & _).
  exists r. split; [exact Hr|]. rewrite Hkeys. reflexivity.
Defined.

(** ** The id placeholder of a resolved key *)

Lemma ParseInt_syntax (s : string) (id : Z) :
  ParseInt s = (id, Some ErrSyntax) -> id = 0.
Proof.
  unfold ParseInt. destruct s as [|c s]; [by intros [= <-]|].
  destruct (if decide (c = "+"%char) then _ else _) as [neg s1].
  destruct (ParseUint s1) as [un [[]|]];
    repeat (match goal with |- context [if ?b then _ else _] => destruct b end);
    by intros [= <-].
Qed.

Lemma ParseInt_no_range (s : string) (id : Z) (e : NumError) :
  (ParseInt s).2 <> Some ErrRange -> ParseInt s = (id, Some e) -> id = 0.
Proof.
  intros Hrange Hparse. rewrite Hparse in Hrange. destruct e; [|done].
  by apply ParseInt_syntax in Hparse.
Qed.

Section id_segments.
Implicit Types (a b s key : string).

Lemma idSegments_app_sep a b :
  idSegments (a +:+ String "/" b) = (idSegments a + idSegments b)%nat.
Proof.
  unfold idSegments. by rewrite Split_app_sep, filter_app, length_app.
Qed.

Lemma idSegments_segment s :
  hasByte "/" s = false -> s <> ":id" -> idSegments s = 0%nat.
Proof.
  intros Hs Hne. unfold idSegments. rewrite Split_no_sep by done.
  rewrite filter_cons. by destruct (decide (s = ":id")).
Qed.

Lemma idSegments_none s : ":id" ∉ Split s "/" -> idSegments s = 0%nat.
Proof.
  intros Hnot. unfold idSegments.
  induction (Split s "/") as [|x l IH]; [done|].
  rewrite filter_cons. destruct (decide (x = ":id")) as [->|_].
  - exfalso. apply Hnot. set_solver.
  - apply IH. set_solver.
Qed.

Lemma idSegments_pos key : (0 < idSegments key)%nat -> ":id" ∈ Split key "/".
Proof.
  intros Hpos. destruct (decide (":id" ∈ Split key "/")) as [|Hnot]; [done|].
  rewrite idSegments_none in Hpos by done. lia.
Qed.

Lemma verb_no_slash method :
  hasByte "/" ((if oneOf method ["POST"; "DETETE"; "PUT"] then method else "GET")
               +:+ " ") = false.
Proof.
  unfold oneOf. case_bool_decide as Hverb; [|reflexivity].
  set_unfold. destruct Hverb as [->|[->|[->|[]]]]; reflexivity.
Qed.

Lemma idSegments_verb method s :
  hasByte "/" s = false -> s <> ":id" ->
  idSegments ((if oneOf method ["POST"; "DETETE"; "PUT"] then method else "GET")
              +:+ String " " (String "/" s)) = 0%nat.
Proof.
  intros Hs Hne.
  set (h := if oneOf method _ then method else "GET").
  change (h +:+ String " " (String "/" s)) with (h +:+ " " +:+ String "/" s).
  rewrite <- str_app_assoc, idSegments_app_sep.
  rewrite (idSegments_segment s) by done.
  rewrite idSegments_segment; [done|apply verb_no_slash|].
  intros Heq. assert (hasByte " " (h +:+ " ") = true) as Hsp.
  { rewrite hasByte_app. by rewrite orb_true_r. }
  by rewrite Heq in Hsp.
Qed.
End id_segments.

Lemma lookup_total_segment (segments : list string) (i : nat) :
  (i < length segments)%nat -> segments !!! i ∈ segments.
Proof.
  intros Hi. destruct (lookup_lt_is_Some_2 segments i Hi) as [s Hs].
  rewrite (list_lookup_total_correct _ _ _ Hs).
  by eapply list_elem_of_lookup_2.
Qed.

Section resolve_id.
Variables (r : Router) (method rawPath : string).
Let segments : list string := Split rawPath "/".
Let res := resolvePath r method rawPath.

Lemma segments_no_slash (i : nat) :
  (i < length segments)%nat -> hasByte "/" (segments !!! i) = false.
Proof.
  intros Hi. pose proof (Split_elements "/" rawPath) as Hall.
  rewrite Forall_forall in Hall. apply Hall.
  by apply lookup_total_segment.
Qed.

Lemma segments_length : (0 < length segments)%nat.
Proof. pose proof (Split_length "/" rawPath). unfold segments. lia. Qed.

Lemma resolvePath_id_key :
  (forall s, s ∈ segments -> (ParseInt s).2 <> Some ErrRange) ->
  routeId res <> 0 -> (0 < idSegments (routeKey res))%nat.
Proof.
  intros Hrange. unfold res, resolvePath. fold segments.
  set (path0 := _ +:+ " /" +:+ segments !!! 0%nat).
  destruct (ParseInt (if bool_decide _ then _ else _)) as [id1 [e1|]] eqn:Hparse1.
  - assert (id1 = 0) as ->.
    { revert Hparse1. case_bool_decide as Hlen.
      - intros Hparse1. eapply ParseInt_no_range; [|exact Hparse1].
        apply Hrange, lookup_total_segment. lia.
      - by intros [= <- _]. }
    clear Hparse1.
    destruct (gapsMap r !! (segments !!! 0%nat)) as [g|];
      cbn [default from_option].
    all: repeat match goal with
           | |- context [if bool_decide (?i < length segments)%nat && ?c
                         then _ else _] =>
               let H := fresh "Hcond" in
               destruct (bool_decide (i < length segments)%nat && c) eqn:H
           end.
    all: try (unfold routeId; cbn [fst snd]; done).
    all: match goal with
         | H : bool_decide (?i < length segments)%nat && _ = true
           |- context [ParseInt (segments !!! ?i)] =>
             apply andb_true_iff in H as [H%bool_decide_eq_true _];
             destruct (ParseInt (segments !!! i)) as [id2 [e2|]] eqn:Hparse2
         end.
    all: try (apply ParseInt_no_range in Hparse2 as ->;
              [unfold routeId; cbn [fst snd]; done
              |by apply Hrange, lookup_total_segment]).
    all: intros _; unfold routeKey; cbn [fst];
      change "/:id" with (String "/" ":id");
      rewrite idSegments_app_sep; change (idSegments ":id") with 1%nat; lia.
  - intros _. unfold routeKey.
    destruct (bool_decide (2 < length segments)%nat && _); cbn [fst].
    + cbn [String.append]. rewrite !idSegments_app_sep.
      change (idSegments ":id") with 1%nat. lia.
    + rewrite idSegments_app_sep. change (idSegments ":id") with 1%nat. lia.
Qed.
Lemma resolvePath_id_once :
  ":id" ∉ segments ->
  (forall g, gapsMap r !! (segments !!! 0%nat) = Some g ->
             ":id" ∉ Split (Join g "/") "/") ->
  (idSegments (routeKey res) <= 1)%nat.
Proof.
  intros Hraw Hgaps.
  assert (forall i, (i < length segments)%nat ->
                    idSegments (segments !!! i) = 0%nat) as Hseg.
  { intros i Hi. apply idSegments_segment; [by apply segments_no_slash|].
    intros Heq. apply Hraw. rewrite <- Heq. by apply lookup_total_segment. }
  assert (idSegments
            ((if oneOf method ["POST"; "DETETE"; "PUT"] then method else "GET")
             +:+ " /" +:+ segments !!! 0%nat) = 0%nat) as Hpath0.
  { cbn [String.append]. apply idSegments_verb.
    - apply segments_no_slash, segments_length.
    - intros Heq. apply Hraw. rewrite <- Heq.
      apply lookup_total_segment, segments_length. }
  unfold res, resolvePath. fold segments.
  set (path0 := _ +:+ " /" +:+ segments !!! 0%nat) in *.
  destruct (ParseInt (if bool_decide _ then _ else _)) as [id1 [e1|]].
  - destruct (gapsMap r !! (segments !!! 0%nat)) as [g|] eqn:Hg;
      cbn [default from_option].
    all: repeat match goal with
           | |- context [if bool_decide (?i < length segments)%nat && ?c
                         then _ else _] =>
               let H := fresh "Hcond" in
               destruct (bool_decide (i < length segments)%nat && c) eqn:H;
               [apply andb_true_iff in H as [H%bool_decide_eq_true _]|clear H]
           | |- context [ParseInt ?s] =>
               destruct (ParseInt s) as [? [?|]]
           end.
    all: unfold routeKey; cbn [fst];
      change "/:id" with (String "/" ":id"); cbn [String.append];
      rewrite ?idSegments_app_sep, ?Hseg, ?Hpath0 by done;
      change (idSegments ":id") with 1%nat;
      rewrite ?(idSegments_none (Join g "/")) by (by apply Hgaps);
      lia.
  - unfold routeKey.
    destruct (bool_decide (2 < length segments)%nat && _) eqn:Hcond; cbn [fst].
    + apply andb_true_iff in Hcond as [Hcond%bool_decide_eq_true _].
      cbn [String.append]. rewrite !idSegments_app_sep, Hseg, Hpath0 by done.
      change (idSegments ":id") with 1%nat. lia.
    + rewrite idSegments_app_sep, Hpath0.
      change (idSegments ":id") with 1%nat. lia.
Qed.
End resolve_id.

(** C10, as the code has it.  When no segment of the raw path is a decimal
    number beyond the range of [int64], a resolved id that is not zero comes
    with a segment [:id] in the key.  When neither the raw path nor the gap
    registered for its first segment has a segment [:id] of its own, the key
    has at most one segment [:id]. *)
Theorem resolvePath_id_placeholder (r : Router) (method rawPath : string) :
  let res := resolvePath r method rawPath in
  let segments := Split rawPath "/" in
  ((forall s, s ∈ segments -> (ParseInt s).2 <> Some ErrRange) ->
   routeId res <> 0 ->
   ":id" ∈ Split (routeKey res) "/")
  /\ (":id" ∉ segments ->
      (forall g, gapsMap r !! (segments !!! 0%nat) = Some g ->
                 ":id" ∉ Split (Join g "/") "/") ->
      (idSegments (routeKey res) <= 1)%nat).
Proof.
  intros res segments. split.
  - intros Hrange Hid. by apply idSegments_pos, resolvePath_id_key.
  - apply resolvePath_id_once.
Qed.

Lemma resolvePath_id_placeholder_witness :
  routeId (resolvePath emptyRouter "GET" "users/5/image_url") = 5
  /\ ":id" ∈ Split (routeKey (resolvePath emptyRouter "GET" "users/5/image_url")) "/"
  /\ (idSegments (routeKey (resolvePath emptyRouter "GET" "users/5/image_url"))
      <= 1)%nat.
Proof.
  split; [reflexivity|].
  destruct (resolvePath_id_placeholder emptyRouter "GET" "users/5/image_url")
    as [Hid Honce].
  split.
  - apply Hid; [|discriminate].
    intros s Hs. change (Split "users/5/image_url" "/")
      with ["users"; "5"; "image_url"] in Hs.
    set_unfold. destruct Hs as [->|[->|[->|[]]]]; discriminate.
  - apply Honce.
    + change (Split "users/5/image_url" "/") with ["users"; "5"; "image_url"].
      set_unfold. intros [|[|[|[]]]]; discriminate.
    + intros g Hg. cbn [gapsMap emptyRouter] in Hg.
      rewrite lookup_empty in Hg. discriminate.
Defined.

(** C10, as the claim words it, fails in both parts.  A second segment that
    overflows [int64] leaves the id at the largest [int64] while the key has
    no segment [:id]; and a raw path may bring segments [:id] of its own. *)
Lemma resolvePath_id_placeholder_fails :
  (routeId (resolvePath emptyRouter "GET" "users/99999999999999999999")
   = 9223372036854775807
   /\ routeKey (resolvePath emptyRouter "GET" "users/99999999999999999999")
      = "GET /users/99999999999999999999"
   /\ ":id" ∉ Split (routeKey (resolvePath emptyRouter "GET"
                                 "users/99999999999999999999")) "/")
  /\ (routeKey (resolvePath emptyRouter "GET" "users/5/:id")
      = "GET /users/:id/:id"
      /\ idSegments (routeKey (resolvePath emptyRouter "GET" "users/5/:id"))
         = 2%nat).
Proof.
  split; [split; [reflexivity|split; [reflexivity|]]|split; reflexivity].
  change (Split _ "/") with ["GET "; "users"; "99999999999999999999"].
  set_unfold. intros [|[|[|[]]]]; discriminate.
Qed.

(** ** Converted names of identifiers made of letters *)

Section letters.
Implicit Types (s w name : string) (c x : ascii) (ws : list string).

Lemma allBytes_app p a b : allBytes p (a +:+ b) = allBytes p a && allBytes p b.
Proof.
  induction a as [|x a IH]; [done|]. simpl. rewrite IH. by rewrite andb_assoc.
Qed.

Lemma allBytes_impl (p q : ascii -> bool) s :
  (forall c, p c = true -> q c = true) ->
  allBytes p s = true -> allBytes q s = true.
Proof.
  intros Hpq. induction s as [|x s IH]; [done|]. simpl.
  intros [Hx Hs]%andb_true_iff. by rewrite (Hpq x Hx), IH.
Qed.

Lemma snakeFrom_tokenBytes first name :
  lettersOnly name -> allBytes tokenByte (snakeFrom first name) = true.
Proof.
  unfold lettersOnly. revert first.
  induction name as [|x name IH]; intros first H; [done|].
  simpl in H. apply andb_true_iff in H as [Hx Hname]. simpl.
  rewrite allBytes_app. simpl. rewrite (IH false Hname), andb_true_r.
  unfold tokenByte at 2. rewrite (isLetter_toLower x Hx). simpl.
  rewrite andb_true_r. by destruct (negb first && isUpper x).
Qed.

Lemma tokenBytes_no_slash s :
  allBytes tokenByte s = true -> hasByte "/" s = false.
Proof.
  induction s as [|x s IH]; [done|]. simpl.
  intros [Hx Hs]%andb_true_iff. destruct (decide (x = "/"%char)) as [->|_].
  - by vm_compute in Hx.
  - by apply IH.
Qed.

Lemma lowerWord_tokenBytes w : lowerWord w -> allBytes tokenByte w = true.
Proof.
  intros [_ Hw]. revert Hw. apply allBytes_impl.
  intros c Hc. unfold tokenByte. by rewrite Hc.
Qed.

Lemma Join_tokenBytes ws :
  Forall lowerWord ws -> allBytes tokenByte (Join ws WordSeparator) = true.
Proof.
  unfold WordSeparator. induction 1 as [|w ws Hw Hws IH]; [done|].
  destruct ws as [|w' ws]; [by apply lowerWord_tokenBytes|].
  rewrite (Join_cons "_") by done. rewrite !allBytes_app.
  rewrite (lowerWord_tokenBytes w Hw). by rewrite IH.
Qed.

Lemma Join_lowerWords_head w ws :
  lowerWord w ->
  exists c s, Join (w :: ws) WordSeparator = String c s /\ isLower c = true.
Proof.
  unfold WordSeparator. intros [Hne Hw]. destruct w as [|c w]; [done|].
  simpl in Hw. apply andb_true_iff in Hw as [Hc _].
  destruct ws as [|w' ws].
  - by exists c, w.
  - rewrite (Join_cons "_") by done. by eexists c, _.
Qed.

Lemma consHead_lowerWords c ws :
  isLower c = true -> ws <> [] -> Forall lowerWord ws ->
  Forall lowerWord (consHead c ws).
Proof.
  intros Hc Hne Hws. destruct Hws as [|w ws [_ Hw] Hws]; [done|].
  constructor; [|done]. split; [done|]. simpl. by rewrite Hc, Hw.
Qed.

Lemma Split_snake_words c name :
  isLower c = true -> lettersOnly name ->
  Forall lowerWord (Split (String c (snakeFrom false name)) WordSeparator).
Proof.
  unfold lettersOnly. revert c.
  induction name as [|x name IH]; intros c Hc Hname.
  - cbn [snakeFrom]. unfold WordSeparator. rewrite Split_cons, Split_nil.
    destruct (decide (c = "_"%char)) as [->|_]; [by vm_compute in Hc|].
    cbn [consHead]. constructor; [|constructor].
    split; [done|]. simpl. by rewrite Hc.
  - simpl in Hname. apply andb_true_iff in Hname as [Hx Hname].
    pose proof (isLetter_toLower x Hx) as Hlow.
    unfold WordSeparator. rewrite Split_cons.
    destruct (decide (c = "_"%char)) as [->|_]; [by vm_compute in Hc|].
    cbn [snakeFrom negb andb]. destruct (isUpper x).
    + cbn [String.append WordSeparator]. rewrite Split_cons.
      destruct (decide ("_"%char = "_"%char)); [|done].
      cbn [consHead]. constructor; [|by apply IH].
      split; [done|]. simpl. by rewrite Hc.
    + cbn [String.append]. apply consHead_lowerWords; [done| |by apply IH].
      apply Split_not_nil.
Qed.

Lemma Split_convertName_words name :
  name <> "" -> lettersOnly name ->
  Forall lowerWord (Split (convertName name) WordSeparator).
Proof.
  intros Hne Hname. rewrite convertName_snakeCase.
  destruct name as [|x name]; [done|]. unfold lettersOnly in Hname.
  simpl in Hname. apply andb_true_iff in Hname as [Hx Hname].
  unfold snakeCase. cbn [snakeFrom negb andb String.append].
  apply Split_snake_words; [by apply isLetter_toLower|done].
Qed.

Lemma ParseInt_lower c s :
  isLower c = true -> ParseInt (String c s) = (0, Some ErrSyntax).
Proof.
  intros Hc. unfold ParseInt.
  destruct (decide (c = "+"%char)) as [->|_]; [by vm_compute in Hc|].
  destruct (decide (c = "-"%char)) as [->|_]; [by vm_compute in Hc|].
  cbn [ParseUint parseUintLoop].
  assert (isDigit c = false) as ->; [|done].
  unfold isLower, isDigit in *.
  change (byte_of "a") with 97 in Hc. change (byte_of "9") with 57.
  apply andb_true_iff in Hc as [Hc _]. apply Z.leb_le in Hc.
  apply andb_false_iff. right. apply Z.leb_gt. lia.
Qed.
End letters.

(** ** The resolver on a path whose segments are known *)

Section resolve_segments.
Variables (r : Router) (method rawPath : string).

Lemma resolvePath_id_branch seg0 seg1 rest id :
  Split rawPath "/" = seg0 :: seg1 :: rest ->
  ParseInt seg1 = (id, None) ->
  routeKey (resolvePath r method rawPath)
  = resolvedVerb method +:+ " /" +:+ seg0 +:+ "/:id"
    +:+ match rest with
        | [] => ""
        | s :: _ => if bool_decide (s = "") then "" else "/" +:+ s
        end.
Proof.
  intros Hsplit Hparse. unfold resolvePath, resolvedVerb. rewrite Hsplit.
  rewrite bool_decide_true by (simpl; lia).
  cbn [lookup_total list_lookup_total]. rewrite Hparse.
  unfold routeKey. destruct rest as [|s rest].
  - rewrite bool_decide_false by (simpl; lia). cbn [andb fst].
    by rewrite !str_app_assoc, ?str_app_nil_r.
  - rewrite bool_decide_true by (simpl; lia).
    cbn [lookup_total list_lookup_total andb].
    destruct (bool_decide (s = "")); cbn [negb fst];
      by rewrite !str_app_assoc, ?str_app_nil_r.
Qed.

Lemma lookup_total_behind (seg0 : string) (fill tail : list string) (i : nat) :
  (seg0 :: fill ++ tail) !!! (length fill + 1 + i)%nat = tail !!! i.
Proof.
  replace (length fill + 1 + i)%nat with (S (length fill + i)) by lia.
  rewrite !list_lookup_total_alt, lookup_cons, lookup_app_r by lia.
  do 2 f_equal. lia.
Qed.

Lemma resolvePath_gap_branch seg0 fill tail gopt id e :
  Split rawPath "/" = seg0 :: fill ++ tail ->
  ParseInt (hd "" (fill ++ tail)) = (id, Some e) ->
  gapsMap r !! seg0 = gopt ->
  length fill = length (default [] gopt) ->
  routeKey (resolvePath r method rawPath)
  = resolvedVerb method +:+ " /" +:+ seg0
    +:+ match gopt with Some g => "/" +:+ Join g "/" | None => "" end
    +:+ tailKey tail.
Proof.
  intros Hsplit Hparse Hgaps Hfill. unfold resolvePath, resolvedVerb.
  rewrite Hsplit. change ((seg0 :: fill ++ tail) !!! 0%nat) with seg0.
  assert ((if bool_decide (2 <= length (seg0 :: fill ++ tail))%nat
           then (seg0 :: fill ++ tail) !!! 1%nat else "")
          = hd "" (fill ++ tail)) as ->.
  { destruct (fill ++ tail) as [|a l]; [done|].
    by rewrite bool_decide_true by (simpl; lia). }
  rewrite Hparse, Hgaps, <- Hfill.
  set (path1 := match gopt with Some g => _ +:+ "/" +:+ Join g "/" | None => _ end).
  assert (path1 = (if oneOf method ["POST"; "DETETE"; "PUT"] then method else "GET")
                  +:+ " /" +:+ seg0
                  +:+ match gopt with Some g => "/" +:+ Join g "/" | None => "" end)
    as Hpath1.
  { unfold path1. destruct gopt; by rewrite ?str_app_assoc, ?str_app_nil_r. }
  replace (length fill + 1)%nat with (length fill + 1 + 0)%nat by lia.
  replace (length fill + 1 + 0 + 1)%nat with (length fill + 1 + 1)%nat by lia.
  rewrite !lookup_total_behind.
  cbn [length]. rewrite length_app.
  unfold routeKey. destruct tail as [|m [|i tl]]; cbn [length tailKey].
  all: repeat first
         [ rewrite (bool_decide_true (_ < _)%nat) by (simpl; lia)
         | rewrite (bool_decide_false (_ < _)%nat) by (simpl; lia) ].
  all: cbn [lookup_total list_lookup_total andb].
  - cbn [fst]. by rewrite Hpath1, ?str_app_assoc, ?str_app_nil_r.
  - destruct (bool_decide (m = "")); cbn [negb fst];
      by rewrite Hpath1, ?str_app_assoc, ?str_app_nil_r.
  - destruct (bool_decide (m = "")), (bool_decide (i = "")); cbn [negb fst];
      try destruct (ParseInt i) as [id2 [e2|]]; cbn [fst];
      by rewrite Hpath1, ?str_app_assoc, ?str_app_nil_r.
Qed.
End resolve_segments.

(** ** The gaps map after [NewRouter] *)

Lemma registerResource_gaps router v router' :
  registerResource router v = Some router' ->
  (forall k, k <> convertName (typeName v) ->
             gapsMap router' !! k = gapsMap router !! k)
  /\ ((forall stem, stem <> "" -> convertName (typeName v) <> stem +:+ "_id") ->
      gapsMap router' !! convertName (typeName v)
      = match Gap v with
        | Some gap => Some (Split gap "/")
        | None => gapsMap router !! convertName (typeName v)
        end).
Proof.
  unfold registerResource.
  destruct (resourcePath_cases v) as [(stem & Hstem & Hne & Hpath)|[Hno Hpath]];
    rewrite Hpath; cbn [mbind option_bind];
    destruct (registerMethods _ _ _ _ _ _) as [table|]; [|done| |done];
    intros [= <-]; cbn [gapsMap].
  - split; [done|]. intros Hno. by destruct (Hno stem Hne).
  - destruct (Gap v) as [gap|]; [|done]. split.
    + intros k Hk. by rewrite lookup_insert_ne.
    + intros _. by rewrite lookup_insert_eq.
Qed.

Lemma registerResources_gaps_other router resources router' k :
  registerResources router resources = Some router' ->
  (forall v, v ∈ resources -> convertName (typeName v) <> k) ->
  gapsMap router' !! k = gapsMap router !! k.
Proof.
  revert router. induction resources as [|u resources IH]; intros router.
  - by intros [= <-].
  - cbn [registerResources]. intros Hreg Hother.
    destruct (registerResource router u) as [router1|] eqn:Hu; [|done].
    cbn [mbind option_bind] in Hreg.
    rewrite (IH router1 Hreg) by (intros v Hv; apply Hother; set_solver).
    apply (registerResource_gaps _ _ _ Hu).
    intros Heq. eapply Hother; [|by symmetry]. set_solver.
Qed.

Lemma registerResources_gaps_of router resources router' v :
  registerResources router resources = Some router' ->
  NoDup ((fun u => convertName (typeName u)) <$> resources) ->
  v ∈ resources ->
  (forall stem, stem <> "" -> convertName (typeName v) <> stem +:+ "_id") ->
  gapsMap router !! convertName (typeName v) = None ->
  gapsMap router' !! convertName (typeName v)
  = (fun gap => Split gap "/") <$> Gap v.
Proof.
  revert router. induction resources as [|u resources IH];
    intros router Hreg Hnodup Hv Hno Hfresh; [by apply elem_of_nil in Hv|].
  cbn [registerResources] in Hreg.
  destruct (registerResource router u) as [router1|] eqn:Hu; [|done].
  cbn [mbind option_bind] in Hreg.
  rewrite fmap_cons in Hnodup. apply NoDup_cons in Hnodup as [Hhead Hnodup].
  destruct (registerResource_gaps _ _ _ Hu) as [Hother Hself].
  destruct (decide (convertName (typeName u) = convertName (typeName v)))
    as [Heq|Hne].
  - rewrite (registerResources_gaps_other _ _ _ _ Hreg).
    + rewrite <- Heq. rewrite Hself by (by rewrite Heq).
      apply elem_of_cons in Hv as [->|Hv].
      * destruct (Gap u); [done|]. by rewrite Hfresh.
      * exfalso. apply Hhead. rewrite Heq.
        apply (list_elem_of_fmap_2 (fun u => convertName (typeName u))), Hv.
    + intros w Hw Heq'. apply Hhead. rewrite Heq, <- Heq'.
      by apply (list_elem_of_fmap_2 (fun u => convertName (typeName u))).
  - apply elem_of_cons in Hv as [->|Hv]; [done|].
    apply (IH router1); try done.
    rewrite Hother by done. done.
Qed.

(** ** The shape of a registered key *)

Lemma verb_upper (w : string) :
  oneOf w httpVerbs = true -> ToUpper w ∈ ["POST"; "GET"; "PUT"; "DELETE"].
Proof.
  unfold oneOf, httpVerbs. intros Hverb%bool_decide_eq_true.
  set_unfold. destruct Hverb as [->|[->|[->|[->|[]]]]]; vm_compute; tauto.
Qed.

Lemma routePath_not_empty resPath pathWords isId :
  resPath <> "" ->
  routePath resPath pathWords isId
  = resPath
    +:+ match pathWords with
        | [] => ""
        | _ :: _ => "/" +:+ Join pathWords WordSeparator
        end
    +:+ (if isId then "/:id" else "").
Proof. intros Hne. unfold routePath. by rewrite bool_decide_false. Qed.

Lemma specRouteKey_shape resPath isIdResource name :
  name <> "" -> lettersOnly name ->
  exists verb pathWords isId,
    specRouteKey true resPath isIdResource name
    = verb +:+ " /" +:+ routePath resPath pathWords isId
    /\ verb ∈ ["POST"; "GET"; "PUT"; "DELETE"]
    /\ Forall lowerWord pathWords
    /\ (isId = true -> isIdResource = false /\ pathWords <> []).
Proof.
  intros Hne Hletters. unfold specRouteKey.
  pose proof (Split_convertName_words name Hne Hletters) as Hwords.
  pose proof (Split_not_nil "_" (convertName name)) as Hnil.
  change (String "_" "") with WordSeparator in Hnil.
  destruct (Split (convertName name) WordSeparator) as [|w0 ws]; [done|].
  clear Hnil. cbn [hd andb].
  destruct (oneOf w0 httpVerbs) eqn:Hverb;
    destruct (isIdMethodName isIdResource _ (w0 :: ws)) eqn:HisId.
  all: try (unfold isIdMethodName in HisId;
            apply andb_true_iff in HisId as [[Hres Hlen]%andb_true_iff Hlast];
            apply bool_decide_eq_true in Hlen, Hlast;
            apply negb_true_iff in Hres;
            apply last_Some in Hlast as [init Hinit];
            rewrite Hinit in Hwords |- *; rewrite removelast_last;
            apply Forall_app in Hwords as [Hwords _];
            rewrite Hinit, length_app in Hlen; simpl in Hlen).
  - destruct init as [|w [|w1 init]]; [simpl in Hlen; lia..|].
    exists (ToUpper w0), (w1 :: init), true. cbn [tail]. injection Hinit as <- _.
    split; [done|]. split; [by apply verb_upper|].
    split; [by inversion Hwords|done].
  - exists (ToUpper w0), ws, false. cbn [tail].
    split; [done|]. split; [by apply verb_upper|].
    split; [by inversion Hwords|done].
  - destruct init as [|w init]; [simpl in Hlen; lia|].
    exists "GET", (w :: init), true.
    split; [done|]. split; [set_solver|]. done.
  - exists "GET", (w0 :: ws), false.
    split; [done|]. split; [set_solver|]. done.
Qed.

Lemma lastRegistration_elem key regs h :
  lastRegistration key regs = Some h -> (key, h) ∈ regs.
Proof.
  unfold lastRegistration. destruct (last _) as [[k h']|] eqn:Hlast; [|done].
  intros [= <-]. apply last_Some_elem_of in Hlast.
  apply list_elem_of_filter in Hlast as [Hk Hin]. by simpl in Hk; subst.
Qed.

Lemma registrationsFrom_elem v i methods key h :
  (key, h) ∈ registrationsFrom v i methods ->
  exists methodType, methodType ∈ methods /\ routeOf v methodType = Some key.
Proof.
  revert i. induction methods as [|m methods IH]; intros i; cbn [registrationsFrom].
  - by intros ?%elem_of_nil.
  - intros [Hin|Hin]%elem_of_app.
    + destruct (routeOf v m) as [k|] eqn:Hroute; [|by apply elem_of_nil in Hin].
      apply list_elem_of_singleton in Hin as [= -> _].
      exists m. split; [set_solver|done].
    + destruct (IH _ Hin) as (m' & Hm' & Hroute). exists m'. set_solver.
Qed.

Lemma registrations_elem resources key h :
  (key, h) ∈ registrations resources ->
  exists v methodType,
    v ∈ resources /\ methodType ∈ methodSet v
    /\ routeOf v methodType = Some key.
Proof.
  unfold registrations. intros (v & Hin & Hv)%list_elem_of_bind.
  destruct (registrationsFrom_elem _ _ _ _ _ Hin) as (m & Hm & Hroute).
  by exists v, m.
Qed.

(** ** Round trip *)

Section round_trip.
Variable r : Router.
Implicit Types (verb t stem m : string) (pathWords : list string).

Lemma resolvedVerb_id verb :
  verb ∈ ["POST"; "GET"; "PUT"] -> resolvedVerb verb = verb.
Proof. set_unfold. intros [->|[->|[->|[]]]]; reflexivity. Qed.

Lemma pathWords_segment pathWords :
  pathWords <> [] -> Forall lowerWord pathWords ->
  let m := Join pathWords WordSeparator in
  hasByte "/" m = false /\ m <> ""
  /\ ParseInt m = (0, Some ErrSyntax).
Proof.
  intros Hne Hwords m. split.
  - by apply tokenBytes_no_slash, Join_tokenBytes.
  - destruct Hwords as [|w ws Hw Hws]; [done|].
    destruct (Join_lowerWords_head w ws Hw) as (c & s & Hm & Hc).
    unfold m. rewrite Hm. split; [done|]. by apply ParseInt_lower.
Qed.

(** A key of an id resource is resolved from the stem, an integer and the
    path portion. *)
Lemma resolve_id_resource verb stem pathWords :
  verb ∈ ["POST"; "GET"; "PUT"] ->
  stem <> "" -> hasByte "/" stem = false ->
  Forall lowerWord pathWords ->
  exists method rawPath,
    routeKey (resolvePath r method rawPath)
    = verb +:+ " /" +:+ routePath (stem +:+ "/:id") pathWords false.
Proof.
  intros Hverb Hstem Hslash Hwords.
  rewrite routePath_not_empty by by apply str_app_not_empty_r.
  exists verb. destruct pathWords as [|w ws].
  - exists (stem +:+ "/" +:+ "5").
    rewrite (resolvePath_id_branch r verb _ stem "5" [] 5).
    + rewrite resolvedVerb_id by done. by rewrite ?str_app_assoc, ?str_app_nil_r.
    + cbn [String.append]. rewrite Split_app_sep.
      by rewrite (Split_no_sep "/" stem).
    + reflexivity.
  - destruct (pathWords_segment (w :: ws)) as (Hm1 & Hm2 & _); [done..|].
    set (m := Join (w :: ws) WordSeparator) in *.
    exists (stem +:+ "/" +:+ "5" +:+ "/" +:+ m).
    rewrite (resolvePath_id_branch r verb _ stem "5" [m] 5).
    + rewrite resolvedVerb_id by done. rewrite bool_decide_false by done.
      by rewrite ?str_app_assoc, ?str_app_nil_r.
    + cbn [String.append]. rewrite Split_app_sep.
      rewrite (Split_no_sep "/" stem) by done.
      change (String "5" (String "/" m)) with ("5" +:+ String "/" m).
      rewrite Split_app_sep. by rewrite (Split_no_sep "/" m).
    + reflexivity.
Qed.

Lemma replicate_x_no_slash (n : nat) :
  Forall (fun w => hasByte "/" w = false) (replicate n "x").
Proof. induction n; by constructor. Qed.

Lemma hd_fill_fails (n : nat) (tail : list string) :
  (tail = [] \/ exists m tl, tail = m :: tl /\ ParseInt m = (0, Some ErrSyntax)) ->
  ParseInt (hd "" (replicate n "x" ++ tail)) = (0, Some ErrSyntax).
Proof.
  intros Htail. destruct n as [|n]; [|reflexivity].
  destruct Htail as [->|(m & tl & -> & Hm)]; [reflexivity|done].
Qed.

(** A key of any other resource is resolved from the converted type name,
    one segment for each segment of the gap, the path portion and, for an
    id method, an integer. *)
Lemma resolve_plain_resource verb t gap pathWords isId :
  verb ∈ ["POST"; "GET"; "PUT"] ->
  t <> "" -> hasByte "/" t = false ->
  gapsMap r !! t = (fun g => Split g "/") <$> gap ->
  Forall lowerWord pathWords ->
  (isId = true -> pathWords <> []) ->
  exists method rawPath,
    routeKey (resolvePath r method rawPath)
    = verb +:+ " /"
      +:+ routePath (match gap with Some g => t +:+ "/" +:+ g | None => t end)
            pathWords isId.
Proof.
  intros Hverb Ht Hslash Hgaps Hwords HisId.
  rewrite routePath_not_empty
    by (destruct gap; [by apply str_app_not_empty_r|done]).
  set (gopt := (fun g => Split g "/") <$> gap) in *.
  set (fill := replicate (length (default [] gopt)) "x").
  set (tail := match pathWords with
               | [] => []
               | _ :: _ => Join pathWords WordSeparator
                           :: (if isId then ["5"] else [])
               end).
  assert (Forall (fun w => hasByte "/" w = false) tail
          /\ (tail = [] \/ exists m tl, tail = m :: tl
                                        /\ ParseInt m = (0, Some ErrSyntax))
          /\ tailKey tail
             = match pathWords with
               | [] => ""
               | _ :: _ => "/" +:+ Join pathWords WordSeparator
               end +:+ (if isId then "/:id" else ""))
    as (Htail1 & Htail2 & Htail3).
  { unfold tail. destruct pathWords as [|w ws].
    - split; [done|]. split; [by left|]. by destruct isId; [destruct HisId|].
    - destruct (pathWords_segment (w :: ws)) as (Hm1 & Hm2 & Hm3); [done..|].
      split; [by destruct isId; repeat constructor|].
      split; [right; by eexists _, _|].
      cbn [tailKey]. rewrite bool_decide_false by done.
      by destruct isId. }
  exists verb, (Join (t :: fill ++ tail) "/").
  rewrite (resolvePath_gap_branch r verb _ t fill tail gopt 0 ErrSyntax).
  - rewrite resolvedVerb_id by done. rewrite Htail3. unfold gopt.
    destruct gap as [g|]; cbn [fmap option_fmap option_map].
    + rewrite (Join_Split "/" g). by rewrite ?str_app_assoc, ?str_app_nil_r.
    + by rewrite ?str_app_assoc, ?str_app_nil_r.
  - apply (Split_Join_words "/"); [done|].
    constructor; [done|]. apply Forall_app. split; [|done].
    apply replicate_x_no_slash.
  - by apply hd_fill_fails.
  - done.
  - unfold fill. by rewrite length_replicate.
Qed.
End round_trip.

Lemma convertName_token (name : string) :
  name <> "" -> lettersOnly name ->
  convertName name <> "" /\ allBytes tokenByte (convertName name) = true.
Proof.
  intros Hne Hletters. rewrite convertName_snakeCase. split.
  - by apply snakeFrom_not_empty.
  - by apply snakeFrom_tokenBytes.
Qed.

(** C1, as the code has it.  When the type names are not empty, the type and
    method names are made of letters and no two resources have the same
    converted type name, [NewRouter] builds its table, and every key of the
    table whose verb is not [DELETE] is the key of some request. *)
Theorem route_round_trip (resources : list Resource) :
  Forall wellNamed resources ->
  NoDup ((fun v => convertName (typeName v)) <$> resources) ->
  exists r,
    NewRouter resources = Some r
    /\ forall key h,
         methodMap r !! key = Some h ->
         HasPrefix key "DELETE " = false ->
         exists method rawPath,
           routeKey (resolvePath r method rawPath) = key.
Proof.
  intros Hnamed Hnodup.
  assert (Forall namedMethods resources) as Hmethods.
  { eapply Forall_impl; [exact Hnamed|]. intros v (_ & _ & Hv).
    eapply Forall_impl; [exact Hv|]. by intros m [? _]. }
  destruct (registerResources_storeAll emptyRouter resources Hmethods)
    as (r & Hr & Hmap).
  exists r. split; [exact Hr|]. intros key h Hkey Hdelete.
  rewrite Hmap, storeAll_lookup in Hkey. cbn [methodMap emptyRouter] in Hkey.
  rewrite lookup_empty in Hkey.
  destruct (lastRegistration key (registrations resources)) as [h'|] eqn:Hlast;
    [|done].
  apply lastRegistration_elem, registrations_elem in Hlast
    as (v & methodType & Hv & Hm & Hroute).
  rewrite Forall_forall in Hnamed.
  destruct (Hnamed v Hv) as (Htype & Hletters & Hnames).
  rewrite Forall_forall in Hnames. destruct (Hnames _ Hm) as [Hname Hmletters].
  destruct (convertName_token _ Htype Hletters) as [Ht Htoken].
  unfold routeOf in Hroute.
  destruct (resourcePath_cases v) as [(stem & Hstem & Hne & Hpath)|[Hno Hpath]];
    rewrite Hpath in Hroute;
    (destruct (validateMethod methodType) as [[]|]; [|done..]);
    rewrite methodRoute_specRouteKey in Hroute; injection Hroute as <-;
    match goal with
    | |- context [specRouteKey true ?p ?b _] =>
        destruct (specRouteKey_shape p b _ Hname Hmletters)
          as (verb & pathWords & isId & Hshape & Hverb & Hwords & HisId)
    end;
    rewrite Hshape in Hdelete |- *;
    (assert (verb ∈ ["POST"; "GET"; "PUT"]) as Hverb';
     [set_unfold; destruct Hverb as [->|[->|[->|[->|[]]]]]; try tauto;
      by simpl in Hdelete|]).
  - destruct isId; [by destruct HisId|].
    apply resolve_id_resource; try done.
    rewrite Hstem, allBytes_app in Htoken.
    apply andb_true_iff in Htoken as [Htoken _].
    by apply tokenBytes_no_slash.
  - apply resolve_plain_resource; try done.
    + by apply tokenBytes_no_slash.
    + apply (registerResources_gaps_of emptyRouter resources); try done.
    + intros Htrue. by destruct HisId.
Qed.

Lemma route_round_trip_witness :
  Forall wellNamed [Users; UsersId; Baz]
  /\ NoDup ((fun v => convertName (typeName v)) <$> [Users; UsersId; Baz])
  /\ exists r,
       NewRouter [Users; UsersId; Baz] = Some r
       /\ methodMap r !! "POST /baz/bar" = Some (Baz, 0%nat)
       /\ exists method rawPath,
            routeKey (resolvePath r method rawPath) = "POST /baz/bar".
Proof.
  assert (Forall wellNamed [Users; UsersId; Baz]) as Hnamed.
  { repeat constructor; discriminate. }
  assert (NoDup ((fun v => convertName (typeName v)) <$> [Users; UsersId; Baz]))
    as Hnodup.
  { change (NoDup ["users"; "users_id"; "baz"]).
    repeat constructor; set_unfold; intros H; repeat destruct H as [H|H];
      discriminate || done. }
  split; [exact Hnamed|]. split; [exact Hnodup|].
  destruct (route_round_trip [Users; UsersId; Baz] Hnamed Hnodup)
    as (r & Hr & Hkeys).
  exists r. split; [exact Hr|].
  assert (methodMap r !! "POST /baz/bar" = Some (Baz, 0%nat)) as Hkey.
  { vm_compute in Hr. injection Hr as <-. reflexivity. }
  split; [exact Hkey|]. apply (Hkeys _ _ Hkey). reflexivity.
Defined.

(** ** Keys that no request reaches *)

Section key_segments.
Variables (r : Router) (method rawPath : string).
Let segments : list string := Split rawPath "/".

(** The segments of a resolved key: the verb, the first segment of the
    path, and then either the id placeholder or the gap registered for the
    first segment. *)
Lemma resolvePath_key_segments :
  exists rest,
    Split (routeKey (resolvePath r method rawPath)) "/"
    = (resolvedVerb method +:+ " ") :: segments !!! 0%nat :: rest
    /\ ((exists rest', rest = ":id" :: rest')
        \/ exists rest',
             rest = match gapsMap r !! (segments !!! 0%nat) with
                    | Some g => Split (Join g "/") "/"
                    | None => []
                    end ++ rest').
Proof.
  assert (Split ((if oneOf method ["POST"; "DETETE"; "PUT"] then method else "GET")
                 +:+ " /" +:+ segments !!! 0%nat) "/"
          = [resolvedVerb method +:+ " "; segments !!! 0%nat]) as Hpath0.
  { cbn [String.append].
    change (?h +:+ String " " (String "/" ?s)) with (h +:+ " " +:+ String "/" s).
    rewrite <- str_app_assoc, Split_app_sep.
    rewrite (Split_no_sep "/" (_ +:+ " ")) by apply verb_no_slash.
    rewrite (Split_no_sep "/" (segments !!! 0%nat)); [done|].
    apply segments_no_slash, segments_length. }
  unfold resolvePath. fold segments.
  set (path0 := _ +:+ " /" +:+ segments !!! 0%nat) in *.
  destruct (ParseInt (if bool_decide _ then _ else _)) as [id1 [e1|]].
  - destruct (gapsMap r !! (segments !!! 0%nat)) as [g|];
      cbn [default from_option].
    all: repeat match goal with
           | |- context [if bool_decide (?i < length segments)%nat && ?c
                         then _ else _] =>
               destruct (bool_decide (i < length segments)%nat && c)
           | |- context [ParseInt ?s] =>
               destruct (ParseInt s) as [? [?|]]
           end.
    all: unfold routeKey; cbn [fst];
      change "/:id" with (String "/" ":id"); cbn [String.append];
      rewrite ?Split_app_sep, Hpath0, <- ?app_assoc; cbn [app];
      eexists; (split; [reflexivity|]); right;
      eexists; first [reflexivity | symmetry; apply app_nil_r].
  - unfold routeKey.
    destruct (bool_decide (2 < length segments)%nat && _); cbn [fst];
      change "/:id" with (String "/" ":id"); cbn [String.append];
      rewrite ?Split_app_sep, Hpath0, <- ?app_assoc; cbn [app];
      eexists; (split; [reflexivity|]); left; by eexists.
Qed.
End key_segments.

(** Two resources with the same converted type name share one entry of the
    gaps map.  [Users] registers [GET /users/image_url]; [UsersProfile'],
    registered after it, leaves the gap [profile] under [users], and from
    then on every key resolved under [users] continues with [profile] or
    with the id placeholder: the key of [Users] is stored and never
    resolved. *)
Lemma route_round_trip_gap_collision :
  exists r,
    NewRouter [Users; UsersProfile'] = Some r
    /\ methodMap r !! "GET /users/image_url" = Some (Users, 0%nat)
    /\ forall method rawPath,
         routeKey (resolvePath r method rawPath) <> "GET /users/image_url".
Proof.
  assert (exists r,
            NewRouter [Users; UsersProfile'] = Some r
            /\ methodMap r !! "GET /users/image_url" = Some (Users, 0%nat)
            /\ gapsMap r !! "users" = Some ["profile"]) as (r & Hr & Hkey & Hgaps).
  { eexists. split; [reflexivity|]. split; vm_compute; reflexivity. }
  exists r. split; [exact Hr|]. split; [exact Hkey|].
  intros method rawPath Hresolved.
  destruct (resolvePath_key_segments r method rawPath) as (rest & Hsplit & Hrest).
  rewrite Hresolved in Hsplit.
  change (Split "GET /users/image_url" "/")
    with ["GET "; "users"; "image_url"] in Hsplit.
  injection Hsplit as _ Hseg0 Htail. rewrite <- Hseg0, Hgaps in Hrest.
  change (Split (Join ["profile"] "/") "/") with ["profile"] in Hrest.
  destruct Hrest as [[rest' ->]|[rest' ->]]; discriminate Htail.
Qed.

Lemma HasPrefix_app (s prefix : string) :
  HasPrefix s prefix = true -> exists tl, s = prefix +:+ tl.
Proof.
  revert s. induction prefix as [|p prefix IH]; intros s Hprefix.
  - by exists s.
  - destruct s as [|x s]; [discriminate Hprefix|]. simpl in Hprefix.
    destruct (decide (x = p)) as [->|]; [|discriminate Hprefix].
    destruct (IH s Hprefix) as [tl ->]. by exists tl.
Qed.

(** No request reaches a key registered with the verb DELETE. *)
Lemma resolvePath_no_DELETE (r : Router) (method rawPath : string) :
  HasPrefix (routeKey (resolvePath r method rawPath)) "DELETE " = false.
Proof.
  destruct (resolvePath_key_segments r method rawPath) as (rest & Hsplit & _).
  destruct (HasPrefix _ "DELETE ") eqn:Hprefix; [|reflexivity].
  exfalso. revert Hsplit Hprefix.
  generalize (routeKey (resolvePath r method rawPath)). intros key Hsplit Hprefix.
  destruct (HasPrefix_app _ _ Hprefix) as [tl ->].
  pose proof (Join_Split "/" ("DELETE " +:+ tl)) as Hjoin.
  rewrite Hsplit in Hjoin.
  unfold resolvedVerb, oneOf in Hjoin.
  case_bool_decide as Hverb.
  - set_unfold. destruct Hverb as [->|[->|[->|[]]]]; discriminate Hjoin.
  - discriminate Hjoin.
Qed.

(** ** Requests that resolve alike *)

(** Every method other than [POST] and [PUT] (and the literal [DETETE])
    resolves as [GET] does: the key, the id, the segments and the gaps are
    the same.  This is how [HEAD] and [OPTIONS] reach the [Get] methods, and
    where a [DELETE] request goes. *)
Lemma resolvePath_as_GET (r : Router) (method rawPath : string) :
  method ∉ ["POST"; "DETETE"; "PUT"] ->
  resolvePath r method rawPath = resolvePath r "GET" rawPath.
Proof.
  intros Hmethod. unfold resolvePath, oneOf.
  rewrite (bool_decide_false (method ∈ _)) by done.
  by change (bool_decide ("GET" ∈ ["POST"; "DETETE"; "PUT"])) with false.
Qed.

(** The test [resolvePath] makes of the segment of index [i]: it is there
    and it is not empty. *)
Lemma segment_test_snoc (l : list string) (i : nat) :
  bool_decide (i < length (l ++ [""]))%nat
  && negb (bool_decide ((l ++ [""]) !!! i = ""))
  = bool_decide (i < length l)%nat && negb (bool_decide (l !!! i = "")).
Proof.
  rewrite length_app. cbn [length].
  destruct (decide (i < length l)%nat) as [Hi|Hi].
  - rewrite (bool_decide_true (i < length l + 1)%nat) by lia.
    rewrite (bool_decide_true (i < length l)%nat) by done.
    by rewrite lookup_total_app_l.
  - rewrite (bool_decide_false (i < length l)%nat) by done. cbn [andb].
    destruct (decide (i = length l)) as [->|].
    + rewrite list_lookup_total_middle by done.
      rewrite (bool_decide_true ("" = "")) by done. apply andb_false_r.
    + by rewrite bool_decide_false by lia.
Qed.

Lemma segment_snoc (l : list string) (i : nat) :
  (i < length l)%nat -> (l ++ [""]) !!! i = l !!! i.
Proof. intros. by rewrite lookup_total_app_l. Qed.

Lemma segment_snoc_end (l : list string) (i : nat) :
  (length l <= i)%nat -> (l ++ [""]) !!! i = "" /\ l !!! i = "".
Proof.
  intros Hi. rewrite !list_lookup_total_alt. split.
  - destruct (decide (i = length l)) as [->|].
    + by rewrite list_lookup_middle.
    + by rewrite lookup_ge_None_2 by (rewrite length_app; simpl; lia).
  - by rewrite lookup_ge_None_2.
Qed.

Lemma segment_snoc_any (l : list string) (i : nat) :
  (l ++ [""]) !!! i = l !!! i.
Proof.
  destruct (decide (i < length l)%nat); [by apply segment_snoc|].
  destruct (segment_snoc_end l i) as [-> ->]; [lia|done].
Qed.

(** X1.  A slash at the end of the raw path changes nothing but the list of
    segments, which gets an empty segment at its end: the key, the id and
    the gaps are those of the path without it. *)
Theorem resolvePath_trailing_slash (r : Router) (method rawPath : string) :
  let res := resolvePath r method rawPath in
  resolvePath r method (rawPath +:+ "/")
  = (routeKey res, routeId res, res.1.2 ++ [""], res.2).
Proof.
  unfold resolvePath, routeKey, routeId.
  change (rawPath +:+ "/") with (rawPath +:+ String "/" "").
  rewrite (Split_app_sep "/"). change (Split "" "/") with [""].
  set (segments := Split rawPath "/").
  assert (0 < length segments)%nat as Hlen.
  { pose proof (Split_length "/" rawPath). unfold segments. lia. }
  rewrite !segment_test_snoc, !segment_snoc_any.
  assert ((if bool_decide (2 <= length (segments ++ [""]))%nat
           then segments !!! 1%nat else "")
          = if bool_decide (2 <= length segments)%nat
            then segments !!! 1%nat else "") as ->.
  { rewrite length_app. cbn [length].
    rewrite bool_decide_true by lia. case_bool_decide; [done|].
    by destruct (segment_snoc_end segments 1) as [_ ->]; [lia|]. }
  destruct (ParseInt (if bool_decide _ then _ else _)) as [id1 [e1|]];
    cbn [fst snd].
  - destruct (gapsMap r !! (segments !!! 0%nat)) as [g|];
      cbn [default from_option];
      repeat match goal with
        | |- context [if ?b && ?c then _ else _] => destruct (b && c)
        | |- context [ParseInt ?s] => destruct (ParseInt s) as [? [?|]]
        end; reflexivity.
  - by destruct (_ && _).
Qed.

(** ** The decimal text of an id *)

Lemma pretty_N_char_digit (d : N) :
  (d < 10)%N ->
  isDigit (pretty_N_char d) = true
  /\ byte_of (pretty_N_char d) - byte_of "0" = Z.of_N d.
Proof.
  intros Hd. destruct d as [|p]; [done|].
  do 4 (try destruct p as [p|p|]); try done; lia.
Qed.

Lemma parseUintLoop_digit (d : N) (s : string) (n : Z) :
  (d < 10)%N -> 0 <= n -> n * 10 + Z.of_N d <= maxUint64 ->
  parseUintLoop (String (pretty_N_char d) s) n
  = parseUintLoop s (n * 10 + Z.of_N d).
Proof.
  intros Hd Hn Hmax. destruct (pretty_N_char_digit d Hd) as [Hdigit Hvalue].
  cbn [parseUintLoop]. rewrite Hdigit, Hvalue. cbn [negb].
  unfold maxUint64 in *.
  destruct (Z.leb_spec ((2 ^ 64 - 1) `div` 10 + 1) n) as [Hcut|_].
  { change ((2 ^ 64 - 1) `div` 10 + 1) with 1844674407370955162 in Hcut. lia. }
  rewrite Z.mod_small by lia.
  destruct (Z.ltb_spec (n * 10 + Z.of_N d) (n * 10)); [lia|].
  destruct (Z.ltb_spec (2 ^ 64 - 1) (n * 10 + Z.of_N d)); [lia|]. done.
Qed.

Lemma decimal_step (np q d x m : Z) :
  0 <= np -> 0 <= q -> 0 <= d -> x = 10 * q + d -> np * 10 + x <= m ->
  np + q <= m /\ (np + q) * 10 + d <= m /\ (np + q) * 10 + d = np * 10 + x.
Proof. lia. Qed.

(** The digits [pretty] writes for [x] are read back by the digit loop, and
    the first of them is a digit. *)
Lemma parseUintLoop_pretty_go (x : N) :
  (0 < x)%N ->
  exists p : Z,
    0 < p
    /\ (forall s, exists c rest,
          pretty_N_go x s = String c rest /\ isDigit c = true)
    /\ forall s n,
         0 <= n -> n * p + Z.of_N x <= maxUint64 ->
         parseUintLoop (pretty_N_go x s) n = parseUintLoop s (n * p + Z.of_N x).
Proof.
  induction (N.lt_wf_0 x) as [x _ IH]. intros Hx.
  assert (x `mod` 10 < 10)%N as Hd by (by apply N.mod_lt).
  pose proof (N.div_mod x 10 ltac:(done)) as Hdiv.
  destruct (decide (x `div` 10 = 0)%N) as [Hq|Hq].
  - exists 10. split; [lia|]. split.
    + intros s. rewrite pretty_N_go_step, Hq, pretty_N_go_0 by done.
      do 2 eexists. split; [done|]. by apply pretty_N_char_digit.
    + intros s n Hn Hmax.
      rewrite pretty_N_go_step, Hq, pretty_N_go_0 by done.
      rewrite parseUintLoop_digit by (done || lia). f_equal. lia.
  - destruct (IH (x `div` 10)%N) as (p & Hp & Hfirst & Hloop).
    { apply N.div_lt; lia. }
    { lia. }
    exists (p * 10). split; [lia|]. split.
    + intros s. rewrite pretty_N_go_step by done. apply Hfirst.
    + intros s n Hn Hmax. rewrite pretty_N_go_step by done.
      assert (0 <= n * p) as Hnp by nia.
      destruct (decimal_step (n * p) (Z.of_N (x `div` 10))
                  (Z.of_N (x `mod` 10)) (Z.of_N x) maxUint64)
        as (Hmax' & Hmax'' & Hvalue); [done|apply N2Z.is_nonneg|apply N2Z.is_nonneg| |by rewrite <- Z.mul_assoc|].
      { rewrite Hdiv at 1. by rewrite N2Z.inj_add, N2Z.inj_mul. }
      rewrite Hloop by done.
      rewrite parseUintLoop_digit
        by (done || (apply Z.add_nonneg_nonneg; [done|apply N2Z.is_nonneg])).
      by rewrite Hvalue, Z.mul_assoc.
Qed.

Lemma ParseUint_pretty (p : positive) :
  Z.pos p <= maxUint64 ->
  ParseUint (pretty (N.pos p)) = (Z.pos p, None)
  /\ exists c rest, pretty (N.pos p) = String c rest /\ isDigit c = true.
Proof.
  intros Hmax.
  destruct (parseUintLoop_pretty_go (N.pos p)) as (q & Hq & Hfirst & Hloop);
    [done|].
  change (pretty (N.pos p)) with (pretty_N_go (N.pos p) "").
  split; [|apply Hfirst].
  destruct (Hfirst "") as (c & rest & Hgo & _).
  unfold ParseUint. rewrite Hgo, <- Hgo.
  rewrite Hloop by (done || lia). done.
Qed.

Lemma isDigit_not_sign (c : ascii) :
  isDigit c = true -> c <> "+"%char /\ c <> "-"%char.
Proof. intros Hc. split; intros ->; discriminate Hc. Qed.

(** [strconv.ParseInt] reads back the decimal text of every [int64]. *)
Lemma ParseInt_pretty (n : Z) :
  minInt64 <= n <= maxInt64 -> ParseInt (pretty n) = (n, None).
Proof.
  unfold minInt64, maxInt64. intros [Hmin Hmax]. destruct n as [|p|p].
  - reflexivity.
  - change (pretty (Z.pos p)) with (pretty (N.pos p)).
    destruct (ParseUint_pretty p) as (Hparse & c & rest & Htext & Hc).
    { unfold maxUint64. lia. }
    rewrite Htext in Hparse |- *. unfold ParseInt.
    destruct (isDigit_not_sign c Hc) as [Hplus Hminus].
    rewrite !decide_False by done. rewrite Hparse.
    destruct (Z.leb_spec (2 ^ 63) (Z.pos p)); [lia|done].
  - change (pretty (Z.neg p)) with ("-" +:+ pretty (N.pos p)).
    destruct (ParseUint_pretty p) as (Hparse & _).
    { unfold maxUint64. lia. }
    cbn [String.append ParseInt].
    rewrite decide_False, decide_True by done. rewrite Hparse.
    cbn [negb andb].
    destruct (Z.ltb_spec (2 ^ 63) (Z.pos p)); [lia|done].
Qed.

Lemma pretty_no_slash (n : Z) : hasByte "/" (pretty n) = false.
Proof.
  assert (forall x s, hasByte "/" s = false ->
                      hasByte "/" (pretty_N_go x s) = false) as Hgo.
  { intros x. induction (N.lt_wf_0 x) as [x _ IH]. intros s Hs.
    destruct (decide (0 < x)%N) as [Hx|Hx].
    - rewrite pretty_N_go_step by done. apply IH; [apply N.div_lt; lia|].
      assert (x `mod` 10 < 10)%N as Hd by (by apply N.mod_lt).
      destruct (pretty_N_char_digit _ Hd) as [Hdigit _].
      cbn [hasByte]. rewrite decide_False; [done|].
      intros Hc. by rewrite Hc in Hdigit.
    - replace x with 0%N by lia. by rewrite pretty_N_go_0. }
  destruct n as [|p|p]; [done| |].
  - change (pretty (Z.pos p)) with (pretty_N_go (N.pos p) ""). by apply Hgo.
  - change (pretty (Z.neg p)) with ("-" +:+ pretty_N_go (N.pos p) "").
    cbn [String.append hasByte]. rewrite decide_False by done. by apply Hgo.
Qed.

Lemma pretty_not_empty (n : Z) : pretty n <> "".
Proof.
  destruct n as [|p|p]; [done| |done].
  change (pretty (Z.pos p)) with (pretty_N_go (N.pos p) "").
  destruct (parseUintLoop_pretty_go (N.pos p)) as (_ & _ & Hfirst & _); [done|].
  by destruct (Hfirst "") as (c & rest & -> & _).
Qed.

(** ** The id of a request *)

(** The result of [resolvePath] when the second segment is an integer. *)
Lemma resolvePath_id_segment (r : Router)
    (method seg0 seg1 m : string) (n : Z) :
  ParseInt seg1 = (n, None) ->
  hasByte "/" seg0 = false -> hasByte "/" seg1 = false ->
  hasByte "/" m = false ->
  resolvePath r method (seg0 +:+ "/" +:+ seg1 +:+ "/" +:+ m)
  = (resolvedVerb method +:+ " /" +:+ seg0 +:+ "/:id"
     +:+ (if bool_decide (m = "") then "" else "/" +:+ m),
     n, [seg0; seg1; m], None).
Proof.
  intros Hn Hseg0 Hseg1 Hm. unfold resolvePath, resolvedVerb.
  change (seg0 +:+ "/" +:+ seg1 +:+ "/" +:+ m)
    with (seg0 +:+ String "/" (seg1 +:+ String "/" m)).
  rewrite !(Split_app_sep "/"), !(Split_no_sep "/") by done.
  cbn [app length lookup_total list_lookup_total].
  rewrite bool_decide_true by lia. rewrite Hn.
  rewrite bool_decide_true by lia. cbn [andb].
  destruct (bool_decide (m = "")); cbn [negb];
    by rewrite ?str_app_assoc, ?str_app_nil_r.
Qed.

(** X2.  The decimal text of any [int64], negative ones included, in the second
    segment comes back as the id, and the key gets the placeholder in its
    place; the gaps are not looked up. *)
Theorem resolvePath_id_resource_value (r : Router)
    (method seg0 m : string) (n : Z) :
  minInt64 <= n <= maxInt64 ->
  hasByte "/" seg0 = false -> hasByte "/" m = false ->
  resolvePath r method (seg0 +:+ "/" +:+ pretty n +:+ "/" +:+ m)
  = (resolvedVerb method +:+ " /" +:+ seg0 +:+ "/:id"
     +:+ (if bool_decide (m = "") then "" else "/" +:+ m),
     n, [seg0; pretty n; m], None).
Proof.
  intros Hn Hseg0 Hm.
  apply resolvePath_id_segment;
    [by apply ParseInt_pretty|done|apply pretty_no_slash|done].
Qed.

Lemma resolvePath_id_resource_value_witness :
  resolvePath emptyRouter "PUT" ("users" +:+ "/" +:+ pretty (-42) +:+ "/" +:+ "name")
  = ("PUT /users/:id/name", -42, ["users"; "-42"; "name"], None).
Proof.
  apply (resolvePath_id_resource_value emptyRouter "PUT" "users" "name" (-42));
    [unfold minInt64, maxInt64; lia|reflexivity|reflexivity].
Defined.

(** The result of [resolvePath] when the second segment is not an integer:
    [fill] stands where the gaps of the first segment are expected, and
    [tail] is what follows. *)
Lemma resolvePath_gap_result (r : Router) (method rawPath : string)
    seg0 fill tail gopt id e :
  Split rawPath "/" = seg0 :: fill ++ tail ->
  ParseInt (hd "" (fill ++ tail)) = (id, Some e) ->
  gapsMap r !! seg0 = gopt ->
  length fill = length (default [] gopt) ->
  resolvePath r method rawPath
  = (resolvedVerb method +:+ " /" +:+ seg0
     +:+ match gopt with Some g => "/" +:+ Join g "/" | None => "" end
     +:+ tailKey tail,
     match tail with
     | _ :: i :: _ => if bool_decide (i = "") then id else (ParseInt i).1
     | _ => id
     end,
     seg0 :: fill ++ tail, gopt).
Proof.
  intros Hsplit Hparse Hgaps Hfill. unfold resolvePath, resolvedVerb.
  rewrite Hsplit. change ((seg0 :: fill ++ tail) !!! 0%nat) with seg0.
  assert ((if bool_decide (2 <= length (seg0 :: fill ++ tail))%nat
           then (seg0 :: fill ++ tail) !!! 1%nat else "")
          = hd "" (fill ++ tail)) as ->.
  { destruct (fill ++ tail) as [|a l]; [done|].
    by rewrite bool_decide_true by (simpl; lia). }
  rewrite Hparse, Hgaps, <- Hfill.
  set (path1 := match gopt with Some g => _ +:+ "/" +:+ Join g "/" | None => _ end).
  assert (path1 = (if oneOf method ["POST"; "DETETE"; "PUT"] then method else "GET")
                  +:+ " /" +:+ seg0
                  +:+ match gopt with Some g => "/" +:+ Join g "/" | None => "" end)
    as Hpath1.
  { unfold path1. destruct gopt; by rewrite ?str_app_assoc, ?str_app_nil_r. }
  replace (length fill + 1)%nat with (length fill + 1 + 0)%nat by lia.
  replace (length fill + 1 + 0 + 1)%nat with (length fill + 1 + 1)%nat by lia.
  rewrite !lookup_total_behind.
  cbn [length]. rewrite length_app.
  destruct tail as [|m [|i tl]]; cbn [length tailKey].
  all: repeat first
         [ rewrite (bool_decide_true (_ < _)%nat) by (simpl; lia)
         | rewrite (bool_decide_false (_ < _)%nat) by (simpl; lia) ].
  all: cbn [lookup_total list_lookup_total andb].
  - by rewrite Hpath1, ?str_app_assoc, ?str_app_nil_r.
  - destruct (bool_decide (m = "")); cbn [negb];
      by rewrite Hpath1, ?str_app_assoc, ?str_app_nil_r.
  - destruct (bool_decide (m = "")), (bool_decide (i = "")); cbn [negb];
      try destruct (ParseInt i) as [id2 [e2|]]; cbn [fst];
      by rewrite Hpath1, ?str_app_assoc, ?str_app_nil_r.
Qed.

Lemma Split_Join_segments (l : list string) :
  l <> [] -> Forall (fun s => hasByte "/" s = false) l ->
  Split (Join l "/") "/" = l.
Proof. apply (Split_Join_words "/"). Qed.

(** X3.  The gap segments of a request are not compared with the gaps
    registered for the first segment: whatever stands in their place, so
    long as the segment behind the first is not an integer, the key is made
    of the registered gaps, and the segment that follows is the method. *)
Theorem resolvePath_gap_unchecked (r : Router) (method seg0 m : string)
    (g fill : list string) :
  gapsMap r !! seg0 = Some g ->
  length fill = length g ->
  Forall (fun s => hasByte "/" s = false) (seg0 :: fill ++ [m]) ->
  (ParseInt (hd "" (fill ++ [m]))).2 <> None ->
  m <> "" ->
  routeKey (resolvePath r method (Join (seg0 :: fill ++ [m]) "/"))
  = resolvedVerb method +:+ " /" +:+ seg0 +:+ "/" +:+ Join g "/" +:+ "/" +:+ m.
Proof.
  intros Hgaps Hfill Hsegs Hparse Hm.
  destruct (ParseInt (hd "" (fill ++ [m]))) as [id [e|]] eqn:Hhd; [|done].
  rewrite (resolvePath_gap_result r method _ seg0 fill [m] (Some g) id e);
    [|by apply Split_Join_segments|done..].
  unfold routeKey. cbn [fst tailKey].
  rewrite bool_decide_false by done.
  by rewrite ?str_app_assoc, ?str_app_nil_r.
Qed.

Lemma resolvePath_gap_unchecked_witness :
  exists r,
    NewRouter [UsersProfile'] = Some r
    /\ routeKey (resolvePath r "GET" (Join ("users" :: ["settings"] ++ ["name"]) "/"))
       = "GET /users/profile/name".
Proof.
  eexists. split; [reflexivity|].
  apply (resolvePath_gap_unchecked _ "GET" "users" "name" ["profile"] ["settings"]);
    [by vm_compute|reflexivity|by repeat constructor|by vm_compute|done].
Defined.

(** X4.  An id method: behind the gaps and the method segment, the decimal text
    of any [int64] comes back as the id, and the key ends with the
    placeholder. *)
Theorem resolvePath_id_method_value (r : Router) (method seg0 m : string)
    (fill : list string) (n : Z) :
  minInt64 <= n <= maxInt64 ->
  length fill = length (default [] (gapsMap r !! seg0)) ->
  Forall (fun s => hasByte "/" s = false) (seg0 :: fill ++ [m]) ->
  (ParseInt (hd "" (fill ++ [m]))).2 <> None ->
  m <> "" ->
  let res := resolvePath r method (Join (seg0 :: fill ++ [m; pretty n]) "/") in
  routeKey res
  = resolvedVerb method +:+ " /" +:+ seg0
    +:+ match gapsMap r !! seg0 with
        | Some g => "/" +:+ Join g "/"
        | None => ""
        end
    +:+ "/" +:+ m +:+ "/:id"
  /\ routeId res = n.
Proof.
  intros Hn Hfill Hsegs Hparse Hm res.
  assert (hd "" (fill ++ [m; pretty n]) = hd "" (fill ++ [m])) as Hhd
    by (by destruct fill).
  destruct (ParseInt (hd "" (fill ++ [m]))) as [id [e|]] eqn:Hhd'; [|done].
  unfold res.
  rewrite (resolvePath_gap_result r method _ seg0 fill [m; pretty n]
             (gapsMap r !! seg0) id e); [|
    |by rewrite Hhd|done..].
  - unfold routeKey, routeId. cbn [fst snd tailKey].
    rewrite bool_decide_false by done.
    rewrite (bool_decide_false (pretty n = "")) by apply pretty_not_empty.
    rewrite ParseInt_pretty by done. cbn [fst].
    split; [|done]. by rewrite ?str_app_assoc, ?str_app_nil_r.
  - apply Split_Join_segments; [done|].
    change (seg0 :: fill ++ [m; pretty n])
      with ((seg0 :: fill) ++ [m] ++ [pretty n]).
    rewrite app_assoc. apply Forall_app. split; [done|].
    constructor; [apply pretty_no_slash|constructor].
Qed.

Lemma resolvePath_id_method_value_witness :
  let res := resolvePath emptyRouter "GET"
               (Join ("baz" :: [] ++ ["foo"; pretty 9223372036854775807]) "/") in
  routeKey res = "GET /baz/foo/:id" /\ routeId res = 9223372036854775807.
Proof.
  apply (resolvePath_id_method_value emptyRouter "GET" "baz" "foo" []
           9223372036854775807);
    [unfold minInt64, maxInt64; lia|reflexivity|by repeat constructor
    |by vm_compute|done].
Defined.

(** ** What the table holds *)

Lemma registrationsFrom_index v i methods key h :
  (key, h) ∈ registrationsFrom v i methods ->
  exists j methodType,
    h = (v, (i + j)%nat) /\ methods !! j = Some methodType
    /\ routeOf v methodType = Some key.
Proof.
  revert i. induction methods as [|m methods IH]; intros i; cbn [registrationsFrom].
  - by intros ?%elem_of_nil.
  - intros [Hin|Hin]%elem_of_app.
    + destruct (routeOf v m) as [k|] eqn:Hroute; [|by apply elem_of_nil in Hin].
      apply list_elem_of_singleton in Hin as [= -> ->].
      exists 0%nat, m. split; [f_equal; lia|done].
    + destruct (IH _ Hin) as (j & m' & -> & Hm' & Hroute).
      exists (S j), m'. split; [f_equal; lia|done].
Qed.

Lemma registrations_index resources key h :
  (key, h) ∈ registrations resources ->
  exists v j methodType,
    v ∈ resources /\ h = (v, j) /\ methodSet v !! j = Some methodType
    /\ routeOf v methodType = Some key.
Proof.
  unfold registrations. intros (v & Hin & Hv)%list_elem_of_bind.
  destruct (registrationsFrom_index _ _ _ _ _ Hin) as (j & m & -> & Hm & Hroute).
  by exists v, j, m.
Qed.

(** What [validateMethod] accepts: a name that starts with an upper-case
    letter, the receiver and one parameter of type [*Context], no result. *)
Lemma validateMethod_true (methodType : Method) :
  validateMethod methodType = Some true ->
  (exists c rest, Name methodType = String c rest /\ isUpper c = true)
  /\ (exists receiver, ins (Type_ methodType) = [receiver; ContextPtr])
  /\ outs (Type_ methodType) = [].
Proof.
  unfold validateMethod, byteAt, NumIn, NumOut, In_, contextType.
  destruct methodType as [[|c rest] [ins outs]]; [done|]. cbn.
  destruct (_ || _) eqn:Hletter; [done|].
  apply orb_false_iff in Hletter as [Hlow Hhigh].
  repeat case_bool_decide; cbn; try done.
  destruct ins as [|receiver [|inType [|]]]; try done. cbn.
  case_bool_decide as Htype; [|done]. cbn. intros _. subst inType.
  split; [|split].
  - exists c, rest. split; [done|]. unfold isUpper.
    apply andb_true_iff. split; [apply Z.leb_le|apply Z.leb_le];
      apply Z.ltb_ge in Hlow, Hhigh; done.
  - by exists receiver.
  - by destruct outs.
Qed.

Lemma routeOf_valid v methodType key :
  routeOf v methodType = Some key -> validateMethod methodType = Some true.
Proof.
  unfold routeOf. destruct (resourcePath v ∅) as [[[? ?] ?]|]; [|done].
  by destruct (validateMethod methodType) as [[|]|].
Qed.

Lemma table_registrations resources r key h :
  Forall namedMethods resources ->
  NewRouter resources = Some r ->
  methodMap r !! key = Some h ->
  (key, h) ∈ registrations resources.
Proof.
  intros Hnamed Hrouter Hkey.
  destruct (registerResources_storeAll emptyRouter resources Hnamed)
    as (r' & Hr' & Hmap).
  unfold NewRouter in Hrouter. rewrite Hrouter in Hr'. injection Hr' as <-.
  rewrite Hmap, storeAll_lookup in Hkey. cbn [methodMap emptyRouter] in Hkey.
  rewrite lookup_empty in Hkey.
  destruct (lastRegistration key (registrations resources)) as [h'|] eqn:Hlast;
    [|done].
  injection Hkey as ->. by apply lastRegistration_elem.
Qed.

(** X5.  Every handler of the table is a method of one of the resources given
    to [NewRouter], of the index stored with it, and a method that
    [validateMethod] accepts: its name starts with an upper-case letter, it
    takes the receiver and one [*Context], and it returns nothing.  So the
    [Gap] method, a method with a result or with other parameters, is never
    a handler. *)
Theorem table_handlers_valid (resources : list Resource) (r : Router)
    (key : string) (v : Resource) (i : nat) :
  Forall namedMethods resources ->
  NewRouter resources = Some r ->
  methodMap r !! key = Some (v, i) ->
  v ∈ resources
  /\ exists methodType,
       methodSet v !! i = Some methodType
       /\ routeOf v methodType = Some key
       /\ (exists c rest, Name methodType = String c rest /\ isUpper c = true)
       /\ (exists receiver, ins (Type_ methodType) = [receiver; ContextPtr])
       /\ outs (Type_ methodType) = [].
Proof.
  intros Hnamed Hrouter Hkey.
  apply (table_registrations _ _ _ _ Hnamed Hrouter) in Hkey.
  destruct (registrations_index _ _ _ Hkey) as (v' & j & m & Hv & [= <- <-] & Hm & Hroute).
  split; [done|]. exists m. split; [done|]. split; [done|].
  by apply validateMethod_true, (routeOf_valid v _ key).
Qed.

Lemma table_handlers_valid_witness :
  exists r,
    NewRouter [UsersProfile'] = Some r
    /\ methodMap r !! "GET /users/profile/name" = Some (UsersProfile', 1%nat)
    /\ exists methodType,
         methodSet UsersProfile' !! 1%nat = Some methodType
         /\ routeOf UsersProfile' methodType = Some "GET /users/profile/name"
         /\ (exists c rest, Name methodType = String c rest /\ isUpper c = true)
         /\ (exists receiver, ins (Type_ methodType) = [receiver; ContextPtr])
         /\ outs (Type_ methodType) = [].
Proof.
  eexists. split; [reflexivity|].
  assert (methodMap (default emptyRouter (NewRouter [UsersProfile']))
            !! "GET /users/profile/name" = Some (UsersProfile', 1%nat)) as Hkey
    by (by vm_compute).
  split; [exact Hkey|].
  refine (proj2 (table_handlers_valid [UsersProfile'] _ _ _ _ _ _ Hkey));
    [repeat constructor; discriminate|reflexivity].
Defined.

(** The verb of a key: the text in front of its first space. *)
Lemma routeOf_verb v methodType key :
  routeOf v methodType = Some key ->
  exists verb rest,
    key = verb +:+ " /" +:+ rest /\ verb ∈ ["POST"; "GET"; "PUT"; "DELETE"].
Proof.
  unfold routeOf. destruct (resourcePath v ∅) as [[[resPath isId] ?]|]; [|done].
  destruct (validateMethod methodType) as [[|]|]; [|done..].
  rewrite methodRoute_specRouteKey. intros [= <-]. unfold specRouteKey.
  destruct (oneOf _ httpVerbs) eqn:Hverb.
  - do 2 eexists. split; [reflexivity|]. by apply verb_upper.
  - exists "GET". eexists. split; [reflexivity|]. set_solver.
Qed.

(** X6.  Every key of the table starts with one of the four verbs [POST], [GET],
    [PUT] and [DELETE], a space and a slash, whatever the names of the
    resources and of their methods are. *)
Theorem table_keys_verb (resources : list Resource) (r : Router)
    (key : string) (h : MethodValue) :
  Forall namedMethods resources ->
  NewRouter resources = Some r ->
  methodMap r !! key = Some h ->
  exists verb rest,
    key = verb +:+ " /" +:+ rest /\ verb ∈ ["POST"; "GET"; "PUT"; "DELETE"].
Proof.
  intros Hnamed Hrouter Hkey.
  apply (table_registrations _ _ _ _ Hnamed Hrouter) in Hkey.
  destruct (registrations_elem _ _ _ Hkey) as (v & m & _ & _ & Hroute).
  by apply (routeOf_verb v m).
Qed.

Lemma table_keys_verb_witness :
  exists r,
    NewRouter [Baz] = Some r
    /\ methodMap r !! "POST /baz/bar" = Some (Baz, 0%nat)
    /\ exists verb rest,
         "POST /baz/bar" = verb +:+ " /" +:+ rest
         /\ verb ∈ ["POST"; "GET"; "PUT"; "DELETE"].
Proof.
  eexists. split; [reflexivity|].
  assert (methodMap (default emptyRouter (NewRouter [Baz])) !! "POST /baz/bar"
          = Some (Baz, 0%nat)) as Hkey by (by vm_compute).
  split; [exact Hkey|].
  refine (table_keys_verb [Baz] _ _ _ _ _ Hkey);
    [repeat constructor; discriminate|reflexivity].
Defined.

(** ** The prefix [Get] *)

Lemma convertName_Get (c : ascii) (rest : string) :
  isUpper c = true ->
  convertName ("Get" +:+ String c rest)
  = "get" +:+ WordSeparator +:+ convertName (String c rest).
Proof.
  intros Hc. rewrite !convertName_snakeCase. unfold snakeCase.
  rewrite (snakeFrom_app true "Get") by done.
  cbn [snakeFrom negb andb]. by rewrite Hc.
Qed.

Lemma last_cons_not_nil {A} (x : A) (l : list A) : l <> [] -> last (x :: l) = last l.
Proof. by destruct l. Qed.

Lemma removelast_cons_not_nil {A} (x : A) (l : list A) :
  l <> [] -> removelast (x :: l) = x :: removelast l.
Proof. by destruct l. Qed.

Lemma specRouteKey_Get resPath isIdResource (c : ascii) (rest : string) :
  isUpper c = true ->
  hd "" (Split (convertName (String c rest)) WordSeparator) ∉ httpVerbs ->
  specRouteKey true resPath isIdResource ("Get" +:+ String c rest)
  = specRouteKey true resPath isIdResource (String c rest).
Proof.
  intros Hc Hword.
  assert (Split (convertName ("Get" +:+ String c rest)) WordSeparator
          = "get" :: Split (convertName (String c rest)) WordSeparator) as Hsplit.
  { rewrite convertName_Get by done. unfold WordSeparator.
    by rewrite (Split_app_sep' "_"). }
  unfold specRouteKey. rewrite Hsplit.
  pose proof (Split_not_nil "_" (convertName (String c rest))) as Hnil.
  change (String "_" "") with WordSeparator in Hnil.
  set (words := Split (convertName (String c rest)) WordSeparator) in *.
  assert (oneOf (hd "" words) httpVerbs = false) as Hno.
  { unfold oneOf. by rewrite bool_decide_false. }
  cbn [app hd]. change (oneOf "get" httpVerbs) with true. rewrite !Hno.
  unfold isIdMethodName. cbn [andb length].
  rewrite last_cons_not_nil by done.
  assert (bool_decide (3 <= S (length words))%nat
          = bool_decide (2 <= length words)%nat) as ->.
  { apply bool_decide_ext. lia. }
  destruct (negb isIdResource && _ && _).
  - by rewrite removelast_cons_not_nil by done.
  - done.
Qed.

(** X7.  A method may carry the prefix [Get] or leave it out: [GetX] and [X] get
    the same key, when [X] starts with an upper-case letter and its first
    word is not itself a verb.  A resource that has both keeps one handler
    under the key. *)
Theorem routeOf_Get_prefix (v : Resource) (t : FuncType) (X : string) :
  (exists c rest, X = String c rest /\ isUpper c = true) ->
  hd "" (Split (convertName X) WordSeparator) ∉ httpVerbs ->
  routeOf v {| Name := "Get" +:+ X; Type_ := t |}
  = routeOf v {| Name := X; Type_ := t |}.
Proof.
  intros (c & rest & -> & Hc) Hword. unfold routeOf.
  destruct (resourcePath v ∅) as [[[resPath isIdResource] gaps]|]; [|done].
  assert (validateMethod {| Name := "Get" +:+ String c rest; Type_ := t |}
          = validateMethod {| Name := String c rest; Type_ := t |}) as ->.
  { unfold validateMethod, byteAt. cbn.
    unfold isUpper in Hc. apply andb_true_iff in Hc as [Hlow Hhigh].
    apply Z.leb_le in Hlow, Hhigh.
    destruct (Z.ltb_spec (byte_of c) (byte_of "A")); [lia|].
    destruct (Z.ltb_spec (byte_of "Z") (byte_of c)); [lia|]. done. }
  destruct (validateMethod _) as [[|]|]; [|done..].
  rewrite !methodRoute_specRouteKey. cbn [Name].
  by rewrite specRouteKey_Get.
Qed.

Lemma routeOf_Get_prefix_witness :
  routeOf Users (contextMethod ("Get" +:+ "ImageUrl"))
  = routeOf Users (contextMethod "ImageUrl")
  /\ routeOf Users (contextMethod "ImageUrl") = Some "GET /users/image_url".
Proof.
  split; [|reflexivity].
  apply (routeOf_Get_prefix Users _ "ImageUrl").
  - exists "I"%char, "mageUrl". split; reflexivity.
  - apply (bool_decide_eq_false_1 _). reflexivity.
Defined.

(** ** Gaps *)

Lemma registerResource_gapsMap router v router' :
  registerResource router v = Some router' ->
  (gapsMap router' = gapsMap router
   /\ ((exists stem, stem <> "" /\ convertName (typeName v) = stem +:+ "_id")
       \/ Gap v = None))
  \/ exists gap,
       Gap v = Some gap
       /\ (forall stem, stem <> "" -> convertName (typeName v) <> stem +:+ "_id")
       /\ gapsMap router'
          = <[convertName (typeName v) := Split gap "/"]> (gapsMap router).
Proof.
  unfold registerResource.
  destruct (resourcePath_cases v) as [(stem & Hstem & Hne & Hpath)|[Hno Hpath]];
    rewrite Hpath; cbn [mbind option_bind];
    destruct (registerMethods _ _ _ _ _ _) as [table|]; [|done| |done];
    intros [= <-]; cbn [gapsMap].
  - left. split; [done|]. left. by exists stem.
  - destruct (Gap v) as [gap|].
    + right. by exists gap.
    + left. split; [done|]. by right.
Qed.

Lemma registerResources_gaps_entry router resources r k g :
  registerResources router resources = Some r ->
  gapsMap r !! k = Some g ->
  gapsMap router !! k = Some g
  \/ exists v gap,
       v ∈ resources /\ Gap v = Some gap
       /\ convertName (typeName v) = k /\ g = Split gap "/"
       /\ forall stem, stem <> "" -> k <> stem +:+ "_id".
Proof.
  revert router. induction resources as [|u resources IH]; intros router.
  - intros [= <-] Hk. by left.
  - cbn [registerResources]. intros Hreg Hk.
    destruct (registerResource router u) as [router1|] eqn:Hu; [|done].
    cbn [mbind option_bind] in Hreg.
    destruct (IH _ Hreg Hk) as [Hk1|(v & gap & Hv & Hgap & Hname & Hg & Hid)].
    + destruct (registerResource_gapsMap _ _ _ Hu)
        as [[Hsame _]|(gap & Hgap & Hid & Hins)].
      * left. by rewrite <- Hsame.
      * rewrite Hins in Hk1.
        destruct (decide (convertName (typeName u) = k)) as [Heq|Hne].
        -- rewrite Heq, lookup_insert_eq in Hk1. injection Hk1 as <-.
           right. exists u, gap. rewrite <- Heq.
           repeat split; [set_solver|done..].
        -- rewrite lookup_insert_ne in Hk1 by done. by left.
    + right. exists v, gap. repeat split; [set_solver|done..].
Qed.

(** X8.  The gaps map after [NewRouter] has an entry only under the converted
    type name of a resource that has a [Gap] method and is not an id
    resource; the entry is the gap of such a resource, split at the
    slashes, and it is never an empty list. *)
Theorem gapsMap_entries (resources : list Resource) (r : Router)
    (k : string) (g : list string) :
  NewRouter resources = Some r ->
  gapsMap r !! k = Some g ->
  g <> []
  /\ exists v gap,
       v ∈ resources /\ Gap v = Some gap
       /\ convertName (typeName v) = k /\ g = Split gap "/"
       /\ forall stem, stem <> "" -> k <> stem +:+ "_id".
Proof.
  intros Hrouter Hk.
  destruct (registerResources_gaps_entry _ _ _ _ _ Hrouter Hk)
    as [Hempty|(v & gap & Hv & Hgap & Hname & -> & Hid)].
  - cbn [gapsMap emptyRouter] in Hempty. by rewrite lookup_empty in Hempty.
  - split; [apply (Split_not_nil "/")|]. by exists v, gap.
Qed.

Lemma gapsMap_entries_witness :
  exists r,
    NewRouter [Users; UsersProfile'] = Some r
    /\ gapsMap r !! "users" = Some ["profile"]
    /\ exists v gap,
         v ∈ [Users; UsersProfile'] /\ Gap v = Some gap
         /\ convertName (typeName v) = "users" /\ ["profile"] = Split gap "/"
         /\ forall stem, stem <> "" -> "users" <> stem +:+ "_id".
Proof.
  eexists. split; [reflexivity|].
  assert (gapsMap (default emptyRouter (NewRouter [Users; UsersProfile']))
            !! "users" = Some ["profile"]) as Hk by (by vm_compute).
  split; [exact Hk|].
  refine (proj2 (gapsMap_entries [Users; UsersProfile'] _ _ _ _ Hk)).
  reflexivity.
Defined.

(** X9.  An id resource takes no gap: when the type name is a prefix that is
    not empty followed by [Id], a [Gap] method changes neither the keys of
    the methods nor the gaps map. *)
Theorem id_resource_ignores_Gap (v : Resource) (X : string) (router : Router) :
  typeName v = X +:+ "Id" -> X <> "" -> namedMethods v ->
  (forall methodType, routeOf v methodType = routeOf (withoutGap v) methodType)
  /\ exists router',
       registerResource router v = Some router'
       /\ gapsMap router' = gapsMap router.
Proof.
  intros Hname HX Hnamed. split.
  - intros methodType. unfold routeOf.
    by rewrite (resourcePath_Id v X), (resourcePath_Id (withoutGap v) X).
  - destruct (registerResource_spec router v Hnamed)
      as (resPath & isIdResource & gaps' & Hpath & Hreg).
    rewrite (resourcePath_Id v X) in Hpath by done. injection Hpath as <- <- <-.
    eexists. split; [exact Hreg|done].
Qed.

Lemma id_resource_ignores_Gap_witness :
  let v := {| addr := 8; typeName := "UsersId";
              methodSet := [gapMethod; contextMethod "Name"];
              Gap := Some "profile" |} in
  routeOf v (contextMethod "Name") = Some "GET /users/:id/name"
  /\ (forall methodType, routeOf v methodType = routeOf (withoutGap v) methodType)
  /\ exists router',
       registerResource emptyRouter v = Some router'
       /\ gapsMap router' = gapsMap emptyRouter.
Proof.
  intros v. split; [reflexivity|].
  apply (id_resource_ignores_Gap v "Users" emptyRouter);
    [reflexivity|discriminate|repeat constructor; discriminate].
Defined.

(** ** The listing of the handled paths *)

Lemma byte_of_inj (x y : ascii) : byte_of x = byte_of y -> x = y.
Proof.
  unfold byte_of. intros H%N2Z.inj.
  by rewrite <- (ascii_N_embedding x), <- (ascii_N_embedding y), H.
Qed.

Lemma stringLess_cons x a y b :
  stringLess (String x a) (String y b)
  = (byte_of x <? byte_of y) || ((byte_of x =? byte_of y) && stringLess a b).
Proof. reflexivity. Qed.

Ltac order_bytes :=
  repeat match goal with
    | H : context [(?x <? ?y)] |- _ => destruct (Z.ltb_spec x y)
    | |- context [(?x <? ?y)] => destruct (Z.ltb_spec x y)
    | H : context [(?x =? ?y)] |- _ => destruct (Z.eqb_spec x y)
    | |- context [(?x =? ?y)] => destruct (Z.eqb_spec x y)
    end.

Lemma notAfter_total : Total notAfter.
Proof.
  intros a. unfold notAfter. induction a as [|x a IH]; intros [|y b]; auto.
  rewrite !stringLess_cons. destruct (IH b) as [H|H]; rewrite H;
    order_bytes; cbn; auto; lia.
Qed.

Lemma notAfter_trans : Transitive notAfter.
Proof.
  intros a. unfold notAfter. induction a as [|x a IH]; intros [|y b] [|z c];
    try done.
  rewrite !stringLess_cons. intros Hab Hbc.
  destruct (stringLess b a) eqn:Hba, (stringLess c b) eqn:Hcb;
    order_bytes; cbn in *; try done; try lia; by apply (IH b c).
Qed.

Lemma notAfter_antisym : AntiSymm (=) notAfter.
Proof.
  intros a. unfold notAfter. induction a as [|x a IH]; intros [|y b];
    try done.
  rewrite !stringLess_cons. intros Hab Hba.
  destruct (stringLess b a) eqn:Hba', (stringLess a b) eqn:Hab';
    order_bytes; cbn in *; try done; try lia.
  f_equal; [by apply byte_of_inj|by apply IH].
Qed.

#[local] Existing Instances notAfter_total notAfter_trans notAfter_antisym.

Lemma sortStrings_sorted (l : list string) : Sorted notAfter (sortStrings l).
Proof. apply (Sorted_merge_sort notAfter). Qed.

Lemma sortStrings_Permutation (l : list string) : sortStrings l ≡ₚ l.
Proof. apply (merge_sort_Permutation notAfter). Qed.

Lemma sortStrings_unique (l1 l2 : list string) :
  l1 ≡ₚ l2 -> sortStrings l1 = sortStrings l2.
Proof.
  intros Hperm. apply (Sorted_unique notAfter); try apply sortStrings_sorted.
  by rewrite !sortStrings_Permutation.
Qed.

Lemma mapM_Permutation {A B} (f : A -> option B) (l1 l2 : list A) :
  l1 ≡ₚ l2 ->
  match mapM f l1, mapM f l2 with
  | Some k1, Some k2 => k1 ≡ₚ k2
  | None, None => True
  | _, _ => False
  end.
Proof.
  induction 1 as [|x l1 l2 _ IH|x y l|l1 l2 l3 _ IH1 _ IH2].
  - by cbn.
  - cbn. destruct (f x); cbn; [|done].
    destruct (mapM f l1), (mapM f l2); cbn; try done. by constructor.
  - cbn. destruct (f x), (f y); cbn; try done.
    destruct (mapM f l); cbn; [|done]. constructor.
  - destruct (mapM f l1), (mapM f l2), (mapM f l3); try done. by etrans.
Qed.

(** X10.  The listing does not depend on the order in which the [range] over the
    map meets the keys: any two orders of the same keys give the same
    text, or panic both. *)
Theorem HandledPaths_order (keys1 keys2 : list string) (r : Router)
    (withBasePath : bool) :
  keys1 ≡ₚ keys2 ->
  HandledPathsIn keys1 r withBasePath = HandledPathsIn keys2 r withBasePath.
Proof.
  intros Hperm. unfold HandledPathsIn.
  destruct (if withBasePath then _ else _) as [basePath|]; [|done].
  cbn [mbind option_bind].
  pose proof (mapM_Permutation (handledPath basePath) _ _ Hperm) as Hpaths.
  destruct (mapM _ keys1) as [k1|], (mapM _ keys2) as [k2|]; try done.
  cbn [mbind option_bind]. by rewrite (sortStrings_unique k1 k2).
Qed.

Lemma HandledPaths_order_witness :
  HandledPathsIn ["POST /baz/bar"; "GET /users/image_url"] emptyRouter true
  = HandledPathsIn ["GET /users/image_url"; "POST /baz/bar"] emptyRouter true
  /\ HandledPathsIn ["GET /users/image_url"; "POST /baz/bar"] emptyRouter true
     = Some ("GET /users/image_url" +:+ newline +:+ "POST /baz/bar").
Proof.
  split; [|reflexivity]. apply HandledPaths_order. apply Permutation_swap.
Defined.

Lemma TrimSuffix_total (s suffix : string) :
  exists t, TrimSuffix s suffix = Some t /\ (t = s \/ s = t +:+ suffix).
Proof.
  unfold TrimSuffix, HasSuffix.
  destruct (bool_decide (len suffix <= len s)) eqn:Hlen; cbn [andb];
    [|exists s; by split; [|left]].
  apply bool_decide_eq_true in Hlen.
  case_bool_decide as Hsuffix; [|exists s; by split; [|left]].
  destruct (slice_at s (len s - len suffix)) as (a & b & Hs & _ & Hto & Hfrom).
  { pose proof (len_nonneg suffix). lia. }
  exists a. split; [done|]. right. congruence.
Qed.

Lemma registerResources_config router resources r :
  registerResources router resources = Some r -> config r = config router.
Proof.
  revert router. induction resources as [|v resources IH]; intros router.
  - by intros [= <-].
  - cbn [registerResources]. unfold registerResource.
    destruct (resourcePath v (gapsMap router)) as [[[resPath isId] gaps]|];
      [|done].
    cbn [mbind option_bind].
    destruct (registerMethods _ _ _ _ _ _) as [table|]; [|done].
    cbn [mbind option_bind]. intros Hreg. by rewrite (IH _ Hreg).
Qed.

Lemma handledPath_verb (basePath verb rest : string) :
  verb ∈ ["POST"; "GET"; "PUT"; "DELETE"] ->
  is_Some (handledPath basePath (verb +:+ " /" +:+ rest)).
Proof.
  intros Hverb. unfold handledPath.
  change (verb +:+ " /" +:+ rest) with (verb +:+ String " " ("/" +:+ rest)).
  rewrite (Split_app_sep " ").
  pose proof (Split_not_nil " " ("/" +:+ rest)) as Hnil.
  destruct (Split ("/" +:+ rest) " ") as [|w ws]; [done|].
  assert (Split verb " " = [verb]) as ->.
  { set_unfold. destruct Hverb as [->|[->|[->|[->|[]]]]]; reflexivity. }
  by cbn.
Qed.

(** X11.  On a table built by [NewRouter], whatever the names of the resources
    and of the methods and whatever [BasePath] is set to afterwards,
    [HandledPaths] does not panic: every key has the two parts its loop
    reads.  With the [BasePath] that [NewRouter] sets, the listing is the
    same with and without the base path. *)
Theorem HandledPaths_NewRouter (resources : list Resource) (r : Router) :
  Forall namedMethods resources ->
  NewRouter resources = Some r ->
  (forall basePath withBasePath,
     is_Some (HandledPaths (setBasePath r basePath) withBasePath))
  /\ HandledPaths r true = HandledPaths r false.
Proof.
  intros Hnamed Hrouter. split.
  - intros basePath withBasePath. unfold HandledPaths, HandledPathsIn.
    cbn [setBasePath methodMap config BasePath].
    assert (exists t, (if withBasePath then TrimSuffix basePath "/" else Some "")
                      = Some t) as [t ->].
    { destruct withBasePath; [|by eexists].
      destruct (TrimSuffix_total basePath "/") as (t & -> & _). by eexists. }
    cbn [mbind option_bind].
    assert (is_Some (mapM (handledPath t) (map_to_list (methodMap r)).*1))
      as [paths ->]; [|done].
    apply mapM_is_Some, Forall_forall. intros k Hk.
    apply list_elem_of_fmap in Hk as ([k' h] & -> & Hk).
    apply elem_of_map_to_list in Hk. cbn [fst].
    apply (table_registrations _ _ _ _ Hnamed Hrouter) in Hk.
    destruct (registrations_elem _ _ _ Hk) as (v & m & _ & _ & Hroute).
    destruct (routeOf_verb v m k' Hroute) as (verb & rest & -> & Hverb).
    by apply handledPath_verb.
  - unfold HandledPaths, HandledPathsIn.
    by rewrite (registerResources_config _ _ _ Hrouter).
Qed.

Lemma HandledPaths_NewRouter_witness :
  exists r,
    NewRouter [Users; UsersId; Baz] = Some r
    /\ HandledPaths (setBasePath r "/api/v1/") true
       = Some ("GET /api/v1/users/:id/image_url" +:+ newline
               +:+ "GET /api/v1/users/image_url" +:+ newline
               +:+ "POST /api/v1/baz/bar")
    /\ (forall basePath withBasePath,
          is_Some (HandledPaths (setBasePath r basePath) withBasePath))
    /\ HandledPaths r true = HandledPaths r false.
Proof.
  eexists. split; [reflexivity|]. split; [by vm_compute|].
  apply (HandledPaths_NewRouter [Users; UsersId; Baz]);
    [repeat constructor; discriminate|reflexivity].
Defined.

Lemma handledPath_two_parts (k verb path : string) :
  Split k " " = [verb; path] -> handledPath "" k = Some k.
Proof.
  intros Hsplit. unfold handledPath. rewrite Hsplit. cbn.
  rewrite <- (Join_Split " " k), Hsplit. reflexivity.
Qed.

(** X12.  Without the base path, the listing is the keys of the table, one on
    each line, in increasing order, so long as no key has a space beyond
    the one behind its verb. *)
Theorem HandledPaths_sorted_keys (r : Router) :
  (forall k h, methodMap r !! k = Some h ->
               exists verb path, Split k " " = [verb; path]) ->
  exists lines,
    HandledPaths r false = Some (Join lines newline)
    /\ lines ≡ₚ (map_to_list (methodMap r)).*1
    /\ Sorted notAfter lines.
Proof.
  intros Hkeys. unfold HandledPaths, HandledPathsIn. cbn [mbind option_bind].
  assert (mapM (handledPath "") (map_to_list (methodMap r)).*1
          = Some (map_to_list (methodMap r)).*1) as ->.
  { apply mapM_Some, Forall2_same_length_lookup. split; [done|].
    intros i k k' Hk Hk'. rewrite Hk in Hk'. injection Hk' as <-.
    apply list_elem_of_lookup_2, list_elem_of_fmap in Hk as ([k0 h] & -> & Hk).
    apply elem_of_map_to_list in Hk.
    destruct (Hkeys _ _ Hk) as (verb & path & Hsplit).
    by apply (handledPath_two_parts _ verb path). }
  cbn [mbind option_bind]. eexists. split; [reflexivity|].
  split; [apply sortStrings_Permutation|apply sortStrings_sorted].
Qed.

Lemma HandledPaths_sorted_keys_witness :
  exists r lines,
    NewRouter [Baz; Users] = Some r
    /\ HandledPaths r false = Some (Join lines newline)
    /\ lines ≡ₚ (map_to_list (methodMap r)).*1
    /\ Sorted notAfter lines.
Proof.
  eexists.
  destruct (HandledPaths_sorted_keys (default emptyRouter (NewRouter [Baz; Users])))
    as (lines & Hlines).
  - intros k h Hk.
    assert ((k, h) ∈ [("GET /users/image_url", (Users, 0%nat));
                      ("POST /baz/bar", (Baz, 0%nat))]) as Hin.
    { apply elem_of_map_to_list in Hk. revert Hk. by vm_compute. }
    set_unfold. destruct Hin as [[= -> _]|[[= -> _]|[]]]; by do 2 eexists.
  - exists lines. split; [reflexivity|exact Hlines].
Defined.

(** ** Logging *)

Lemma ReplaceAll_no_byte (s : string) (old : ascii) (new : string) :
  hasByte old new = false -> hasByte old (ReplaceAll s old new) = false.
Proof.
  intros Hnew. induction s as [|c s IH]; [done|]. cbn [ReplaceAll].
  destruct (decide (c = old)) as [->|Hc].
  - by rewrite hasByte_app, Hnew, IH.
  - cbn [hasByte]. by rewrite decide_False.
Qed.

Lemma pretty_no_byte (c : ascii) (n : Z) :
  isDigit c = false -> c <> "-"%char -> hasByte c (pretty n) = false.
Proof.
  intros Hc Hminus.
  assert (forall x s, hasByte c s = false ->
                      hasByte c (pretty_N_go x s) = false) as Hgo.
  { intros x. induction (N.lt_wf_0 x) as [x _ IH]. intros s Hs.
    destruct (decide (0 < x)%N) as [Hx|Hx].
    - rewrite pretty_N_go_step by done. apply IH; [apply N.div_lt; lia|].
      assert (x `mod` 10 < 10)%N as Hd by (by apply N.mod_lt).
      destruct (pretty_N_char_digit _ Hd) as [Hdigit _].
      cbn [hasByte]. rewrite decide_False; [done|].
      intros Heq. by rewrite Heq, Hc in Hdigit.
    - replace x with 0%N by lia. by rewrite pretty_N_go_0. }
  destruct n as [|p|p].
  - change (pretty 0) with "0". cbn [hasByte].
    rewrite decide_False; [done|]. by intros <-.
  - change (pretty (Z.pos p)) with (pretty_N_go (N.pos p) ""). by apply Hgo.
  - change (pretty (Z.neg p)) with ("-" +:+ pretty_N_go (N.pos p) "").
    cbn [String.append hasByte]. rewrite decide_False by done. by apply Hgo.
Qed.

(** X13.  A log line is one line: when the fields taken from the request, the
    time and the stack hold no newline, the text [doLog] prints ends with a
    newline and has no other, whatever newlines the error text holds. *)
Theorem doLog_single_line {T} `{error T} (logger : Logger)
    (context : Context.t) (now : string) (err : T) (stack : string) :
  hasByte "010" (Context.RemoteAddr context) = false ->
  hasByte "010" (Context.Method context) = false ->
  hasByte "010" (Context.RequestURI context) = false ->
  hasByte "010" (Context.Proto context) = false ->
  hasByte "010" now = false ->
  hasByte "010" stack = false ->
  exists body,
    doLog logger context now err stack = Some (body +:+ newline)
    /\ hasByte "010" body = false.
Proof.
  intros Haddr Hmethod Huri Hproto Hnow Hstack.
  rewrite doLog_line. unfold logLine.
  exists (Context.RemoteAddr context +:+ " - " +:+ pretty (Context.UserId context)
          +:+ " [" +:+ now +:+ "] "
          +:+ quote +:+ Context.Method context +:+ " "
          +:+ Context.RequestURI context
          +:+ " " +:+ Context.Proto context +:+ quote
          +:+ " 200 " +:+ pretty (Context.written context) +:+ " "
          +:+ quote +:+ ReplaceAll (Error err) "010" ";" +:+ quote +:+ " "
          +:+ quote +:+ stack +:+ quote).
  split.
  - f_equal. by rewrite <- !str_app_assoc.
  - rewrite !hasByte_app, Haddr, Hmethod, Huri, Hproto, Hnow, Hstack.
    rewrite !pretty_no_byte by done.
    by rewrite ReplaceAll_no_byte.
Qed.

Lemma doLog_single_line_witness :
  exists body,
    doLog sampleLogger sampleContext "01/Nov/2026:10:00:00 +0000"
      (NewRequestError ("bad" +:+ newline +:+ "request")) "-"
    = Some (body +:+ newline)
    /\ hasByte "010" body = false.
Proof.
  apply (doLog_single_line sampleLogger sampleContext
           "01/Nov/2026:10:00:00 +0000"
           (NewRequestError ("bad" +:+ newline +:+ "request")) "-");
    reflexivity.
Defined.

Lemma Fprintf_frame (buf : string) (f : Frame) :
  Fprintf buf StackFormat [ArgString (file f); ArgInt (line f); ArgInt (pc f)]
  = Some (buf +:+ frameText f).
Proof.
  unfold StackFormat, frameText. simpl. by rewrite !str_app_assoc.
Qed.

Lemma sliceFrom_total (s : string) (i : Z) :
  0 <= i <= len s -> is_Some (sliceFrom s i).
Proof.
  intros Hi. destruct (slice_at s i Hi) as (a & b & _ & _ & _ & ->). by eexists.
Qed.

Lemma sliceFrom_None (s : string) (i : Z) : i < 0 -> sliceFrom s i = None.
Proof.
  intros Hi. unfold sliceFrom. by destruct (Z.ltb_spec i 0); [|lia].
Qed.

Lemma stackLoop_frames (frames : list Frame) (buf : string) :
  Forall (fun f => 10 <= len (file f)) (readFrames frames) ->
  stackLoop frames buf = Some (buf +:+ traceText frames).
Proof.
  unfold traceText. revert buf.
  induction frames as [|f frames IH]; intros buf Hlong.
  - cbn. by rewrite str_app_nil_r.
  - cbn [readFrames] in Hlong. apply Forall_cons in Hlong as [Hf Hlong].
    cbn [stackLoop tracedFrames]. unfold suffix10 in *.
    destruct (sliceFrom_total (file f) (len (file f) - 10)) as [suffix Hsuffix].
    { pose proof (len_nonneg (file f)). lia. }
    rewrite Hsuffix in Hlong |- *. cbn [mbind option_bind].
    destruct (decide (suffix = "t/value.go")) as [->|Hvalue].
    + rewrite (bool_decide_false ("t/value.go" = "me/panic.c")) by done.
      rewrite !bool_decide_true by done. cbn. by rewrite str_app_nil_r.
    + rewrite (bool_decide_false (Some suffix = Some "t/value.go")) in Hlong |- *
        by congruence.
      rewrite (bool_decide_false (suffix = "t/value.go")) by done.
      destruct (decide (suffix = "me/panic.c")) as [->|Hpanic].
      * rewrite !bool_decide_true by done. by apply IH.
      * rewrite (bool_decide_false (suffix = _)) by done.
        rewrite (bool_decide_false (Some suffix = _)) by congruence.
        rewrite Fprintf_frame. cbn [mbind option_bind foldr].
        rewrite IH by done. by rewrite str_app_assoc.
Qed.

(** X14.  The trace [InternalError.Log] writes, when a logger is set: one
    entry, in the stack format, for each frame from the fourth of the stack
    on that stands in front of the first frame of [reflect/value.go] and is
    not a frame of [runtime/panic.c], in the order of the stack; the frames
    behind are not read.  One line is printed, with the trace in its last
    field.  The file names read must have ten bytes at least. *)
Theorem InternalError_Log_trace (ie : InternalError.t) (context : Context.t)
    (now : string) (callers : list Frame) (logger : Logger) :
  InternalErrorLogger (Context.config context) = Some logger ->
  Forall (fun f => 10 <= len (file f)) (readFrames (drop 3 callers)) ->
  InternalError_Log ie context now callers
  = Some [(logger,
           logLine context now (ReplaceAll (Error ie) "010" ";")
             (traceText (drop 3 callers)))].
Proof.
  intros Hlogger Hlong. unfold InternalError_Log. rewrite Hlogger.
  rewrite stackLoop_frames by done. cbn [mbind option_bind].
  by rewrite doLog_line.
Qed.

Lemma InternalError_Log_trace_witness :
  let callers :=
    [ {| pc := 1; file := "/usr/lib/go/src/runtime/extern.go"; line := 1 |};
      {| pc := 2; file := "/home/u/jas/error.go"; line := 94 |};
      {| pc := 3; file := "/home/u/jas/context.go"; line := 200 |};
      {| pc := 4198543; file := "/home/u/app/handlers.go"; line := 10 |};
      {| pc := 5; file := "/usr/lib/go/src/runtime/panic.c"; line := 20 |};
      {| pc := 6; file := "/usr/lib/go/src/reflect/value.go"; line := 40 |};
      {| pc := 7; file := "r.go"; line := 50 |} ] in
  let context :=
    {| Context.Id := 0; Context.UserId := 7;
       Context.RemoteAddr := "10.0.0.1:4711"; Context.Method := "GET";
       Context.RequestURI := "/users/x"; Context.Proto := "HTTP/1.1";
       Context.written := 33; Context.config := newConfig |} in
  traceText (drop 3 callers) = "/home/u/app/handlers.go:10(0x40108f);"
  /\ InternalError_Log (NewInternalError (VString "boom")) context "now" callers
     = Some [(stderrLogger,
              logLine context "now"
                (ReplaceAll (Error (NewInternalError (VString "boom"))) "010" ";")
                (traceText (drop 3 callers)))].
Proof.
  intros callers context. split; [reflexivity|].
  apply (InternalError_Log_trace _ context "now" callers stderrLogger);
    [reflexivity|].
  repeat constructor; by vm_compute.
Defined.

(** X15.  [InternalError.Log] panics when a frame it reads has a file name of
    fewer than ten bytes: the slice of the last ten bytes is out of
    range. *)
Theorem stackLoop_short_file (frames : list Frame) (buf : string) :
  Exists (fun f => len (file f) < 10) (readFrames frames) ->
  stackLoop frames buf = None.
Proof.
  revert buf. induction frames as [|f frames IH]; intros buf Hshort.
  - by apply Exists_nil in Hshort.
  - cbn [readFrames] in Hshort. cbn [stackLoop].
    apply Exists_cons in Hshort as [Hf|Hshort].
    + by rewrite sliceFrom_None by lia.
    + unfold suffix10 in Hshort.
      destruct (sliceFrom (file f) (len (file f) - 10)) as [suffix|]; [|done].
      cbn [mbind option_bind].
      destruct (decide (suffix = "t/value.go")) as [->|Hvalue].
      * rewrite bool_decide_true in Hshort by done. by apply Exists_nil in Hshort.
      * rewrite (bool_decide_false (Some suffix = _)) in Hshort by congruence.
        rewrite (bool_decide_false (suffix = "t/value.go")) by done.
        case_bool_decide; [by apply IH|].
        rewrite Fprintf_frame. cbn [mbind option_bind]. by apply IH.
Qed.

Lemma stackLoop_short_file_witness :
  stackLoop [ {| pc := 1; file := "/home/u/app/handlers.go"; line := 10 |};
              {| pc := 2; file := "main.go"; line := 7 |} ] "" = None.
Proof.
  apply stackLoop_short_file. apply Exists_cons_tl, Exists_cons_hd. by vm_compute.
Defined.

(** X16.  With the configuration [NewRouter] sets, a request error is not logged
    and an internal error is logged once, by the logger on [os.Stderr], with
    its error text and the trace of the stack in the last field. *)
Theorem default_config_logging (resources : list Resource) (r : Router)
    (context : Context.t) (now : string) (re : RequestError.t)
    (ie : InternalError.t) (callers : list Frame) :
  NewRouter resources = Some r ->
  Context.config context = config r ->
  Forall (fun f => 10 <= len (file f)) (readFrames (drop 3 callers)) ->
  RequestError.Log re context now = Some []
  /\ InternalError_Log ie context now callers
     = Some [(stderrLogger,
              logLine context now (ReplaceAll (Error ie) "010" ";")
                (traceText (drop 3 callers)))].
Proof.
  intros Hrouter Hconfig Hlong.
  apply registerResources_config in Hrouter. rewrite Hrouter in Hconfig.
  unfold RequestError.Log, InternalError_Log. rewrite Hconfig.
  cbn [emptyRouter config newConfig RequestErrorLogger InternalErrorLogger].
  split; [done|].
  rewrite stackLoop_frames by done. cbn [mbind option_bind].
  by rewrite doLog_line.
Qed.

Lemma default_config_logging_witness :
  let context :=
    {| Context.Id := 0; Context.UserId := 7;
       Context.RemoteAddr := "10.0.0.1:4711"; Context.Method := "GET";
       Context.RequestURI := "/users/x"; Context.Proto := "HTTP/1.1";
       Context.written := 33; Context.config := newConfig |} in
  RequestError.Log (NewRequestError "bad request") context "now" = Some []
  /\ InternalError_Log (NewInternalError (VString "boom")) context "now" []
     = Some [(stderrLogger,
              logLine context "now"
                (ReplaceAll (Error (NewInternalError (VString "boom"))) "010" ";")
                (traceText (drop 3 [])))].
Proof.
  intros context.
  apply (default_config_logging [Users] (default emptyRouter (NewRouter [Users])));
    [reflexivity|reflexivity|constructor].
Defined.

(** ** Serving a request *)

Lemma HasPrefix_sliceFrom (s prefix : string) :
  HasPrefix s prefix = true ->
  exists rest, s = prefix +:+ rest /\ sliceFrom s (len prefix) = Some rest.
Proof.
  intros Hprefix. destruct (HasPrefix_app _ _ Hprefix) as [rest ->].
  exists rest. split; [done|]. by apply sliceFrom_app.
Qed.

Lemma HasPrefix_app_l (prefix rest : string) :
  HasPrefix (prefix +:+ rest) prefix = true.
Proof.
  induction prefix as [|c prefix IH]; [by destruct rest|].
  cbn. by rewrite decide_True.
Qed.

Lemma str_app_inv_l (a b b' : string) : a +:+ b = a +:+ b' -> b = b'.
Proof. induction a as [|c a IH]; cbn; [done|]. intros [= H]. by apply IH. Qed.

(** What [ServeHTTP] does, case by case. *)
Lemma ServeHTTP_cases (router : Router) (hooks : Hooks) (w : Header)
    (r : Request.t) :
  (ServeHTTP router hooks w r = Some NotFoundCalled
   /\ HasPrefix (Request.Path r) (BasePath (config router)) = false)
  \/ exists rawPath,
       Request.Path r = BasePath (config router) +:+ rawPath
       /\ let res := resolvePath router (Request.Method r) rawPath in
          match methodMap router !! routeKey res with
          | None => ServeHTTP router hooks w r = Some NotFoundCalled
          | Some methodValue =>
              exists responseHeader goOn,
                match HandleCORS hooks with
                | Some handle => handle r w
                | None => (w, true)
                end = (responseHeader, goOn)
                /\ if goOn
                   then exists ctx,
                          ServeHTTP router hooks w r
                          = Some (MethodCalled methodValue ctx)
                          /\ ctxId ctx = routeId res
                          /\ ctxPathSegments ctx = res.1.2
                          /\ ctxGaps ctx = res.2
                          /\ ctxStatus ctx = 200
                          /\ ctxResponseHeader ctx !! "Content-Type"
                             = Some ["application/json; charset=utf-8"]
                          /\ ctxResponseHeader ctx !! "Cache-Control"
                             = Some ["no-cache"]
                   else ServeHTTP router hooks w r
                        = Some (HeaderOnly responseHeader)
          end.
Proof.
  unfold ServeHTTP.
  destruct (HasPrefix (Request.Path r) (BasePath (config router))) eqn:Hprefix;
    cbn [negb]; [|by left].
  right. destruct (HasPrefix_sliceFrom _ _ Hprefix) as (rawPath & Hpath & ->).
  exists rawPath. split; [done|]. cbn [mbind option_bind]. cbn zeta.
  unfold routeKey, routeId.
  destruct (resolvePath router (Request.Method r) rawPath)
    as [[[path id] segments] gaps].
  cbn [fst snd]. destruct (methodMap router !! path) as [methodValue|]; [|done].
  destruct (match HandleCORS hooks with Some _ => _ | None => _ end)
    as [responseHeader goOn].
  exists responseHeader, goOn. split; [done|].
  destruct goOn; cbn [negb]; [|done].
  eexists. split; [reflexivity|]. cbn.
  do 4 (split; [done|]). unfold Header_Set. split.
  - apply lookup_insert_eq.
  - etrans; [by apply lookup_insert_ne|apply lookup_insert_eq].
Qed.

(** X17.  [ServeHTTP] does not panic: the slice that takes [BasePath] off the
    path of the request is made behind the test of the prefix.  A path that
    does not start with [BasePath], and a path whose key is not in the
    table, end with [OnNotFound], before [HandleCORS] is asked. *)
Theorem ServeHTTP_not_found (router : Router) (hooks : Hooks) (w : Header)
    (r : Request.t) :
  is_Some (ServeHTTP router hooks w r)
  /\ (HasPrefix (Request.Path r) (BasePath (config router)) = false ->
      ServeHTTP router hooks w r = Some NotFoundCalled)
  /\ forall rawPath,
       Request.Path r = BasePath (config router) +:+ rawPath ->
       methodMap router
         !! routeKey (resolvePath router (Request.Method r) rawPath) = None ->
       ServeHTTP router hooks w r = Some NotFoundCalled.
Proof.
  destruct (ServeHTTP_cases router hooks w r)
    as [[Hserved Hprefix]|(rawPath & Hpath & Hserved)].
  - split; [by rewrite Hserved|]. split; [done|].
    intros rawPath' Hpath. rewrite Hpath in Hprefix.
    by rewrite HasPrefix_app_l in Hprefix.
  - assert (HasPrefix (Request.Path r) (BasePath (config router)) = true)
      as Hprefix by (rewrite Hpath; apply HasPrefix_app_l).
    cbn zeta in Hserved. split; [|split].
    + destruct (methodMap router !! _) as [methodValue|]; [|by rewrite Hserved].
      destruct Hserved as (responseHeader & [|] & _ & Hserved).
      * destruct Hserved as (ctx & -> & _). done.
      * by rewrite Hserved.
    + by rewrite Hprefix.
    + intros rawPath' Hpath' Hnone. rewrite Hpath in Hpath'.
      apply str_app_inv_l in Hpath' as <-. by rewrite Hnone in Hserved.
Qed.



(** X19.  With [AllowCORS] for [HandleCORS], a request of method [OPTIONS] never
    reaches a method: either its path, resolved as a [GET], has no entry and
    [OnNotFound] is called, or the answer is the header alone, with the
    header that allows every origin added behind the values it had. *)
Theorem AllowCORS_OPTIONS (router : Router) (parseId : option (Request.t -> Z))
    (w : Header) (r : Request.t) :
  Request.Method r = "OPTIONS" ->
  let hooks := {| HandleCORS := Some AllowCORS; ParseIdFunc := parseId |} in
  ServeHTTP router hooks w r = Some NotFoundCalled
  \/ (ServeHTTP router hooks w r
      = Some (HeaderOnly (Header_Add w "Access-Control-Allow-Origin" "*"))
      /\ exists rawPath,
           Request.Path r = BasePath (config router) +:+ rawPath
           /\ is_Some (methodMap router
                         !! routeKey (resolvePath router "GET" rawPath))).
Proof.
  intros Hmethod hooks.
  destruct (ServeHTTP_cases router hooks w r)
    as [[Hnot _]|(rawPath & Hpath & Hcases)]; [by left|].
  cbn zeta in Hcases. rewrite Hmethod in Hcases.
  rewrite (resolvePath_as_GET router "OPTIONS") in Hcases
    by (apply (bool_decide_eq_false_1 _); reflexivity).
  destruct (methodMap router !! _) as [methodValue|] eqn:Hkey; [|by left].
  destruct Hcases as (responseHeader & goOn & Hcors & Hcases).
  cbn [hooks HandleCORS] in Hcors. unfold AllowCORS in Hcors.
  rewrite bool_decide_true in Hcors by done. injection Hcors as <- <-.
  right. split; [done|]. exists rawPath. split; [done|]. by rewrite Hkey.
Qed.

Lemma AllowCORS_OPTIONS_witness :
  let r := {| Request.Path := "/baz/bar"; Request.Method := "OPTIONS";
              Request.Header := ∅ |} in
  let hooks := {| HandleCORS := Some AllowCORS; ParseIdFunc := None |} in
  exists router,
    NewRouter [Baz] = Some router
    /\ methodMap router !! "POST /baz/bar" = Some (Baz, 0%nat)
    /\ ServeHTTP router hooks ∅ r = Some NotFoundCalled
    /\ (ServeHTTP router hooks ∅ r = Some NotFoundCalled
        \/ (ServeHTTP router hooks ∅ r
            = Some (HeaderOnly (Header_Add ∅ "Access-Control-Allow-Origin" "*"))
            /\ exists rawPath,
                 Request.Path r = BasePath (config router) +:+ rawPath
                 /\ is_Some (methodMap router
                               !! routeKey (resolvePath router "GET" rawPath)))).
Proof.
  intros r hooks. eexists. split; [reflexivity|].
  split; [by vm_compute|]. split; [by vm_compute|].
  apply (AllowCORS_OPTIONS _ None ∅ r). reflexivity.
Defined.

(** ** Names that convert alike *)

Lemma byte_of_bound (c : ascii) : 0 <= byte_of c < 256.
Proof.
  unfold byte_of. pose proof (N_ascii_bounded c). lia.
Qed.

Lemma byte_of_of_byte (z : Z) : 0 <= z < 256 -> byte_of (of_byte z) = z.
Proof.
  intros Hz. unfold byte_of, of_byte. rewrite N_ascii_embedding by lia. lia.
Qed.

Lemma toLower_upper_inj (c d : ascii) :
  isUpper c = true -> isUpper d = true -> toLower c = toLower d -> c = d.
Proof.
  unfold toLower. intros Hc Hd. rewrite Hc, Hd. intros Heq.
  apply (f_equal byte_of) in Heq. unfold isUpper in Hc, Hd.
  apply andb_true_iff in Hc as [Hc1 Hc2], Hd as [Hd1 Hd2].
  apply Z.leb_le in Hc1, Hc2, Hd1, Hd2.
  change (byte_of "A") with 65 in *. change (byte_of "Z") with 90 in *.
  rewrite !byte_of_of_byte in Heq by lia. apply byte_of_inj. lia.
Qed.

Lemma toLower_not_upper (c : ascii) : isUpper c = false -> toLower c = c.
Proof. unfold toLower. by intros ->. Qed.

Lemma snakeFrom_false_inj (X Y : string) :
  lettersOnly X -> lettersOnly Y ->
  snakeFrom false X = snakeFrom false Y -> X = Y.
Proof.
  unfold lettersOnly. revert Y.
  induction X as [|c X IH]; intros [|d Y] HX HY Heq; try done.
  - cbn in Heq. by destruct (isUpper d).
  - cbn in Heq. by destruct (isUpper c).
  - cbn [allBytes] in HX, HY.
    apply andb_true_iff in HX as [Hc HX], HY as [Hd HY].
    cbn [snakeFrom negb andb] in Heq.
    destruct (isUpper c) eqn:Hcu, (isUpper d) eqn:Hdu; cbn in Heq.
    + injection Heq as Hcd Heq. f_equal; [by apply toLower_upper_inj|by apply IH].
    + injection Heq as Hcd _. rewrite (toLower_not_upper d) in Hcd by done.
      by destruct (isLetter_not_sep d).
    + injection Heq as Hcd _. rewrite (toLower_not_upper c) in Hcd by done.
      by destruct (isLetter_not_sep c).
    + injection Heq as Hcd Heq. rewrite !toLower_not_upper in Hcd by done.
      f_equal; [done|by apply IH].
Qed.

(** X20.  Two names made of letters that start with an upper-case letter, as the
    names of exported methods and types do, convert to the same text only
    when they are the same name. *)
Theorem convertName_injective (X Y : string) :
  lettersOnly X -> lettersOnly Y ->
  (exists c rest, X = String c rest /\ isUpper c = true) ->
  (exists d rest, Y = String d rest /\ isUpper d = true) ->
  convertName X = convertName Y -> X = Y.
Proof.
  intros HX HY (c & X' & -> & Hc) (d & Y' & -> & Hd).
  rewrite !convertName_snakeCase. unfold snakeCase, lettersOnly in *.
  cbn [snakeFrom negb andb allBytes String.append] in *.
  apply andb_true_iff in HX as [_ HX], HY as [_ HY].
  intros [= Hcd Heq]. f_equal; [by apply toLower_upper_inj|].
  by apply snakeFrom_false_inj.
Qed.

Lemma convertName_injective_witness :
  convertName "ImageUrl" = "image_url"
  /\ (convertName "ImageUrl" = convertName "ImageUrl" -> "ImageUrl" = "ImageUrl").
Proof.
  split; [reflexivity|].
  apply (convertName_injective "ImageUrl" "ImageUrl");
    [reflexivity|reflexivity|by exists "I"%char, "mageUrl"
    |by exists "I"%char, "mageUrl"].
Defined.

(** ** Segments that are not read *)

Lemma segment_test_app (l extra : list string) (i : nat) :
  (i < length l)%nat ->
  bool_decide (i < length (l ++ extra))%nat
  && negb (bool_decide ((l ++ extra) !!! i = ""))
  = bool_decide (i < length l)%nat && negb (bool_decide (l !!! i = "")).
Proof.
  intros Hi. rewrite length_app.
  rewrite (bool_decide_true (i < length l + length extra)%nat) by lia.
  rewrite (bool_decide_true (i < length l)%nat) by done.
  by rewrite lookup_total_app_l.
Qed.

(** X21.  The segments behind those [resolvePath] reads change nothing: with the
    segment of the method and the one behind it in place (three segments
    and the gaps of the first), whatever segments follow, the key, the id
    and the gaps are the same. *)
Theorem resolvePath_extra_segments (r : Router) (method : string)
    (segs extra : list string) :
  Forall (fun s => hasByte "/" s = false) (segs ++ extra) ->
  (length (default [] (gapsMap r !! (segs !!! 0%nat))) + 3 <= length segs)%nat ->
  let res := resolvePath r method (Join segs "/") in
  resolvePath r method (Join (segs ++ extra) "/")
  = (routeKey res, routeId res, segs ++ extra, res.2).
Proof.
  intros Hsegs Hlen. cbn zeta.
  pose proof Hsegs as [Hsegs' _]%Forall_app.
  assert (segs <> []) as Hnil by (destruct segs; [simpl in Hlen; lia|done]).
  unfold resolvePath, routeKey, routeId.
  rewrite !Split_Join_segments by (done || by destruct segs).
  set (g := length (default [] (gapsMap r !! (segs !!! 0%nat)))) in *.
  rewrite !(lookup_total_app_l segs extra 0) by lia. fold g.
  rewrite !(lookup_total_app_l segs extra) by lia.
  rewrite !length_app.
  repeat first
    [ rewrite (bool_decide_true (_ < length segs + length extra)%nat) by lia
    | rewrite (bool_decide_true (_ < length segs)%nat) by lia
    | rewrite (bool_decide_true (2 <= _)%nat) by lia ].
  destruct (ParseInt (segs !!! 1%nat)) as [id1 [e1|]]; cbn [fst snd].
  - destruct (gapsMap r !! (segs !!! 0%nat)) as [gaps|];
      cbn [default from_option];
      repeat match goal with
        | |- context [if ?b && ?c then _ else _] => destruct (b && c)
        | |- context [ParseInt ?s] => destruct (ParseInt s) as [? [?|]]
        end; reflexivity.
  - by destruct (_ && _).
Qed.

Lemma resolvePath_extra_segments_witness :
  resolvePath emptyRouter "GET"
    (Join (["users"; "5"; "image_url"] ++ ["large"; "x"]) "/")
  = ("GET /users/:id/image_url", 5, ["users"; "5"; "image_url"; "large"; "x"], None).
Proof.
  apply (resolvePath_extra_segments emptyRouter "GET"
           ["users"; "5"; "image_url"] ["large"; "x"]).
  - cbn [app]. repeat constructor.
  - vm_compute. lia.
Defined.

(** ** From a method to the request that reaches it *)

Lemma specRouteKey_parts resPath isIdResource name :
  specRouteKey true resPath isIdResource name
  = methodVerb name +:+ " /"
    +:+ routePath resPath (methodPathWords isIdResource name)
          (methodIsId isIdResource name).
Proof.
  unfold specRouteKey, methodVerb, methodPathWords, methodIsId. cbn [andb].
  by destruct (oneOf _ httpVerbs).
Qed.

Lemma methodParts isIdResource name :
  name <> "" -> lettersOnly name ->
  methodVerb name ∈ ["POST"; "GET"; "PUT"; "DELETE"]
  /\ Forall lowerWord (methodPathWords isIdResource name)
  /\ (methodIsId isIdResource name = true ->
      isIdResource = false /\ methodPathWords isIdResource name <> []).
Proof.
  intros Hne Hletters. unfold methodVerb, methodPathWords, methodIsId.
  pose proof (Split_convertName_words name Hne Hletters) as Hwords.
  pose proof (Split_not_nil "_" (convertName name)) as Hnil.
  change (String "_" "") with WordSeparator in Hnil.
  destruct (Split (convertName name) WordSeparator) as [|w0 ws]; [done|].
  clear Hnil. cbn [hd].
  destruct (oneOf w0 httpVerbs) eqn:Hverb;
    destruct (isIdMethodName isIdResource _ (w0 :: ws)) eqn:HisId.
  all: try (unfold isIdMethodName in HisId;
            apply andb_true_iff in HisId as [[Hres Hlen]%andb_true_iff Hlast];
            apply bool_decide_eq_true in Hlen, Hlast;
            apply negb_true_iff in Hres;
            apply last_Some in Hlast as [init Hinit];
            rewrite Hinit in Hwords |- *; rewrite removelast_last;
            apply Forall_app in Hwords as [Hwords _];
            rewrite Hinit, length_app in Hlen; simpl in Hlen).
  - destruct init as [|w [|w1 init]]; [simpl in Hlen; lia..|].
    cbn [tail]. split; [by apply verb_upper|].
    split; [by inversion Hwords|done].
  - cbn [tail]. split; [by apply verb_upper|].
    split; [by inversion Hwords|done].
  - destruct init as [|w init]; [simpl in Hlen; lia|].
    split; [set_solver|]. done.
  - split; [set_solver|]. done.
Qed.


Lemma validateMethod_named_true (methodType : Method) :
  validateMethod methodType = Some true -> Name methodType <> "".
Proof. intros Hvalid Hname. unfold validateMethod in Hvalid. by rewrite Hname in Hvalid. Qed.






(** ** A resource whose type has no name *)

(** X24.  A resource whose type has no name (a pointer to an unnamed struct)
    and no gap: the key of a valid method whose name is made of letters is
    the verb, a space, one slash and the path portion of the method, with
    the placeholder behind it for an id method; no second slash stands in
    front of the path portion. *)
Theorem routeOf_unnamed_type (v : Resource) (methodType : Method) :
  typeName v = "" -> Gap v = None ->
  lettersOnly (Name methodType) ->
  validateMethod methodType = Some true ->
  routeOf v methodType
  = Some (methodVerb (Name methodType) +:+ " /"
          +:+ methodPortion false (Name methodType)
          +:+ (if methodIsId false (Name methodType) then "/:id" else "")).
Proof.
  intros Htype Hgap Hname Hvalid.
  pose proof (validateMethod_named_true _ Hvalid) as Hne.
  destruct (methodParts false _ Hne Hname) as (_ & _ & HisId).
  unfold routeOf, resourcePath. rewrite Htype, Hgap, Hvalid.
  change (convertName "") with "". change (len "") with 0.
  rewrite bool_decide_false by lia.
  rewrite methodRoute_specRouteKey, specRouteKey_parts.
  do 3 f_equal. unfold routePath, methodPortion.
  rewrite bool_decide_true by done. cbn [String.append].
  destruct (methodPathWords false (Name methodType)) as [|w ws].
  - destruct (methodIsId false (Name methodType)); [|done].
    by destruct (HisId eq_refl).
  - reflexivity.
Qed.

Lemma routeOf_unnamed_type_witness :
  routeOf {| addr := 9; typeName := ""; methodSet := [contextMethod "PostFooId"];
             Gap := None |} (contextMethod "PostFooId")
  = Some ("POST" +:+ " /" +:+ "foo" +:+ "/:id").
Proof.
  apply (routeOf_unnamed_type
           {| addr := 9; typeName := ""; methodSet := [contextMethod "PostFooId"];
              Gap := None |} (contextMethod "PostFooId")); reflexivity.
Defined.
